(** * ArchiView 3D: the model registry, the overlap detector, the gesture
      mapper, the rotation easing and the render composer

    A shallow embedding of the original logic of the viewer
    (App.tsx, components/Scene.tsx, components/Controls.tsx and the two
    variants of components/BuildingModel.tsx), followed by the properties
    of the specification that were checked against it.

    Numbers.  A JavaScript [number] is an IEEE-754 binary64 value.  The
    code is embedded once, over an interface [JsNumber] of the arithmetic
    it uses, and the interface is implemented twice:
    - by [Q], exact rational arithmetic, in which the algebraic
      properties are proved;
    - by the kernel's binary64 [float], in which concrete runs are
      evaluated with the rounding the program really performs. *)

From Stdlib Require Import QArith Qabs Qround Lqa.
From Stdlib Require Import Floats.PrimFloat Floats.FloatClass Floats.FloatOps Floats.SpecFloat Numbers.Cyclic.Int63.Uint63.
From stdpp Require Import gmap strings list.

Set Warnings "-inexact-float,-register-all".

(** ** JavaScript numbers *)

Declare Scope js_scope.
Delimit Scope js_scope with js.

Class JsNumber (num : Type) := {
  (** a decimal literal of the source text *)
  num_lit : Q -> num;
  num_add : num -> num -> num;
  num_sub : num -> num -> num;
  num_mul : num -> num -> num;
  num_div : num -> num -> num;
  num_neg : num -> num;
  (** [a <= b]; the source's [a >= b] is [num_leb b a] *)
  num_leb : num -> num -> bool;
  (** [a === b] on numbers; [a !== b] is its negation *)
  num_eqb : num -> num -> bool;
  Math_max : num -> num -> num;
  Math_min : num -> num -> num;
}.

Notation "a + b" := (num_add a b) : js_scope.
Notation "a - b" := (num_sub a b) : js_scope.
Notation "a * b" := (num_mul a b) : js_scope.
Notation "a / b" := (num_div a b) : js_scope.
Notation "- a" := (num_neg a) : js_scope.
Notation "a <=? b" := (num_leb a b) : js_scope.
Notation "a >=? b" := (num_leb b a) : js_scope.
Notation "a === b" := (num_eqb a b) (at level 70, no associativity) : js_scope.
Notation "a !== b" := (negb (num_eqb a b)) (at level 70, no associativity) : js_scope.

(** Exact arithmetic.  [Qdiv] by zero is zero, where JavaScript gives an
    infinity or NaN; the code divides by the literals 2 and 4 only. *)
#[export] Instance Q_JsNumber : JsNumber Q := {
  num_lit q := q;
  num_add := Qplus;
  num_sub := Qminus;
  num_mul := Qmult;
  num_div := Qdiv;
  num_neg := Qopp;
  num_leb := Qle_bool;
  num_eqb := Qeq_bool;
  Math_max a b := if Qle_bool a b then b else a;
  Math_min a b := if Qle_bool a b then a else b;
}.

(** IEEE-754 binary64.  A decimal literal [n/d] with [n] and [d] below
    [2^53] is the correctly rounded quotient of two exact integers, which
    is the double the JavaScript parser reads. *)
Definition float_of_Z (z : Z) : float :=
  match z with
  | Zneg p => PrimFloat.opp (PrimFloat.of_uint63 (Uint63.of_Z (Zpos p)))
  | _ => PrimFloat.of_uint63 (Uint63.of_Z z)
  end.

Definition float_lit (q : Q) : float :=
  PrimFloat.div (float_of_Z (Qnum q)) (float_of_Z (Zpos (Qden q))).

Definition float_is_nan (a : float) : bool := negb (PrimFloat.eqb a a).

(** [Math.max] and [Math.min]: NaN when an argument is NaN, and [-0] is
    below [+0]. *)
Definition float_Math_max (a b : float) : float :=
  if float_is_nan a || float_is_nan b then PrimFloat.nan
  else if PrimFloat.ltb a b then b
  else if PrimFloat.ltb b a then a
  else match PrimFloat.classify a with NZero => b | _ => a end.

Definition float_Math_min (a b : float) : float :=
  if float_is_nan a || float_is_nan b then PrimFloat.nan
  else if PrimFloat.ltb a b then a
  else if PrimFloat.ltb b a then b
  else match PrimFloat.classify a with PZero => b | _ => a end.

#[export] Instance float_JsNumber : JsNumber float := {
  num_lit := float_lit;
  num_add := PrimFloat.add;
  num_sub := PrimFloat.sub;
  num_mul := PrimFloat.mul;
  num_div := PrimFloat.div;
  num_neg := PrimFloat.opp;
  num_leb := PrimFloat.leb;
  num_eqb := PrimFloat.eqb;
  Math_max := float_Math_max;
  Math_min := float_Math_min;
}.

(** [Math.PI], by its shortest decimal that reads back as the same double. *)
Definition Math_PI {num} `{JsNumber num} : num := num_lit 3.141592653589793%Q.

(** ** three.js: the vectors and boxes the scene uses

    [THREE.Vector3] and [THREE.Box3] belong to the rendering library; the
    methods the overlap detector calls are written out here as the library
    defines them. *)

Module Three.
Section Three.
Context {num : Type} `{JsNumber num}.
Local Open Scope js_scope.

Record Vector3 := { x : num; y : num; z : num }.

(** [new THREE.Vector3(...t)] for a three-element array [t] *)
Definition Vector3_of (t : num * num * num) : Vector3 :=
  let '(a, b, c) := t in {| x := a; y := b; z := c |}.

Definition multiply (u v : Vector3) : Vector3 :=
  {| x := x u * x v; y := y u * y v; z := z u * z v |}.

Definition multiplyScalar (u : Vector3) (s : num) : Vector3 :=
  {| x := x u * s; y := y u * s; z := z u * s |}.

Definition add (u v : Vector3) : Vector3 :=
  {| x := x u + x v; y := y u + y v; z := z u + z v |}.

Definition sub (u v : Vector3) : Vector3 :=
  {| x := x u - x v; y := y u - y v; z := z u - z v |}.

Record Box3 := { min : Vector3; max : Vector3 }.

Definition setFromCenterAndSize (center size : Vector3) : Box3 :=
  let halfSize := multiplyScalar size (num_lit 0.5) in
  {| min := sub center halfSize; max := add center halfSize |}.

(** [this.intersectsBox(box)] *)
Definition intersectsBox (this box : Box3) : bool :=
  (x (max box) >=? x (min this)) && (x (min box) <=? x (max this)) &&
  (y (max box) >=? y (min this)) && (y (min box) <=? y (max this)) &&
  (z (max box) >=? z (min this)) && (z (min box) <=? z (max this)).

(** Materials and the scene graph, as far as the model component reads
    and writes them. *)
Inductive Side := FrontSide | BackSide | DoubleSide.

Inductive Blending :=
  | NoBlending | NormalBlending | AdditiveBlending
  | SubtractiveBlending | MultiplyBlending | CustomBlending.

(** [color] is the 24-bit RGB value; [version] is what the setter
    [needsUpdate = true] increments. *)
Record Material := {
  transparent : bool;
  opacity : num;
  depthWrite : bool;
  depthTest : bool;
  side : Side;
  blending : Blending;
  color : Z;
  version : nat;
}.

(** [material.clone()]: a new material with the same properties *)
Definition Material_clone (m : Material) : Material :=
  {| transparent := transparent m; opacity := opacity m;
     depthWrite := depthWrite m; depthTest := depthTest m;
     side := side m; blending := blending m; color := color m;
     version := 0 |}.

(** [mesh.material]: absent, one material, or an array of materials *)
Inductive MeshMaterial :=
  | NoMaterial
  | OneMaterial (m : Material)
  | MaterialArray (ms : list Material).

(** An [Object3D] with its children.  [Mesh] stands for every instance
    of [THREE.Mesh], [Node] for any other object (groups, bones, ...). *)
Inductive Object3D :=
  | Mesh (castShadow receiveShadow : bool) (material : MeshMaterial)
      (children : list Object3D)
  | Node (children : list Object3D).
End Three.
Arguments Vector3 : clear implicits.
Arguments Box3 : clear implicits.
Arguments Material : clear implicits.
Arguments MeshMaterial : clear implicits.
Arguments Object3D : clear implicits.
End Three.

(** ** types.ts: the model record

    [ModelData] with the fields the application gives its records and the
    components read. *)

Module Types.
Section Types.
Context {num : Type}.

(** [[number, number, number]] *)
Definition Triple : Type := num * num * num.

Record ModelData := {
  id : string;
  name : string;
  url : string;
  position : Triple;
  rotation : Triple;
  scale : Triple;
  visible : bool;
  selected : bool;
  opacity : num;
}.

(** [Partial<ModelData>]: a field is [Some v] when the patch has the key. *)
Record Partial_ModelData := {
  id_opt : option string;
  name_opt : option string;
  url_opt : option string;
  position_opt : option Triple;
  rotation_opt : option Triple;
  scale_opt : option Triple;
  visible_opt : option bool;
  selected_opt : option bool;
  opacity_opt : option num;
}.

(** the object literal [{}] *)
Definition no_updates : Partial_ModelData :=
  {| id_opt := None; name_opt := None; url_opt := None;
     position_opt := None; rotation_opt := None; scale_opt := None;
     visible_opt := None; selected_opt := None; opacity_opt := None |}.

(** [{ ...m, ...updates }] *)
Definition spread (m : ModelData) (updates : Partial_ModelData) : ModelData :=
  {| id := default (id m) (id_opt updates);
     name := default (name m) (name_opt updates);
     url := default (url m) (url_opt updates);
     position := default (position m) (position_opt updates);
     rotation := default (rotation m) (rotation_opt updates);
     scale := default (scale m) (scale_opt updates);
     visible := default (visible m) (visible_opt updates);
     selected := default (selected m) (selected_opt updates);
     opacity := default (opacity m) (opacity_opt updates) |}.

(** [m.id === id] for [id : string | null] *)
Definition id_is (m : ModelData) (i : option string) : bool :=
  match i with
  | Some s => String.eqb (id m) s
  | None => false
  end.
End Types.
Arguments ModelData : clear implicits.
Arguments Partial_ModelData : clear implicits.
Arguments Triple : clear implicits.
End Types.
Import Types.

(** ** App.tsx: the registry and its two update entry points *)

Module App.
Section App.
Context {num : Type} `{JsNumber num}.
Local Open Scope js_scope.

(** The two asset references are constants of the [constants] module;
    they are parameters of the initial registry here. *)
Variables DEFAULT_MODEL_1_URL DEFAULT_MODEL_2_URL : string.

Definition INITIAL_MODELS : list (ModelData num) :=
  [ {| id := "model-1"; name := "模型一"; url := DEFAULT_MODEL_1_URL;
       position := (- num_lit 3.333, num_lit 1, num_lit 0);
       rotation := (num_lit 0, num_lit 0, num_lit 0);
       scale := (num_lit 10, num_lit 10, num_lit 10);
       visible := true; selected := false; opacity := num_lit 1.0 |};
    {| id := "model-2"; name := "模型二"; url := DEFAULT_MODEL_2_URL;
       position := (num_lit 3.333, num_lit 1, num_lit 0);
       rotation := (num_lit 0, num_lit 0, num_lit 0);
       scale := (num_lit 10, num_lit 10, num_lit 10);
       visible := true; selected := false; opacity := num_lit 1.0 |} ].

(** The component state: [models] and [selectedId]. *)
Record State := { models : list (ModelData num); selectedId : option string }.

Definition initial : State := {| models := INITIAL_MODELS; selectedId := None |}.

Definition select (i : option string) (m : ModelData num) : ModelData num :=
  {| id := id m; name := name m; url := url m;
     position := position m; rotation := rotation m; scale := scale m;
     visible := visible m; selected := id_is m i; opacity := opacity m |}.

Definition handleSelectModel (i : option string) (st : State) : State :=
  {| selectedId := i; models := map (select i) (models st) |}.

Definition update (i : string) (updates : Partial_ModelData num)
    (m : ModelData num) : ModelData num :=
  if String.eqb (id m) i then spread m updates else m.

Definition handleUpdateModel (i : string) (updates : Partial_ModelData num)
    (st : State) : State :=
  {| selectedId := selectedId st; models := map (update i updates) (models st) |}.
End App.
Arguments State : clear implicits.
End App.

(** ** components/Scene.tsx: the overlap detector *)

Module Scene.
Section Scene.
Context {num : Type} `{JsNumber num}.
Local Open Scope js_scope.

Record OverlapInfo := { isOverlapping : bool; overlappingWith : list string }.

(** [{ isOverlapping: false, overlappingWith: [] }] *)
Definition no_overlap : OverlapInfo :=
  {| isOverlapping := false; overlappingWith := [] |}.

(** The box of a model: centre [position], size the unit cube times
    [scale] (lines 94-107 of the effect). *)
Definition box_of (model : ModelData num) : Three.Box3 num :=
  let center := Three.Vector3_of (position model) in
  let scale_ := Three.Vector3_of (scale model) in
  let size :=
    Three.multiply
      {| Three.x := num_lit 1; Three.y := num_lit 1; Three.z := num_lit 1 |}
      scale_ in
  Three.setFromCenterAndSize center size.

(** [box1.intersectsBox(box2)] for the boxes of two models *)
Definition overlaps (model1 model2 : ModelData num) : bool :=
  Three.intersectsBox (box_of model1) (box_of model2).

(** [info[a].isOverlapping = true; info[a].overlappingWith.push(b)] *)
Definition report (a b : string) (info : gmap string OverlapInfo)
    : gmap string OverlapInfo :=
  alter (fun o => {| isOverlapping := true;
                     overlappingWith := overlappingWith o ++ [b] |}) a info.

(** [models.forEach(model => { newOverlapInfo[model.id] = ... })] *)
Definition init_info (models : list (ModelData num)) : gmap string OverlapInfo :=
  fold_left (fun info model => <[id model := no_overlap]> info) models ∅.

(** the inner loop: [model1 = models[i]] against [models[j]], [j > i] *)
Fixpoint check_against (model1 : ModelData num) (rest : list (ModelData num))
    (info : gmap string OverlapInfo) : gmap string OverlapInfo :=
  match rest with
  | [] => info
  | model2 :: rest' =>
      check_against model1 rest'
        (if overlaps model1 model2
         then report (id model2) (id model1) (report (id model1) (id model2) info)
         else info)
  end.

(** the outer loop over [i] *)
Fixpoint check_pairs (models : list (ModelData num))
    (info : gmap string OverlapInfo) : gmap string OverlapInfo :=
  match models with
  | [] => info
  | model1 :: rest => check_pairs rest (check_against model1 rest info)
  end.

(** The effect that runs after a render in which [models] changed: the
    new value of the [overlapInfo] state, given its current value. *)
Definition detectOverlaps (models : list (ModelData num))
    (overlapInfo : gmap string OverlapInfo) : gmap string OverlapInfo :=
  if (length models <? 2)%nat then overlapInfo
  else check_pairs models (init_info models).

(** [overlapInfo[model.id] || { isOverlapping: false, overlappingWith: [] }],
    the prop handed to the model's component *)
Definition overlapInfo_for (overlapInfo : gmap string OverlapInfo)
    (model : ModelData num) : OverlapInfo :=
  default no_overlap (overlapInfo !! id model).

(** [<Ground onDeselect={() => onSelectModel(null)} />]: a click on the
    ground, or a click that misses every mesh. *)
Definition Ground_onDeselect (st : App.State num) : App.State num :=
  App.handleSelectModel None st.
End Scene.
Arguments OverlapInfo : clear implicits.
End Scene.

(** ** components/Controls.tsx: the control panel of one model *)

Module Controls.
Section Controls.
Context {num : Type} `{JsNumber num}.
Local Open Scope js_scope.

Inductive Axis := AxisX | AxisZ.
Inductive Direction := Up | Down.

(** Each command is the call [onUpdate(model.id, patch)] it issues, for
    the [model] the panel was rendered with. *)
Definition rotateModel (model : ModelData num) (axis : Axis)
    : string * Partial_ModelData num :=
  let rad := Math_PI / num_lit 2 in
  let '(r0, r1, r2) := rotation model in
  let '(r0, r2) :=
    match axis with
    | AxisX => (r0 + rad, r2)
    | AxisZ => (r0, r2 + rad)
    end in
  (id model,
   {| id_opt := None; name_opt := None; url_opt := None;
      position_opt := None; rotation_opt := Some (r0, r1, r2); scale_opt := None;
      visible_opt := None; selected_opt := None; opacity_opt := None |}).

Definition rotateClockwise (model : ModelData num)
    : string * Partial_ModelData num :=
  let rad := Math_PI / num_lit 4 in
  let '(r0, r1, r2) := rotation model in
  let r1 := r1 + rad in
  (id model,
   {| id_opt := None; name_opt := None; url_opt := None;
      position_opt := None; rotation_opt := Some (r0, r1, r2); scale_opt := None;
      visible_opt := None; selected_opt := None; opacity_opt := None |}).

Definition toggleVisibility (model : ModelData num)
    : string * Partial_ModelData num :=
  (id model,
   {| id_opt := None; name_opt := None; url_opt := None;
      position_opt := None; rotation_opt := None; scale_opt := None;
      visible_opt := Some (negb (visible model)); selected_opt := None;
      opacity_opt := None |}).

Definition adjustHeight (model : ModelData num) (direction : Direction)
    : string * Partial_ModelData num :=
  let step := num_lit 0.05 in
  let '(p0, p1, p2) := position model in
  let p1 :=
    match direction with
    | Up => p1 + step
    | Down => p1 - step
    end in
  (id model,
   {| id_opt := None; name_opt := None; url_opt := None;
      position_opt := Some (p0, p1, p2); rotation_opt := None; scale_opt := None;
      visible_opt := None; selected_opt := None; opacity_opt := None |}).

(** The panel's [onUpdate] is the application's [handleUpdateModel]. *)
Definition onUpdate (call : string * Partial_ModelData num) (st : App.State num)
    : App.State num :=
  App.handleUpdateModel (fst call) (snd call) st.
End Controls.
End Controls.

(** ** components/BuildingModel.tsx: the component of one model

    The repository holds two variants of this file.  Variant 1 moves a
    model with one or two contacts and has no ground bounds; variant 2
    moves it with one contact only, inside the ground bounds, and colours
    the materials by the model's name.  What the two variants share is
    written once; what differs carries the suffix [_v1] or [_v2]. *)

Module BuildingModel.
Section BuildingModel.
Context {num : Type} `{JsNumber num}.
Local Open Scope js_scope.

Inductive Variant := V1 | V2.

(** *** Component state *)

Record LocalState := {
  hovered : bool;
  currentRotation : Triple num;
  targetRotation : Triple num;
  (** the Y component of [modelOffset]; X and Z are always 0 *)
  modelOffset_y : num;
}.

(** the [useState] initial values on mount *)
Definition mount (data : ModelData num) : LocalState :=
  {| hovered := false;
     currentRotation := rotation data;
     targetRotation := rotation data;
     modelOffset_y := num_lit 0 |}.

(** [useEffect(() => setTargetRotation(data.rotation), [data.rotation])] *)
Definition syncTargetRotation (data : ModelData num) (st : LocalState) : LocalState :=
  {| hovered := hovered st;
     currentRotation := currentRotation st;
     targetRotation := rotation data;
     modelOffset_y := modelOffset_y st |}.

(** the [useFrame] callback, with [delta] the time since the last frame *)
Definition useFrame (delta : num) (st : LocalState) : LocalState :=
  let '(c0, c1, c2) := currentRotation st in
  let '(t0, t1, t2) := targetRotation st in
  if (c0 !== t0) || (c1 !== t1) || (c2 !== t2) then
    let easeFactor := num_lit 5 * delta in
    let newX := c0 + (t0 - c0) * easeFactor in
    let newY := c1 + (t1 - c1) * easeFactor in
    let newZ := c2 + (t2 - c2) * easeFactor in
    {| hovered := hovered st;
       currentRotation := (newX, newY, newZ);
       targetRotation := targetRotation st;
       modelOffset_y := modelOffset_y st |}
  else st.

(** the vertical offset effect, from the bounds [minY], [maxY] of the
    clone's bounding box *)
Definition setModelOffset_v1 (minY maxY : num) (st : LocalState) : LocalState :=
  let verticalCenterY := (minY + maxY) / num_lit 2 in
  let offsetY := - verticalCenterY in
  {| hovered := hovered st; currentRotation := currentRotation st;
     targetRotation := targetRotation st; modelOffset_y := offsetY |}.

Definition setModelOffset_v2 (minY : num) (st : LocalState) : LocalState :=
  let offsetY := - minY in
  {| hovered := hovered st; currentRotation := currentRotation st;
     targetRotation := targetRotation st; modelOffset_y := offsetY |}.

(** *** Materials *)

(** [clone.traverse(f)] where [f] rewrites the node it visits: [mesh]
    gives the new shadow flags and material of a mesh. *)
Fixpoint traverse
    (mesh : bool -> bool -> Three.MeshMaterial num
            -> bool * bool * Three.MeshMaterial num)
    (o : Three.Object3D num) : Three.Object3D num :=
  match o with
  | Three.Mesh cs rs mat children =>
      let '(cs', rs', mat') := mesh cs rs mat in
      Three.Mesh cs' rs' mat' (map (traverse mesh) children)
  | Three.Node children => Three.Node (map (traverse mesh) children)
  end.

(** the body of [materials.forEach] in variant 1 *)
Definition solid_v1 (mat : Three.Material num) : Three.Material num :=
  {| Three.transparent := false;
     Three.opacity := num_lit 1.0;
     Three.depthWrite := true;
     Three.side := Three.FrontSide;
     Three.depthTest := true;
     Three.blending := Three.NormalBlending;
     Three.color := Three.color mat;
     Three.version := S (Three.version mat) |}.

(** the colour policy of variant 2, by the model's name *)
Definition name_color (name_ : string) : Z :=
  if String.eqb name_ "锚定" then 0x1781b5%Z
  else if String.eqb name_ "现实" then 0xee3f4d%Z
  else 0xffffff%Z.

(** the body of [materials.forEach] in variant 2 *)
Definition solid_v2 (name_ : string) (mat : Three.Material num)
    : Three.Material num :=
  let '(transparent_, opacity_) :=
    if String.eqb name_ "锚定" then (false, num_lit 1.0)
    else if String.eqb name_ "现实" then (true, num_lit 0.6)
    else (false, num_lit 1.0) in
  {| Three.transparent := transparent_;
     Three.opacity := opacity_;
     Three.depthWrite := true;
     Three.side := Three.FrontSide;
     Three.depthTest := true;
     Three.blending := Three.NormalBlending;
     Three.color := name_color name_;
     Three.version := S (Three.version mat) |}.

Definition solid (v : Variant) (data : ModelData num)
    : Three.Material num -> Three.Material num :=
  match v with
  | V1 => solid_v1
  | V2 => solid_v2 (name data)
  end.

(** The material effect on the primary clone: every mesh casts and
    receives shadows, and each of its materials is made solid. *)
Definition solid_mesh (v : Variant) (data : ModelData num)
    (cs rs : bool) (mat : Three.MeshMaterial num)
    : bool * bool * Three.MeshMaterial num :=
  (true, true,
   match mat with
   | Three.NoMaterial => Three.NoMaterial
   | Three.OneMaterial m => Three.OneMaterial (solid v data m)
   | Three.MaterialArray ms => Three.MaterialArray (map (solid v data) ms)
   end).

Definition primary (v : Variant) (data : ModelData num)
    (scene : Three.Object3D num) : Three.Object3D num :=
  traverse (solid_mesh v data) scene.

(** the transparent material of the overlap visualisation *)
Definition ghost_material (v : Variant) (data : ModelData num)
    (originalMaterial : Three.Material num) : Three.Material num :=
  let transparentMaterial := Three.Material_clone originalMaterial in
  {| Three.transparent := true;
     Three.opacity := num_lit 0.4;
     Three.depthWrite := false;
     Three.side := Three.BackSide;
     Three.blending := Three.AdditiveBlending;
     Three.depthTest := Three.depthTest transparentMaterial;
     Three.color :=
       match v with
       | V1 => Three.color transparentMaterial
       | V2 => name_color (name data)
       end;
     Three.version := Three.version transparentMaterial |}.

(** [Array.isArray(m) ? m[0] : m], [None] when the array is empty (the
    call [originalMaterial.clone()] then throws) *)
Definition first_material (mat : Three.MeshMaterial num)
    : option (option (Three.Material num)) :=
  match mat with
  | Three.NoMaterial => Some None
  | Three.OneMaterial m => Some (Some m)
  | Three.MaterialArray [] => None
  | Three.MaterialArray (m :: _) => Some (Some m)
  end.

(** The traversal that builds the overlap clone; [None] when it throws. *)
Fixpoint ghost (v : Variant) (data : ModelData num) (o : Three.Object3D num)
    : option (Three.Object3D num) :=
  let ghosts :=
    fix ghosts (l : list (Three.Object3D num)) : option (list (Three.Object3D num)) :=
      match l with
      | [] => Some []
      | c :: l' =>
          match ghost v data c with
          | None => None
          | Some c' =>
              match ghosts l' with
              | None => None
              | Some l'' => Some (c' :: l'')
              end
          end
      end in
  match o with
  | Three.Mesh cs rs mat children =>
      match first_material mat with
      | None => None
      | Some original =>
          let mat' :=
            match original with
            | None => mat
            | Some m => Three.OneMaterial (ghost_material v data m)
            end in
          match ghosts children with
          | None => None
          | Some children' => Some (Three.Mesh false false mat' children')
          end
      end
  | Three.Node children =>
      match ghosts children with
      | None => None
      | Some children' => Some (Three.Node children')
      end
  end.

(** The [useMemo] of [overlapClone]: [Some None] is [null], [None] a
    thrown exception. *)
Definition overlapClone (v : Variant) (data : ModelData num)
    (overlapInfo : Scene.OverlapInfo) (scene : Three.Object3D num)
    : option (option (Three.Object3D num)) :=
  if negb (Scene.isOverlapping overlapInfo) then Some None
  else match ghost v data scene with
       | None => None
       | Some clone => Some (Some clone)
       end.

(** *** Gestures

    A handler's outcome: whether it called [event.stopPropagation()],
    and the calls it made to [onSelect] and [onUpdate], in order. *)

Inductive Call :=
  | OnSelect (i : string)
  | OnUpdate (i : string) (updates : Partial_ModelData num).

Record Handled := { stopPropagation : bool; calls : list Call }.

(** the patch [{ position: p }] *)
Definition position_patch (p : Triple num) : Partial_ModelData num :=
  {| id_opt := None; name_opt := None; url_opt := None;
     position_opt := Some p; rotation_opt := None; scale_opt := None;
     visible_opt := None; selected_opt := None; opacity_opt := None |}.

(** the drag memo: position and rotation when the drag began *)
Record Memo := { initialPos : Triple num; initialRot : Triple num }.

(** the default [memo = { initialPos: data.position, initialRot: data.rotation }] *)
Definition memo_or_initial (data : ModelData num) (memo : option Memo) : Memo :=
  default {| initialPos := position data; initialRot := rotation data |} memo.

Definition onDragStart_v1 (data : ModelData num) : Handled :=
  {| stopPropagation := true;
     calls := if negb (selected data) then [OnSelect (id data)] else [] |}.

Definition onDragStart_v2 (data : ModelData num) (touches : nat) : Handled :=
  if (touches =? 1)%nat then
    {| stopPropagation := true;
       calls := if negb (selected data) then [OnSelect (id data)] else [] |}
  else {| stopPropagation := false; calls := [] |}.

(** [onDrag] of variant 1: [movement] is the accumulated screen movement
    [[x, y]] since the drag began, [memo] what the previous call of the
    handler returned ([None] on the first call). *)
Definition onDrag_v1 (data : ModelData num) (movement : num * num)
    (touches : nat) (memo : option Memo) : Memo * Handled :=
  let memo := memo_or_initial data memo in
  let '(x, y) := movement in
  let '(i0, i1, i2) := initialPos memo in
  if negb (selected data) then (memo, {| stopPropagation := true; calls := [] |})
  else
    let one :=
      if (touches =? 1)%nat then
        let moveSpeed := num_lit 0.05 in
        let newX := i0 + (x * moveSpeed) in
        let newZ := i2 + (y * moveSpeed) in
        [OnUpdate (id data) (position_patch (newX, i1, newZ))]
      else [] in
    let two :=
      if (touches =? 2)%nat then
        let moveSpeed := num_lit 0.05 in
        let newX := i0 + (x * moveSpeed) in
        let newY := i1 + (y * moveSpeed) in
        let newZ := i2 in
        [OnUpdate (id data) (position_patch (newX, newY, newZ))]
      else [] in
    (memo, {| stopPropagation := true; calls := one ++ two |}).

Definition GRID_SIZE : num := num_lit 6.
Definition BOUNDARY_MIN : num := - GRID_SIZE / num_lit 2.
Definition BOUNDARY_MAX : num := GRID_SIZE / num_lit 2.

(** [Math.max(BOUNDARY_MIN, Math.min(BOUNDARY_MAX, v))] *)
Definition clamp (v : num) : num :=
  Math_max BOUNDARY_MIN (Math_min BOUNDARY_MAX v).

(** [onDrag] of variant 2 *)
Definition onDrag_v2 (data : ModelData num) (movement : num * num)
    (touches : nat) (memo : option Memo) : Memo * Handled :=
  let memo := memo_or_initial data memo in
  let '(x, y) := movement in
  let '(i0, i1, i2) := initialPos memo in
  if (touches =? 1)%nat then
    if negb (selected data) then (memo, {| stopPropagation := true; calls := [] |})
    else
      let moveSpeed := num_lit 0.05 in
      let newX := clamp (i0 + (x * moveSpeed)) in
      let newZ := clamp (i2 + (y * moveSpeed)) in
      (memo, {| stopPropagation := true;
                calls := [OnUpdate (id data) (position_patch (newX, i1, newZ))] |})
  else (memo, {| stopPropagation := false; calls := [] |}).

Definition onDrag (v : Variant) :=
  match v with
  | V1 => onDrag_v1
  | V2 => onDrag_v2
  end.

Definition onClick (data : ModelData num) : Handled :=
  {| stopPropagation := true; calls := [OnSelect (id data)] |}.

(** The props [onSelect] and [onUpdate] are the application's
    [handleSelectModel] and [handleUpdateModel]. *)
Definition run_call (c : Call) (st : App.State num) : App.State num :=
  match c with
  | OnSelect i => App.handleSelectModel (Some i) st
  | OnUpdate i updates => App.handleUpdateModel i updates st
  end.

Definition run_calls (h : Handled) (st : App.State num) : App.State num :=
  fold_left (fun st c => run_call c st) (calls h) st.

(** *** Rendering *)

Record Outlines := {
  thickness : num;
  outline_color : string;
  screenspace : bool;
  outline_opacity : num;
}.

(** [COLORS.selection] is a constant of the [constants] module; it is a
    parameter of the render here. *)
Variable COLORS_selection : string.

Definition selection_outline : Outlines :=
  {| thickness := num_lit 3; outline_color := COLORS_selection;
     screenspace := true; outline_opacity := num_lit 1 |}.

Definition hover_outline : Outlines :=
  {| thickness := num_lit 2; outline_color := "#9ca3af";
     screenspace := true; outline_opacity := num_lit 0.5 |}.

(** What the component returns when it renders a group: the outer
    group's position and scale, the rotation of the rotation group, the
    position of the offset group, the [<primitive>] objects inside it,
    and the outlines. *)
Record Rendered := {
  group_position : Triple num;
  group_scale : Triple num;
  group_rotation : Triple num;
  offset_position : Triple num;
  primitives : list (Three.Object3D num);
  outlines : list Outlines;
}.

Inductive Output :=
  | Thrown
  | Null
  | Group (r : Rendered).

(** One render of [BuildingModelContent], for the loaded [scene].  The
    primary primitive is the clone as the material effect leaves it. *)
Definition BuildingModelContent (v : Variant) (data : ModelData num)
    (overlapInfo : Scene.OverlapInfo) (scene : Three.Object3D num)
    (st : LocalState) : Output :=
  match overlapClone v data overlapInfo scene with
  | None => Thrown
  | Some overlapClone_ =>
      if negb (visible data) then Null
      else
        Group
          {| group_position := position data;
             group_scale := scale data;
             group_rotation := currentRotation st;
             offset_position := (num_lit 0, modelOffset_y st, num_lit 0);
             primitives :=
               primary v data scene ::
               match overlapClone_ with
               | Some clone => [clone]
               | None => []
               end;
             outlines :=
               (if selected data then [selection_outline] else []) ++
               (if negb (selected data) && hovered st then [hover_outline] else []) |}
  end.
End BuildingModel.
Arguments LocalState : clear implicits.
Arguments Call : clear implicits.
Arguments Handled : clear implicits.
Arguments Memo : clear implicits.
Arguments Outlines : clear implicits.
Arguments Rendered : clear implicits.
Arguments Output : clear implicits.
End BuildingModel.

(** ** The page: the application with its scene

    [App] renders [Scene] with its [models]; the overlap effect of the
    scene runs after the first render and after every render in which
    [models] changed.  The file-upload handler is not part of the steps:
    its buttons are switched off ([SHOW_UPLOAD_BUTTONS = false]). *)

Module Page.
Section Page.
Context {num : Type} `{JsNumber num}.

Inductive Action :=
  | Select (i : option string)
  | Update (i : string) (updates : Partial_ModelData num).

Record State := {
  app : App.State num;
  overlapInfo : gmap string Scene.OverlapInfo;
}.

(** the first render, with [useState({})], and the effect after it *)
Definition mounted (init : App.State num) : State :=
  {| app := init; overlapInfo := Scene.detectOverlaps (App.models init) ∅ |}.

Definition handle (a : Action) (st : App.State num) : App.State num :=
  match a with
  | Select i => App.handleSelectModel i st
  | Update i updates => App.handleUpdateModel i updates st
  end.

Definition step (a : Action) (pg : State) : State :=
  let app' := handle a (app pg) in
  {| app := app';
     overlapInfo := Scene.detectOverlaps (App.models app') (overlapInfo pg) |}.

Definition run (actions : list Action) (init : App.State num) : State :=
  fold_left (fun pg a => step a pg) actions (mounted init).
End Page.
Arguments Action : clear implicits.
Arguments State : clear implicits.
End Page.

(** ** What is on screen: the memoised model components

    [BuildingModel] is wrapped in [React.memo] with a comparison of its
    own: a component is rendered again only when the comparison of the
    props of its last render with the new props answers [false].  The
    comparison reads [data] through [JSON.stringify], a function of the
    record that is taken as a parameter here, and the two handlers, which
    are the application's [useCallback] values and never change. *)

Module Screen.
Section Screen.
Context {num : Type} `{JsNumber num}.
Variable JSON_stringify : ModelData num -> string.

(** the props of [BuildingModel] that vary *)
Record Props := { data : ModelData num; overlapInfo : Scene.OverlapInfo }.

(** the second argument of [React.memo] *)
Definition arePropsEqual (prevProps nextProps : Props) : bool :=
  let dataChanged :=
    String.eqb (JSON_stringify (data prevProps)) (JSON_stringify (data nextProps)) in
  let handlersChanged := true in
  dataChanged && handlersChanged.

(** the props a component shows after the scene offered it [next] *)
Definition memo (shown next : Props) : Props :=
  if arePropsEqual shown next then shown else next.

(** the props [SceneContent] hands to the components of its models *)
Definition scene_props (models : list (ModelData num))
    (info : gmap string Scene.OverlapInfo) : list Props :=
  map (fun model => {| data := model;
                       overlapInfo := Scene.overlapInfo_for info model |}) models.

Record State := { page : Page.State num; shown : list Props }.

(** The first render shows every component, with the empty overlap map;
    the effect then sets the map and the scene renders again. *)
Definition mounted (init : App.State num) : State :=
  let first := scene_props (App.models init) ∅ in
  let pg := Page.mounted init in
  {| page := pg;
     shown := zip_with memo first
                (scene_props (App.models init) (Page.overlapInfo pg)) |}.

(** An action: the scene renders with the new models and the overlap map
    as it is, the effect sets the map, and the scene renders again. *)
Definition step (a : Page.Action num) (st : State) : State :=
  let app' := Page.handle a (Page.app (page st)) in
  let render1 :=
    zip_with memo (shown st)
      (scene_props (App.models app') (Page.overlapInfo (page st))) in
  let pg' := Page.step a (page st) in
  {| page := pg';
     shown := zip_with memo render1
                (scene_props (App.models app') (Page.overlapInfo pg')) |}.

Definition run (actions : list (Page.Action num)) (init : App.State num) : State :=
  fold_left (fun st a => step a st) actions (mounted init).
End Screen.
Arguments Props : clear implicits.
Arguments State : clear implicits.
End Screen.

(** ** A drag gesture on a model

    The gesture library calls [onDragStart] and then [onDrag] on the first
    event of a drag, and [onDrag] alone on each later event, the release
    included; [memo] starts undefined and is what [onDrag] last returned.
    Both handlers of an event are the closures of the component's last
    render: they read the same [data], the registry record of the model
    before the event's own calls take effect. *)

Module Gesture.
Section Gesture.
Context {num : Type} `{JsNumber num}.
Import BuildingModel.

(** what the library hands to the handlers: [movement] and [touches] *)
Record DragEvent := { movement : num * num; touches : nat }.

Definition onDragStart (v : Variant) (data : ModelData num) (touches_ : nat)
    : Handled num :=
  match v with
  | V1 => onDragStart_v1 data
  | V2 => onDragStart_v2 data touches_
  end.

(** One event of a drag on the component of the model at index [k]:
    the registry and the memo after it. *)
Definition drag_event (v : Variant) (k : nat) (first : bool) (e : DragEvent)
    (st : App.State num) (memo : option (Memo num))
    : App.State num * option (Memo num) :=
  match App.models st !! k with
  | None => (st, memo)
  | Some data =>
      let st1 :=
        if first then run_calls (onDragStart v data (touches e)) st else st in
      let '(memo', handled) := onDrag v data (movement e) (touches e) memo in
      (run_calls handled st1, Some memo')
  end.

Definition drag_events (v : Variant) (k : nat) (events : list DragEvent)
    (start : App.State num * option (Memo num))
    : App.State num * option (Memo num) :=
  fold_left (fun '(st, memo) e => drag_event v k false e st memo) events start.

(** a whole gesture, from its first event to the release *)
Definition drag (v : Variant) (k : nat) (events : list DragEvent)
    (st : App.State num) : App.State num :=
  match events with
  | [] => st
  | e :: events' => fst (drag_events v k events' (drag_event v k true e st None))
  end.
End Gesture.
Arguments DragEvent : clear implicits.
End Gesture.

(** ** The interface: what a user can do to the registry

    The scene renders one model component per record and the controls one
    panel per record, each with the record of its index as [data] or
    [model]; a hidden model has no mesh to click or drag. *)

Module Interface.
Section Interface.
Context {num : Type} `{JsNumber num}.

Inductive Event :=
  | ClickModel (k : nat)
  | ClickGround
  (** [onPointerMissed] of the ground, with the type of the DOM event *)
  | PointerMissed (type : string)
  | Drag (k : nat) (events : list (Gesture.DragEvent num))
  | RotateModel (k : nat) (axis : Controls.Axis)
  | RotateClockwise (k : nat)
  | ToggleVisibility (k : nat)
  | AdjustHeight (k : nat) (direction : Controls.Direction).

(** the component or panel of index [k], when there is one *)
Definition with_model (k : nat) (st : App.State num)
    (f : ModelData num -> App.State num) : App.State num :=
  match App.models st !! k with
  | Some model => f model
  | None => st
  end.

Definition handle (v : BuildingModel.Variant) (ev : Event) (st : App.State num)
    : App.State num :=
  match ev with
  | ClickModel k =>
      with_model k st (fun data =>
        if visible data
        then BuildingModel.run_calls (BuildingModel.onClick data) st
        else st)
  | ClickGround => Scene.Ground_onDeselect st
  | PointerMissed type =>
      if String.eqb type "click" then Scene.Ground_onDeselect st else st
  | Drag k events =>
      with_model k st (fun data =>
        if visible data then Gesture.drag v k events st else st)
  | RotateModel k axis =>
      with_model k st (fun model =>
        Controls.onUpdate (Controls.rotateModel model axis) st)
  | RotateClockwise k =>
      with_model k st (fun model =>
        Controls.onUpdate (Controls.rotateClockwise model) st)
  | ToggleVisibility k =>
      with_model k st (fun model =>
        Controls.onUpdate (Controls.toggleVisibility model) st)
  | AdjustHeight k direction =>
      with_model k st (fun model =>
        Controls.onUpdate (Controls.adjustHeight model direction) st)
  end.

Definition run (v : BuildingModel.Variant) (events : list Event)
    (st : App.State num) : App.State num :=
  fold_left (fun st ev => handle v ev st) events st.
End Interface.
Arguments Event : clear implicits.
End Interface.

(** ** components/Scene.tsx: [AutoFitCamera]

    The effect runs after the first render and whenever [models] changes.
    [isFirstRun] is the ref of the component; the camera and the controls
    belong to the rendering library, so the effect is given by the calls
    it makes on them. *)

Module Camera.
Section Camera.
Context {num : Type} `{JsNumber num}.

Inductive Call :=
  | CameraPositionSet (p : Triple num)
  | CameraLookAt (p : Triple num)
  | ControlsTargetSet (p : Triple num)
  | ControlsUpdate.

(** one run of the effect: the ref after it and the calls it made *)
Definition AutoFitCamera (models : list (ModelData num)) (controls : bool)
    (isFirstRun : bool) : bool * list Call :=
  if isFirstRun && (0 <? length models)%nat then
    (false,
     [CameraPositionSet (num_lit 0, num_lit 8, num_lit 10);
      CameraLookAt (num_lit 0, num_lit 0.5, num_lit 0)] ++
     (if controls
      then [ControlsTargetSet (num_lit 0, num_lit 0, num_lit 0); ControlsUpdate]
      else []))
  else (isFirstRun, []).

(** the runs of the effect for the successive values of [models], from
    the ref's initial value [true]: the calls of every run *)
Fixpoint effects (renders : list (list (ModelData num) * bool)) (isFirstRun : bool)
    : list (list Call) :=
  match renders with
  | [] => []
  | (models, controls) :: renders' =>
      let '(isFirstRun', calls) := AutoFitCamera models controls isFirstRun in
      calls :: effects renders' isFirstRun'
  end.
End Camera.
Arguments Call : clear implicits.
End Camera.

(** ** components/BuildingModel.tsx: the boundary around the content

    [BuildingModel] renders the content inside an error boundary inside a
    suspense boundary.  The asset of the model is pending (the loader
    suspends), failed (the loader throws) or loaded. *)

Module Boundary.
Section Boundary.
Context {num : Type} `{JsNumber num}.
Variable COLORS_selection : string.

(** the state of [ErrorBoundary] *)
Record State := { hasError : bool }.

(** the constructor *)
Definition initial : State := {| hasError := false |}.

Definition getDerivedStateFromError : State := {| hasError := true |}.

(** [render()] *)
Definition render {A} (st : State) (fallback children : A) : A :=
  if hasError st then fallback else children.

Inductive Asset :=
  | Pending
  | Failed
  | Loaded (scene : Three.Object3D num).

(** what is displayed for the model *)
Inductive Display :=
  | LoadingPlaceholder (position : Triple num)
  | ErrorPlaceholder (position : Triple num)
  | Nothing
  | Model (r : BuildingModel.Rendered num).

(** One render of [BuildingModel]: the state of its error boundary after
    it and what is displayed.  A throw below the boundary sets the state
    with [getDerivedStateFromError] and the boundary renders again. *)
Definition BuildingModel (v : BuildingModel.Variant) (boundary : State)
    (data : ModelData num) (overlapInfo : Scene.OverlapInfo) (asset : Asset)
    (ls : BuildingModel.LocalState num) : State * Display :=
  render boundary
    (boundary, ErrorPlaceholder (position data))
    match asset with
    | Pending => (boundary, LoadingPlaceholder (position data))
    | Failed => (getDerivedStateFromError, ErrorPlaceholder (position data))
    | Loaded scene =>
        match BuildingModel.BuildingModelContent COLORS_selection v data
                overlapInfo scene ls with
        | BuildingModel.Thrown =>
            (getDerivedStateFromError, ErrorPlaceholder (position data))
        | BuildingModel.Null => (boundary, Nothing)
        | BuildingModel.Group r => (boundary, Model r)
        end
    end.
End Boundary.
Arguments Asset : clear implicits.
Arguments Display : clear implicits.
End Boundary.

(** ** App.tsx: [handleFileUpload]

    [file_url] is the object URL of the chosen file, [None] when no file
    was chosen.  The handler rewrites the [models] state alone.  The
    assignment [newModels[modelIndex] = ...] to an index past the end
    extends the array, with holes up to the index; and the spread of the
    [undefined] it reads there has no key, so that the element assigned
    has a [url] and nothing else.  An element of the new array is
    therefore a record, such an object, or a hole. *)

Module Upload.
Section Upload.
Context {num : Type}.

Inductive Entry :=
  | Hole
  | Model (m : ModelData num)
  | UrlOnly (url : string).

Definition set_url (url_ : string) (m : ModelData num) : ModelData num :=
  {| id := id m; name := name m; url := url_;
     position := position m; rotation := rotation m; scale := scale m;
     visible := visible m; selected := selected m; opacity := opacity m |}.

(** [{ ...newModels[modelIndex], url: url }] *)
Definition spread_url (element : option Entry) (url_ : string) : Entry :=
  match element with
  | Some (Model m) => Model (set_url url_ m)
  | Some (UrlOnly _) | Some Hole | None => UrlOnly url_
  end.

(** [array[index] = element] *)
Definition assign (index : nat) (element : Entry) (array : list Entry)
    : list Entry :=
  if (index <? length array)%nat then <[index := element]> array
  else array ++ replicate (index - length array) Hole ++ [element].

(** the new value of [models]; with no file [setModels] is not called *)
Definition handleFileUpload (file_url : option string) (modelIndex : nat)
    (models : list (ModelData num)) : list Entry :=
  match file_url with
  | None => map Model models
  | Some url_ =>
      let newModels := map Model models in
      assign modelIndex (spread_url (newModels !! modelIndex) url_) newModels
  end.
End Upload.
Arguments Entry : clear implicits.
End Upload.

(** ** App.tsx: [getStatusMessage] *)

Module Status.
Section Status.
Context {num : Type}.

(** [if (selectedId)]: [null] and the empty string are falsy *)
Definition truthy (selectedId : option string) : bool :=
  match selectedId with
  | Some s => negb (String.eqb s "")
  | None => false
  end.

(** the interpolation [${selectedModel?.name}] *)
Definition interpolate_name (selectedModel : option (ModelData num)) : string :=
  match selectedModel with
  | Some m => name m
  | None => "undefined"
  end.

Definition getStatusMessage (st : App.State num) : string :=
  if truthy (App.selectedId st) then
    let selectedModel :=
      List.find (fun m => id_is m (App.selectedId st)) (App.models st) in
    String.append "已选中："
      (String.append (interpolate_name selectedModel) " - 单指旋转，双指移动")
  else "全局视角：单指旋转场景，双指平移视角".
End Status.
End Status.

(** * Vocabulary of the properties

    The notions the specification's sentences use, and the inputs on which
    the code is run below. *)

Local Open Scope Q_scope.

(** A model with the given identifier, position and scale, and the other
    fields as in the initial registry. *)
Definition model_at {num} `{JsNumber num} (i : string)
    (px py pz sx sy sz : Q) : ModelData num :=
  {| id := i; name := i; url := "";
     position := (num_lit px, num_lit py, num_lit pz);
     rotation := (num_lit 0, num_lit 0, num_lit 0);
     scale := (num_lit sx, num_lit sy, num_lit sz);
     visible := true; selected := false; opacity := num_lit 1.0 |}.

(** The interval [[pos - scale/2, pos + scale/2]] of the specification,
    as a set of rationals, and what it means for two of them to meet. *)
Definition in_interval (pos scale_ t : Q) : Prop :=
  pos - scale_ / 2 <= t /\ t <= pos + scale_ / 2.

Definition intervals_intersect (pos1 scale1 pos2 scale2 : Q) : Prop :=
  exists t, in_interval pos1 scale1 t /\ in_interval pos2 scale2 t.

Definition intersect_on_all_axes (A B : ModelData Q) : Prop :=
  let '(ax, ay, az) := position A in
  let '(asx, asy, asz) := scale A in
  let '(bx, by_, bz) := position B in
  let '(bsx, bsy, bsz) := scale B in
  intervals_intersect ax asx bx bsx /\
  intervals_intersect ay asy by_ bsy /\
  intervals_intersect az asz bz bsz.

Definition nonnegative_scale (A : ModelData Q) : Prop :=
  let '(sx, sy, sz) := scale A in 0 <= sx /\ 0 <= sy /\ 0 <= sz.

(** A model mirrored along X (scale -2) and a wide one, both at the origin. *)
Definition mirrored {num} `{JsNumber num} : ModelData num :=
  model_at "mirrored" 0 0 0 (-2) 1 1.

Definition wide {num} `{JsNumber num} : ModelData num :=
  model_at "wide" 0 0 0 10 1 1.

(** How many records of a registry have the selection flag set. *)
Definition selected_count {num} (ms : list (ModelData num)) : nat :=
  length (List.filter selected ms).

(** A record with its visibility flag replaced and nothing else. *)
Definition with_visible {num} (b : bool) (m : ModelData num) : ModelData num :=
  {| id := id m; name := name m; url := url m;
     position := position m; rotation := rotation m; scale := scale m;
     visible := b; selected := selected m; opacity := opacity m |}.

(** A record with its position replaced and nothing else. *)
Definition with_position {num} (p : Triple num) (m : ModelData num) : ModelData num :=
  {| id := id m; name := name m; url := url m;
     position := p; rotation := rotation m; scale := scale m;
     visible := visible m; selected := selected m; opacity := opacity m |}.

(** A record with its rotation replaced and nothing else. *)
Definition with_rotation {num} (r : Triple num) (m : ModelData num) : ModelData num :=
  {| id := id m; name := name m; url := url m;
     position := position m; rotation := r; scale := scale m;
     visible := visible m; selected := selected m; opacity := opacity m |}.

(** The initial registry in exact arithmetic, with two asset references. *)
Definition registry0 : App.State Q := App.initial "one.glb" "two.glb".

(** A value [c] is [v] brought into the ground bounds [[-3, 3]]. *)
Definition clamped_to_ground (v c : Q) : Prop :=
  (-3 <= c /\ c <= 3) /\
  (v <= -3 -> c == -3) /\
  (-3 <= v /\ v <= 3 -> c == v) /\
  (3 <= v -> c == 3).

(** A selected model at [(0, 1, 0)], as the component of a drag sees it. *)
Definition dragged {num} `{JsNumber num} : ModelData num :=
  App.select (Some "dragged") (model_at "dragged" 0 1 0 1 1 1).

(** The X coordinate a handler asked the registry to store, when it made
    exactly one [onUpdate] call with a position. *)
Definition updated_x {num} (h : BuildingModel.Handled num) : option num :=
  match BuildingModel.calls h with
  | [BuildingModel.OnUpdate _ updates] =>
      match position_opt updates with
      | Some (px, _, _) => Some px
      | None => None
      end
  | _ => None
  end.

(** The first record of [registry0]. *)
Definition initial_model_1 : ModelData Q :=
  {| id := "model-1"; name := "模型一"; url := "one.glb";
     position := (- 3.333, 1, 0); rotation := (0, 0, 0); scale := (10, 10, 10);
     visible := true; selected := false; opacity := 1.0 |}.

(** The three Euler angles of a rotation. *)
Definition x_of {num} (t : Triple num) : num := fst (fst t).
Definition y_of {num} (t : Triple num) : num := snd (fst t).
Definition z_of {num} (t : Triple num) : num := snd t.

(** An animation: the frame callback once per frame, with the frame
    times [deltas] in order. *)
Definition frames {num} `{JsNumber num} (deltas : list num)
    (ls : BuildingModel.LocalState num) : BuildingModel.LocalState num :=
  fold_left (fun ls delta => BuildingModel.useFrame delta ls) deltas ls.

(** The record the registry holds for [m] after the panel of [m] issued
    the rotate-90-degrees-on-X command. *)
Definition after_rotate_x {num} `{JsNumber num} (m : ModelData num) : ModelData num :=
  spread m (snd (Controls.rotateModel m Controls.AxisX)).

(** What remains between the live and the target value of an angle. *)
Definition residual (pick : Triple Q -> Q) (ls : BuildingModel.LocalState Q) : Q :=
  pick (BuildingModel.currentRotation ls) - pick (BuildingModel.targetRotation ls).

(** A model at rest with rotation (0, 0, 0), and the state of its
    component once one rotate-on-X command has reached it: the live
    rotation is still (0, 0, 0), the target is (PI/2, 0, 0). *)
Definition at_rest {num} `{JsNumber num} : ModelData num :=
  model_at "model" 0 1 0 1 1 1.

Definition easing_start {num} `{JsNumber num} : BuildingModel.LocalState num :=
  BuildingModel.syncTargetRotation (after_rotate_x at_rest) (BuildingModel.mount at_rest).

(** A registry with the single record [initial_model_1]. *)
Definition single_registry : App.State Q :=
  {| App.models := [initial_model_1]; App.selectedId := None |}.

(** All the materials of the meshes of an object, in traversal order. *)
Definition mesh_materials {num} (mat : Three.MeshMaterial num)
    : list (Three.Material num) :=
  match mat with
  | Three.NoMaterial => []
  | Three.OneMaterial m => [m]
  | Three.MaterialArray ms => ms
  end.

Fixpoint materials {num} (o : Three.Object3D num) : list (Three.Material num) :=
  match o with
  | Three.Mesh _ _ mat children => mesh_materials mat ++ flat_map materials children
  | Three.Node children => flat_map materials children
  end.

(** The geometry of an object: its tree of meshes and other nodes,
    without shadow flags and materials. *)
Inductive Shape :=
  | ShapeMesh (has_material : bool) (children : list Shape)
  | ShapeNode (children : list Shape).

Fixpoint shape {num} (o : Three.Object3D num) : Shape :=
  match o with
  | Three.Mesh _ _ mat children =>
      ShapeMesh (match mat with Three.NoMaterial => false | _ => true end)
                (map shape children)
  | Three.Node children => ShapeNode (map shape children)
  end.

(** No mesh of the object has an empty array of materials. *)
Fixpoint well_formed {num} (o : Three.Object3D num) : bool :=
  match o with
  | Three.Mesh _ _ mat children =>
      match mat with
      | Three.MaterialArray [] => false
      | _ => true
      end && forallb well_formed children
  | Three.Node children => forallb well_formed children
  end.

(** The material of the overlap visualisation, and of a solid primary. *)
Definition ghost_like {num} `{JsNumber num} (m : Three.Material num) : Prop :=
  Three.opacity m = num_lit 0.4 /\ Three.transparent m = true /\
  Three.depthWrite m = false /\ Three.side m = Three.BackSide /\
  Three.blending m = Three.AdditiveBlending.

Definition opaque_depth_writing {num} `{JsNumber num} (m : Three.Material num) : Prop :=
  Three.opacity m = num_lit 1.0 /\ Three.transparent m = false /\
  Three.depthWrite m = true.

Definition translucent_depth_writing {num} `{JsNumber num} (m : Three.Material num) : Prop :=
  Three.opacity m = num_lit 0.6 /\ Three.transparent m = true /\
  Three.depthWrite m = true.

(** Whether a model is the one variant 2 draws translucent. *)
Definition drawn_translucent {num} (v : BuildingModel.Variant) (data : ModelData num) : bool :=
  match v with
  | BuildingModel.V1 => false
  | BuildingModel.V2 => String.eqb (name data) "现实"
  end.

(** A scene of one mesh with one material, an overlap report, and a model
    named as the translucent role of variant 2. *)
Definition one_mesh {num} `{JsNumber num} : Three.Object3D num :=
  Three.Mesh false false
    (Three.OneMaterial
       {| Three.transparent := false; Three.opacity := num_lit 1;
          Three.depthWrite := true; Three.depthTest := true;
          Three.side := Three.FrontSide; Three.blending := Three.NormalBlending;
          Three.color := 0x808080%Z; Three.version := 0 |})
    [].

Definition overlapping : Scene.OverlapInfo :=
  {| Scene.isOverlapping := true; Scene.overlappingWith := ["other"] |}.

Definition reality {num} `{JsNumber num} : ModelData num :=
  {| id := "model-2"; name := "现实"; url := "";
     position := (num_lit 0, num_lit 0, num_lit 0);
     rotation := (num_lit 0, num_lit 0, num_lit 0);
     scale := (num_lit 1, num_lit 1, num_lit 1);
     visible := true; selected := false; opacity := num_lit 1.0 |}.

(** The report of a model whose overlapping partners are [l]. *)
Definition report_of (l : list string) : Scene.OverlapInfo :=
  {| Scene.isOverlapping := match l with [] => false | _ => true end;
     Scene.overlappingWith := l |}.

(** The partners of the model [m] at index [k]: the identifiers of the
    other records whose box meets the box of [m], in registry order. *)
Definition partners {num} `{JsNumber num} (ms : list (ModelData num)) (k : nat)
    (m : ModelData num) : list string :=
  map id (List.filter (Scene.overlaps m) (take k ms ++ drop (S k) ms)).

(** Appending identifiers to a report; no identifiers, no change. *)
Definition push (l : list string) (o : Scene.OverlapInfo) : Scene.OverlapInfo :=
  match l with
  | [] => o
  | _ => {| Scene.isOverlapping := true;
            Scene.overlappingWith := Scene.overlappingWith o ++ l |}
  end.

(** The identifiers the loops push to the entry of key [s], in order:
    by the inner loop for [model1], and by the whole pair loop. *)
Fixpoint pushed_against {num} `{JsNumber num} (model1 : ModelData num)
    (rest : list (ModelData num)) (s : string) : list string :=
  match rest with
  | [] => []
  | model2 :: rest' =>
      (if Scene.overlaps model1 model2
       then (if String.eqb (id model1) s then [id model2] else []) ++
            (if String.eqb (id model2) s then [id model1] else [])
       else []) ++
      pushed_against model1 rest' s
  end.

Fixpoint pushed {num} `{JsNumber num} (models : list (ModelData num))
    (s : string) : list string :=
  match models with
  | [] => []
  | model1 :: rest => pushed_against model1 rest s ++ pushed rest s
  end.

(** The actions the interface can issue: any selection, and the updates
    built by the gesture handlers and the control panel, none of which
    carries an identifier or a selection flag. *)
Definition ui_action {num} (a : Page.Action num) : Prop :=
  match a with
  | Page.Select _ => True
  | Page.Update _ updates => id_opt updates = None /\ selected_opt updates = None
  end.

(** The selection flags of a registry agree with its selected identifier. *)
Definition flags_follow {num} (st : App.State num) : Prop :=
  forall m, m ∈ App.models st -> selected m = id_is m (App.selectedId st).


(** ** Vocabulary of the gestures and of the interface *)

(** The position a drag event with [touches] contacts stores for a
    selected model, from the anchor of the drag and the accumulated
    movement; [None] when the event stores nothing. *)
Definition drag_position {num} `{JsNumber num} (v : BuildingModel.Variant)
    (touches : nat) (anchor : Triple num) (movement : num * num)
    : option (Triple num) :=
  let '(x0, y0, z0) := anchor in
  let '(dx, dy) := movement in
  match v, touches with
  | BuildingModel.V1, 1%nat =>
      Some (x0 + dx * num_lit 0.05, y0, z0 + dy * num_lit 0.05)%js
  | BuildingModel.V1, 2%nat =>
      Some (x0 + dx * num_lit 0.05, y0 + dy * num_lit 0.05, z0)%js
  | BuildingModel.V2, 1%nat =>
      Some (BuildingModel.clamp (x0 + dx * num_lit 0.05), y0,
            BuildingModel.clamp (z0 + dy * num_lit 0.05))%js
  | _, _ => None
  end.

(** The position the last storing event of a gesture stores. *)
Definition last_position {num} `{JsNumber num} (v : BuildingModel.Variant)
    (anchor : Triple num) (events : list (Gesture.DragEvent num))
    : option (Triple num) :=
  fold_left
    (fun acc e =>
       match drag_position v (Gesture.touches e) anchor (Gesture.movement e) with
       | Some p => Some p
       | None => acc
       end)
    events None.

(** The registry with the position [p], when there is one, stored for
    the identifier [i]. *)
Definition moved_to {num} (i : string) (p : option (Triple num))
    (st : App.State num) : App.State num :=
  match p with
  | Some p => App.handleUpdateModel i (BuildingModel.position_patch p) st
  | None => st
  end.

(** Whether a drag start with [touches] contacts selects. *)
Definition selects (v : BuildingModel.Variant) (touches : nat) : bool :=
  match v with
  | BuildingModel.V1 => true
  | BuildingModel.V2 => (touches =? 1)%nat
  end.

(** The patches an event can hand to [onUpdate] for the record [model]. *)
Definition issued {num} `{JsNumber num} (v : BuildingModel.Variant)
    (ev : Interface.Event num) (model : ModelData num)
    (u : Partial_ModelData num) : Prop :=
  match ev with
  | Interface.ClickModel _ | Interface.ClickGround | Interface.PointerMissed _ =>
      False
  | Interface.Drag _ _ =>
      exists touches movement p,
        drag_position v touches (position model) movement = Some p /\
        u = BuildingModel.position_patch p
  | Interface.RotateModel _ axis => u = snd (Controls.rotateModel model axis)
  | Interface.RotateClockwise _ => u = snd (Controls.rotateClockwise model)
  | Interface.ToggleVisibility _ => u = snd (Controls.toggleVisibility model)
  | Interface.AdjustHeight _ direction =>
      u = snd (Controls.adjustHeight model direction)
  end.

(** What no event changes in a record, and what the overlap test reads. *)
Definition frame {num} (m : ModelData num) : string * string * string * Triple num * num :=
  (id m, name m, url m, scale m, opacity m).

Definition geometry {num} (m : ModelData num) : string * Triple num * Triple num :=
  (id m, position m, scale m).

(** The events that neither move a model nor change its height. *)
Definition stays_in_place {num} (ev : Interface.Event num) : bool :=
  match ev with
  | Interface.Drag _ _ | Interface.AdjustHeight _ _ => false
  | _ => true
  end.

Definition is_height_command {num} (ev : Interface.Event num) : bool :=
  match ev with
  | Interface.AdjustHeight _ _ => true
  | _ => false
  end.

(** Every record lies within [b] of the centre along X and Z. *)
Definition within (b : Q) (st : App.State Q) : Prop :=
  forall m, m ∈ App.models st ->
    (- b <= x_of (position m) /\ x_of (position m) <= b) /\
    (- b <= z_of (position m) /\ z_of (position m) <= b).

(** Every record has height within [h] of 1, the initial height. *)
Definition height_within (h : Q) (st : App.State Q) : Prop :=
  forall m, m ∈ App.models st ->
    1 - h <= y_of (position m) /\ y_of (position m) <= 1 + h.

(** The three rotation buttons of a panel, the event a press of one of
    them on the panel of index [k] is, and the rotation it asks for. *)
Inductive Button := ButtonX | ButtonZ | ButtonClockwise.

Definition press {num} (k : nat) (b : Button) : Interface.Event num :=
  match b with
  | ButtonX => Interface.RotateModel k Controls.AxisX
  | ButtonZ => Interface.RotateModel k Controls.AxisZ
  | ButtonClockwise => Interface.RotateClockwise k
  end.

Definition turn {num} `{JsNumber num} (b : Button) (r : Triple num) : Triple num :=
  let '(r0, r1, r2) := r in
  match b with
  | ButtonX => (r0 + Math_PI / num_lit 2, r1, r2)%js
  | ButtonZ => (r0, r1, r2 + Math_PI / num_lit 2)%js
  | ButtonClockwise => (r0, r1 + Math_PI / num_lit 4, r2)%js
  end.

Definition same_button (b b' : Button) : bool :=
  match b, b' with
  | ButtonX, ButtonX | ButtonZ, ButtonZ | ButtonClockwise, ButtonClockwise => true
  | _, _ => false
  end.

(** How many presses of the button [b] a list of presses has. *)
Definition presses (b : Button) (l : list Button) : Q :=
  inject_Z (Z.of_nat (length (List.filter (same_button b) l))).

(** The height a height command asks for. *)
Definition lift {num} `{JsNumber num} (d : Controls.Direction) (p : Triple num)
    : Triple num :=
  let '(p0, p1, p2) := p in
  match d with
  | Controls.Up => (p0, p1 + num_lit 0.05, p2)%js
  | Controls.Down => (p0, p1 - num_lit 0.05, p2)%js
  end.

Definition is_up (d : Controls.Direction) : bool :=
  match d with Controls.Up => true | Controls.Down => false end.

(** How many commands of a list go up, and how many go down. *)
Definition ups (l : list Controls.Direction) : Q :=
  inject_Z (Z.of_nat (length (List.filter is_up l))).

Definition downs (l : list Controls.Direction) : Q :=
  inject_Z (Z.of_nat (length (List.filter (fun d => negb (is_up d)) l))).

(** The registry with the records of identifier [i] rewritten by [f]. *)
Definition rewritten {num} (i : string) (f : ModelData num -> ModelData num)
    (st : App.State num) : App.State num :=
  {| App.selectedId := App.selectedId st;
     App.models := map (fun m => if String.eqb (id m) i then f m else m)
                       (App.models st) |}.

(** The renders of one model component, each with the props and the
    asset it sees, threading the state of the error boundary. *)
Definition renders {num} `{JsNumber num} (COLORS_selection : string)
    (v : BuildingModel.Variant)
    (inputs : list (ModelData num * Scene.OverlapInfo * Boundary.Asset num
                    * BuildingModel.LocalState num))
    (boundary : Boundary.State) : Boundary.State * list (Boundary.Display num) :=
  fold_left
    (fun '(boundary, shown) '(data, overlapInfo, asset, ls) =>
       let '(boundary', display) :=
         Boundary.BuildingModel COLORS_selection v boundary data overlapInfo asset ls in
       (boundary', shown ++ [display]))
    inputs (boundary, []).

(** A registry whose only record is [dragged], selected. *)
Definition dragging {num} `{JsNumber num} : App.State num :=
  {| App.models := [dragged]; App.selectedId := Some "dragged" |}.

(** A drag event with one contact and the accumulated movement [(dx, dy)]. *)
Definition one_contact {num} (dx dy : num) : Gesture.DragEvent num :=
  {| Gesture.movement := (dx, dy); Gesture.touches := 1 |}.

(** The model of a render input, and the placeholder shown for it. *)
Definition input_position {num}
    (input : ModelData num * Scene.OverlapInfo * Boundary.Asset num
             * BuildingModel.LocalState num) : Triple num :=
  position (fst (fst (fst input))).

(** A scene with a mesh whose material array is empty, below a group. *)
Definition empty_material_scene {num} : Three.Object3D num :=
  Three.Node [Three.Mesh true true (Three.MaterialArray []) []].

(** Whether every run of the camera effect before the one of index [i]
    saw an empty list of models. *)
Definition no_models_before {num} (i : nat)
    (runs : list (list (ModelData num) * bool)) : bool :=
  forallb (fun r => (length (fst r) =? 0)%nat) (take i runs).

(** Everything in a record but its asset reference. *)
Definition but_url {num} (m : ModelData num)
    : string * string * Triple num * Triple num * Triple num * bool * bool * num :=
  (id m, name m, position m, rotation m, scale m, visible m, selected m, opacity m).

(** The two events that reach the ground's [onDeselect]. *)
Definition deselects {num} (ev : Interface.Event num) : Prop :=
  ev = Interface.ClickGround \/ ev = Interface.PointerMissed "click".

(** The selected identifier, when there is one, is the identifier of a
    record of the registry. *)
Definition selection_exists {num} (st : App.State num) : Prop :=
  forall s, App.selectedId st = Some s -> exists m, m ∈ App.models st /\ id m = s.

(** The status line for a selected model of the given name, and the one
    shown when nothing is selected. *)
Definition status_of (name_ : string) : string :=
  String.append "已选中：" (String.append name_ " - 单指旋转，双指移动").

Definition global_status : string := "全局视角：单指旋转场景，双指平移视角".

(** The rational number a finite binary64 value is, and a record of
    binary64 numbers read as the record of those rationals. *)
Definition exact (f : float) : Q :=
  match Prim2SF f with
  | S754_finite s m e => (if s then -1 else 1) * inject_Z (Zpos m) * 2 ^ e
  | _ => 0
  end.

Definition exact_triple (t : Triple float) : Triple Q :=
  let '(a, b, c) := t in (exact a, exact b, exact c).

Definition exact_record (m : ModelData float) : ModelData Q :=
  {| id := id m; name := name m; url := url m;
     position := exact_triple (position m);
     rotation := exact_triple (rotation m);
     scale := exact_triple (scale m);
     visible := visible m; selected := selected m;
     opacity := exact (opacity m) |}.

(** The initial registry in binary64 arithmetic after 170 presses of the
    up button of the first model and 30 presses of the down button of the
    second. *)
Definition raised_and_lowered : App.State float :=
  Interface.run BuildingModel.V1
    (map (Interface.AdjustHeight 0) (repeat Controls.Up 170)
     ++ map (Interface.AdjustHeight 1) (repeat Controls.Down 30))
    (App.initial "one.glb" "two.glb").

(** The two intervals have no point in common because the second ends
    before the first begins. *)
Definition ends_before (pos1 scale1 pos2 scale2 : Q) : Prop :=
  pos2 + scale2 / 2 < pos1 - scale1 / 2.
(** * Properties *)

(** ** Exact arithmetic: the interface at [Q] *)

Lemma Q_leb_le (a b : Q) : @num_leb Q _ a b = true <-> a <= b.
Proof. apply Qle_bool_iff. Qed.

Lemma Q_leb_gt (a b : Q) : @num_leb Q _ a b = false <-> b < a.
Proof.
  rewrite <- not_true_iff_false, Q_leb_le. split; intros Hab; lra.
Qed.

Lemma Q_eqb_eq (a b : Q) : @num_eqb Q _ a b = true <-> a == b.
Proof. apply Qeq_bool_iff. Qed.

Lemma Q_eqb_neq (a b : Q) : @num_eqb Q _ a b = false <-> ~ a == b.
Proof. rewrite <- not_true_iff_false, Q_eqb_eq. tauto. Qed.

Ltac Q_ops :=
  cbn [num_lit num_add num_sub num_mul num_div num_neg num_leb num_eqb
       Math_max Math_min Q_JsNumber] in *.

(** [lra] does not read [Qdiv]: a division by a literal is turned into
    the product with its inverse. *)
Ltac Q_div :=
  unfold Qdiv in *;
  change (/ 2) with (1 # 2) in *;
  change (/ 4) with (1 # 4) in *.

(** ** The overlap test *)

Section Overlap.
Import Three Scene.

(** The test is symmetric in every arithmetic: each comparison of
    [overlaps A B] is a comparison of [overlaps B A]. *)
Lemma overlaps_comm {num} `{JsNumber num} (A B : ModelData num) :
  overlaps A B = overlaps B A.
Proof.
  unfold overlaps, intersectsBox.
  destruct (x (min (box_of A)) <=? x (max (box_of B)))%js,
           (x (min (box_of B)) <=? x (max (box_of A)))%js,
           (y (min (box_of A)) <=? y (max (box_of B)))%js,
           (y (min (box_of B)) <=? y (max (box_of A)))%js,
           (z (min (box_of A)) <=? z (max (box_of B)))%js,
           (z (min (box_of B)) <=? z (max (box_of A)))%js; reflexivity.
Qed.

(** On one axis, for boxes of non-negative extent, the two comparisons
    of [intersectsBox] hold exactly when the intervals meet. *)
Lemma axis_test_iff (p1 s1 p2 s2 : Q) :
  0 <= s1 -> 0 <= s2 ->
  (p1 - 1 * s1 * 0.5 <= p2 + 1 * s2 * 0.5 /\
   p2 - 1 * s2 * 0.5 <= p1 + 1 * s1 * 0.5) <->
  intervals_intersect p1 s1 p2 s2.
Proof.
  intros H1 H2. unfold intervals_intersect, in_interval. Q_div. split.
  - intros [Ha Hb].
    destruct (Qlt_le_dec (p1 - s1 * (1 # 2)) (p2 - s2 * (1 # 2))) as [Hlt | Hle].
    + exists (p2 - s2 * (1 # 2)). split; (split; lra).
    + exists (p1 - s1 * (1 # 2)). split; (split; lra).
  - intros (t & [Ha Hb] & [Hc Hd]). split; lra.
Qed.

Lemma overlaps_Q_unfold (A B : ModelData Q) :
  overlaps A B = true <->
  let '(ax, ay, az) := position A in
  let '(asx, asy, asz) := scale A in
  let '(bx, by_, bz) := position B in
  let '(bsx, bsy, bsz) := scale B in
  (ax - 1 * asx * 0.5 <= bx + 1 * bsx * 0.5 /\
   bx - 1 * bsx * 0.5 <= ax + 1 * asx * 0.5) /\
  (ay - 1 * asy * 0.5 <= by_ + 1 * bsy * 0.5 /\
   by_ - 1 * bsy * 0.5 <= ay + 1 * asy * 0.5) /\
  (az - 1 * asz * 0.5 <= bz + 1 * bsz * 0.5 /\
   bz - 1 * bsz * 0.5 <= az + 1 * asz * 0.5).
Proof.
  unfold overlaps, intersectsBox, box_of, setFromCenterAndSize.
  destruct (position A) as [[ax ay] az], (scale A) as [[asx asy] asz],
           (position B) as [[bx by_] bz], (scale B) as [[bsx bsy] bsz].
  cbn [Vector3_of multiply multiplyScalar add sub min max x y z].
  rewrite !andb_true_iff, !Q_leb_le. Q_ops. tauto.
Qed.

(** C1 (as amended).  The overlap test is symmetric, in exact and in
    binary64 arithmetic alike; and in exact arithmetic, for two records
    whose scale factors are all non-negative, it holds exactly when, on
    each of the three axes, the intervals
    [[position - scale/2, position + scale/2]] of the two records have a
    point in common. *)
Theorem overlaps_symmetric_and_interval_test :
  (forall (num : Type) (H : JsNumber num) (A B : ModelData num),
      overlaps A B = overlaps B A) /\
  (forall A B : ModelData Q,
      nonnegative_scale A -> nonnegative_scale B ->
      (overlaps A B = true <-> intersect_on_all_axes A B)).
Proof.
  split.
  - intros num H A B. apply overlaps_comm.
  - intros A B HA HB. rewrite overlaps_Q_unfold.
    unfold intersect_on_all_axes, nonnegative_scale in *.
    destruct (position A) as [[ax ay] az], (scale A) as [[asx asy] asz],
             (position B) as [[bx by_] bz], (scale B) as [[bsx bsy] bsz].
    destruct HA as (? & ? & ?), HB as (? & ? & ?).
    rewrite !axis_test_iff by assumption. reflexivity.
Qed.

(** The two initial models (x = -3.333 and 3.333, scale 10) overlap, and
    so their intervals meet on every axis. *)
Lemma overlaps_symmetric_and_interval_test_witness :
  nonnegative_scale (model_at "model-1" (-3.333) 1 0 10 10 10) /\
  nonnegative_scale (model_at "model-2" 3.333 1 0 10 10 10) /\
  intersect_on_all_axes (model_at "model-1" (-3.333) 1 0 10 10 10)
                        (model_at "model-2" 3.333 1 0 10 10 10).
Proof.
  assert (H1 : nonnegative_scale (model_at "model-1" (-3.333) 1 0 10 10 10))
    by (cbn; split; [|split]; discriminate).
  assert (H2 : nonnegative_scale (model_at "model-2" 3.333 1 0 10 10 10))
    by (cbn; split; [|split]; discriminate).
  split; [exact H1|]. split; [exact H2|].
  apply (proj2 overlaps_symmetric_and_interval_test _ _ H1 H2).
  vm_compute. reflexivity.
Defined.

(** C1 as stated fails in two ways.  For a mirrored model: with scale -2
    on X the interval of [mirrored] is [[1, -1]], which has no point at
    all, yet [intersectsBox] compares the corners as they are and answers
    [true], in exact and in binary64 arithmetic.  And in binary64
    arithmetic for models of positive scale: after 170 ups of the first
    initial model and 30 downs of the second, the Y interval of the second
    ends before the Y interval of the first begins (as intervals of the
    rationals the stored numbers are), yet the corner of the second box
    is rounded up to the corner of the first and the test answers
    [true]. *)
Lemma overlaps_without_common_point :
  (@overlaps Q _ mirrored wide = true /\
   ~ intersect_on_all_axes mirrored wide /\
   @overlaps float _ mirrored wide = true) /\
  (exists A B : ModelData float,
     App.models raised_and_lowered !! 0%nat = Some A /\
     App.models raised_and_lowered !! 1%nat = Some B /\
     nonnegative_scale (exact_record A) /\ nonnegative_scale (exact_record B) /\
     ends_before (y_of (position (exact_record A))) (y_of (scale (exact_record A)))
                 (y_of (position (exact_record B))) (y_of (scale (exact_record B))) /\
     ~ intersect_on_all_axes (exact_record A) (exact_record B) /\
     overlaps A B = true).
Proof.
  split.
  - split; [vm_compute; reflexivity|]. split; [|vm_compute; reflexivity].
    unfold intersect_on_all_axes, intervals_intersect, in_interval. cbn.
    intros [(t & [Ha Hb] & _) _]. Q_div. lra.
  - destruct (App.models raised_and_lowered) as [|A [|B rest]] eqn:Hmodels;
      [vm_compute in Hmodels; discriminate Hmodels
      |vm_compute in Hmodels; discriminate Hmodels|].
    exists A, B. split; [reflexivity|]. split; [reflexivity|].
    vm_compute in Hmodels. injection Hmodels as HA HB _.
    assert (Hgap : ends_before
              (y_of (position (exact_record A))) (y_of (scale (exact_record A)))
              (y_of (position (exact_record B))) (y_of (scale (exact_record B))))
      by (rewrite <- HA, <- HB; vm_compute; reflexivity).
    split; [rewrite <- HA; vm_compute; repeat split; discriminate|].
    split; [rewrite <- HB; vm_compute; repeat split; discriminate|].
    split; [exact Hgap|].
    split; [|rewrite <- HA, <- HB; vm_compute; reflexivity].
    revert Hgap.
    unfold intersect_on_all_axes, intervals_intersect, in_interval, ends_before, y_of.
    destruct (position (exact_record A)) as [[ax ay] az],
             (scale (exact_record A)) as [[asx asy] asz],
             (position (exact_record B)) as [[bx by_] bz],
             (scale (exact_record B)) as [[bsx bsy] bsz].
    cbn [fst snd]. intros Hgap (_ & (t & [Ha Hb] & [Hc Hd]) & _). Q_div. lra.
Qed.
End Overlap.

(** ** The overlap map of two or more models *)

Section Detector.
Import Scene.
Context {num : Type} `{JsNumber num}.
Implicit Types (m : ModelData num) (ms : list (ModelData num))
  (info : gmap string OverlapInfo) (s : string).

Lemma push_push (l1 l2 : list string) (o : OverlapInfo) :
  push l2 (push l1 o) = push (l1 ++ l2) o.
Proof.
  destruct l1 as [|a l1]; [reflexivity|].
  destruct l2 as [|b l2]; [cbn; rewrite app_nil_r; reflexivity|].
  cbn. rewrite <- app_assoc. reflexivity.
Qed.

Lemma push_lookup (l1 l2 : list string) (entry : option OverlapInfo) :
  push l2 <$> (push l1 <$> entry) = push (l1 ++ l2) <$> entry.
Proof. destruct entry as [o|]; [cbn; rewrite push_push|]; reflexivity. Qed.

Lemma push_nil_lookup (entry : option OverlapInfo) : push [] <$> entry = entry.
Proof. destruct entry; reflexivity. Qed.

(** One [report] seen from the key [s]. *)
Lemma report_lookup (a b : string) info s :
  report a b info !! s = push (if String.eqb a s then [b] else []) <$> info !! s.
Proof.
  unfold report. rewrite lookup_alter.
  destruct (String.eqb_spec a s) as [-> | Hne].
  - rewrite decide_True by reflexivity. destruct (info !! s); reflexivity.
  - rewrite decide_False by exact Hne. symmetry. apply push_nil_lookup.
Qed.

(** The inner loop and the pair loop seen from the key [s]: they append
    to its entry the identifiers [pushed_against] and [pushed] list. *)
Lemma check_against_lookup model1 rest info s :
  check_against model1 rest info !! s
  = push (pushed_against model1 rest s) <$> info !! s.
Proof.
  revert info. induction rest as [|model2 rest IH]; intros info.
  - cbn. symmetry. apply push_nil_lookup.
  - cbn [check_against pushed_against]. rewrite IH.
    destruct (overlaps model1 model2).
    + rewrite !report_lookup, !push_lookup, <- app_assoc. reflexivity.
    + reflexivity.
Qed.

Lemma check_pairs_lookup ms info s :
  check_pairs ms info !! s = push (pushed ms s) <$> info !! s.
Proof.
  revert info. induction ms as [|model1 rest IH]; intros info.
  - cbn. symmetry. apply push_nil_lookup.
  - cbn [check_pairs pushed]. rewrite IH, check_against_lookup, push_lookup.
    reflexivity.
Qed.

(** Every model gets a fresh entry, and no other key has one. *)
Lemma init_info_lookup ms s :
  init_info ms !! s = if decide (s ∈ map id ms) then Some no_overlap else None.
Proof.
  unfold init_info.
  assert (Hgen : forall acc : gmap string OverlapInfo,
    fold_left (fun info model => <[id model := no_overlap]> info) ms acc !! s
    = if decide (s ∈ map id ms) then Some no_overlap else acc !! s).
  { induction ms as [|m ms IH]; intros acc.
    - cbn. rewrite decide_False by apply not_elem_of_nil. reflexivity.
    - cbn [fold_left map]. rewrite IH.
      destruct (decide (s ∈ map id ms)) as [Hin | Hnotin].
      + rewrite decide_True by (right; exact Hin). reflexivity.
      + destruct (decide (s = id m)) as [-> | Hne].
        * rewrite decide_True by left. apply lookup_insert_eq.
        * rewrite decide_False.
          -- apply lookup_insert_ne. congruence.
          -- intros Hin. apply elem_of_cons in Hin as [? | ?]; contradiction. }
  rewrite Hgen. destruct (decide _); [reflexivity | apply lookup_empty].
Qed.

(** What is pushed to a key, by cases on where the key's model stands. *)
Lemma pushed_against_other model1 rest s :
  id model1 <> s -> (forall m, m ∈ rest -> id m <> s) ->
  pushed_against model1 rest s = [].
Proof.
  intros H1 Hrest. induction rest as [|model2 rest IH]; [reflexivity|].
  cbn [pushed_against]. rewrite IH by (intros m Hm; apply Hrest; right; exact Hm).
  apply String.eqb_neq in H1. rewrite H1.
  assert (H2 : String.eqb (id model2) s = false)
    by (apply String.eqb_neq, Hrest; left).
  rewrite H2. destruct (overlaps model1 model2); reflexivity.
Qed.

Lemma pushed_against_self model1 rest :
  (forall m, m ∈ rest -> id m <> id model1) ->
  pushed_against model1 rest (id model1)
  = map id (List.filter (overlaps model1) rest).
Proof.
  intros Hrest. induction rest as [|model2 rest IH]; [reflexivity|].
  cbn [pushed_against List.filter].
  rewrite IH by (intros m Hm; apply Hrest; right; exact Hm).
  rewrite String.eqb_refl.
  assert (H2 : String.eqb (id model2) (id model1) = false)
    by (apply String.eqb_neq, Hrest; left).
  rewrite H2. destruct (overlaps model1 model2); reflexivity.
Qed.

Lemma pushed_against_later model1 rest (k : nat) m :
  id model1 <> id m -> NoDup (map id rest) -> rest !! k = Some m ->
  pushed_against model1 rest (id m)
  = if overlaps model1 m then [id model1] else [].
Proof.
  intros H1 Hnd. revert k. induction rest as [|model2 rest IH]; intros k Hk;
    [discriminate Hk|].
  cbn in Hnd. apply NoDup_cons in Hnd as [Hnotin Hnd].
  apply String.eqb_neq in H1 as H1b.
  destruct k as [|k]; cbn in Hk.
  - injection Hk as ->. cbn [pushed_against]. rewrite H1b, String.eqb_refl.
    rewrite pushed_against_other.
    + destruct (overlaps model1 m); reflexivity.
    + exact H1.
    + intros m' Hm' Hid. apply Hnotin. rewrite <- Hid.
      apply list_elem_of_fmap. exists m'. split; [reflexivity | exact Hm'].
  - cbn [pushed_against]. rewrite (IH Hnd k Hk), H1b.
    assert (H2 : String.eqb (id model2) (id m) = false).
    { apply String.eqb_neq. intros Hid. apply Hnotin. rewrite Hid.
      apply list_elem_of_fmap. exists m. split; [reflexivity|].
      apply list_elem_of_lookup. exists k. exact Hk. }
    rewrite H2. destruct (overlaps model1 model2); reflexivity.
Qed.

Lemma pushed_absent ms s :
  (forall m, m ∈ ms -> id m <> s) -> pushed ms s = [].
Proof.
  induction ms as [|model1 rest IH]; intros Hms; [reflexivity|].
  cbn [pushed]. rewrite IH by (intros m Hm; apply Hms; right; exact Hm).
  rewrite pushed_against_other; [reflexivity | apply Hms; left |].
  intros m Hm. apply Hms. right. exact Hm.
Qed.

(** With distinct identifiers, what the pair loop pushes to the key of
    the model at index [k] is the list of its partners. *)
Lemma pushed_partners ms (k : nat) m :
  NoDup (map id ms) -> ms !! k = Some m -> pushed ms (id m) = partners ms k m.
Proof.
  revert k. induction ms as [|model1 rest IH]; intros k Hnd Hk; [discriminate Hk|].
  cbn in Hnd. apply NoDup_cons in Hnd as [Hnotin Hnd].
  assert (Hrest : forall m', m' ∈ rest -> id m' <> id model1).
  { intros m' Hm' Hid. apply Hnotin. rewrite <- Hid.
    apply list_elem_of_fmap. exists m'. split; [reflexivity | exact Hm']. }
  destruct k as [|k]; cbn in Hk.
  - injection Hk as ->. cbn [pushed]. unfold partners. cbn [take drop app].
    rewrite pushed_against_self by exact Hrest.
    rewrite pushed_absent by exact Hrest. apply app_nil_r.
  - assert (Hne : id model1 <> id m).
    { intros Hid. apply (Hrest m); [|symmetry; exact Hid].
      apply list_elem_of_lookup. exists k. exact Hk. }
    cbn [pushed]. rewrite (pushed_against_later model1 rest k m Hne Hnd Hk).
    rewrite (IH k Hnd Hk). unfold partners. cbn [take drop app List.filter].
    rewrite (overlaps_comm m model1).
    destruct (overlaps model1 m); reflexivity.
Qed.

Lemma push_no_overlap (l : list string) : push l no_overlap = report_of l.
Proof. destruct l; reflexivity. Qed.

(** The overlap detector.  For a registry of two or more records with
    distinct identifiers, the effect replaces the overlap map, whatever it
    was, by the map that gives each model the report of its partners (the
    other models whose box meets its box, in registry order, and the flag
    saying whether there is any) and has no other key. *)
Theorem detector_reports_partners ms info :
  NoDup (map id ms) ->
  (2 <= length ms)%nat ->
  (forall (k : nat) m, ms !! k = Some m ->
     detectOverlaps ms info !! id m = Some (report_of (partners ms k m))) /\
  (forall s, s ∉ map id ms -> detectOverlaps ms info !! s = None).
Proof.
  intros Hnd Hlen. unfold detectOverlaps.
  destruct (Nat.ltb_spec (length ms) 2) as [Hlt | _]; [lia|].
  split.
  - intros k m Hk. rewrite check_pairs_lookup, init_info_lookup.
    rewrite decide_True.
    + cbn. rewrite (pushed_partners ms k m Hnd Hk), push_no_overlap. reflexivity.
    + apply list_elem_of_fmap. exists m. split; [reflexivity|].
      apply list_elem_of_lookup. exists k. exact Hk.
  - intros s Hs. rewrite check_pairs_lookup, init_info_lookup.
    rewrite decide_False by exact Hs. reflexivity.
Qed.
End Detector.

(** The two initial models report each other. *)
Lemma detector_reports_partners_witness :
  Scene.detectOverlaps (App.models registry0) ∅ !! "model-1"
  = Some {| Scene.isOverlapping := true; Scene.overlappingWith := ["model-2"] |}.
Proof.
  refine (proj1 (detector_reports_partners (App.models registry0) ∅ _ _)
            0%nat initial_model_1 _).
  - cbn. apply NoDup_cons. split; [|apply NoDup_singleton].
    intros Hin. apply list_elem_of_singleton in Hin. discriminate Hin.
  - cbn. lia.
  - reflexivity.
Defined.

(** The two scenarios of the specification, in exact and in binary64
    arithmetic: two unit models at the origin are both reported as
    overlapping, each with the other; unit models at x = -5 and x = 5 are
    both reported as not overlapping. *)
Lemma overlap_scenarios :
  (let ms := [@model_at Q _ "a" 0 0 0 1 1 1; model_at "b" 0 0 0 1 1 1] in
   Scene.detectOverlaps ms ∅ !! "a" = Some (report_of ["b"]) /\
   Scene.detectOverlaps ms ∅ !! "b" = Some (report_of ["a"])) /\
  (let ms := [@model_at Q _ "a" (-5) 0 0 1 1 1; model_at "b" 5 0 0 1 1 1] in
   Scene.detectOverlaps ms ∅ !! "a" = Some Scene.no_overlap /\
   Scene.detectOverlaps ms ∅ !! "b" = Some Scene.no_overlap) /\
  (let ms := [@model_at float _ "a" 0 0 0 1 1 1; model_at "b" 0 0 0 1 1 1] in
   Scene.detectOverlaps ms ∅ !! "a" = Some (report_of ["b"]) /\
   Scene.detectOverlaps ms ∅ !! "b" = Some (report_of ["a"])) /\
  (let ms := [@model_at float _ "a" (-5) 0 0 1 1 1; model_at "b" 5 0 0 1 1 1] in
   Scene.detectOverlaps ms ∅ !! "a" = Some Scene.no_overlap /\
   Scene.detectOverlaps ms ∅ !! "b" = Some Scene.no_overlap).
Proof. repeat split; vm_compute; reflexivity. Qed.
(** ** The registry: selection and the update entry point *)

Section Registry.
Import App.
Context {num : Type}.
Implicit Types (m : ModelData num) (ms : list (ModelData num)) (st : App.State num).

Lemma select_id i m : id (select i m) = id m.
Proof. reflexivity. Qed.

Lemma selected_select i m : selected (select i m) = true <-> Some (id m) = i.
Proof.
  destruct i as [s|]; cbn.
  - rewrite String.eqb_eq. split; congruence.
  - split; discriminate.
Qed.

Lemma selected_count_absent s ms :
  (forall m, m ∈ ms -> id m <> s) ->
  selected_count (map (select (Some s)) ms) = 0%nat.
Proof.
  induction ms as [|m ms IH]; intros Hne; [reflexivity|].
  unfold selected_count in *. cbn.
  destruct (String.eqb_spec (id m) s) as [Heq | _].
  - exfalso. apply (Hne m); [left | exact Heq].
  - apply IH. intros m' Hm'. apply Hne. right. exact Hm'.
Qed.

Lemma selected_count_deselect ms : selected_count (map (select None) ms) = 0%nat.
Proof. induction ms as [|m ms IH]; [reflexivity | exact IH]. Qed.

Lemma selected_count_select i ms :
  NoDup (map id ms) -> (selected_count (map (select i) ms) <= 1)%nat.
Proof.
  destruct i as [s|]; [|intros _; rewrite selected_count_deselect; lia].
  induction ms as [|m ms IH]; intros Hnd; [cbn; lia|].
  cbn in Hnd. apply NoDup_cons in Hnd as [Hnotin Hnd].
  unfold selected_count in *. cbn.
  destruct (String.eqb_spec (id m) s) as [Heq | _]; [|apply IH, Hnd].
  cbn. fold (selected_count (map (select (Some s)) ms)).
  rewrite selected_count_absent; [lia|].
  intros m' Hm' Hid. apply Hnotin. rewrite Heq, <- Hid.
  apply list_elem_of_fmap. exists m'. split; [reflexivity | exact Hm'].
Qed.

(** C3.  In a registry whose identifiers are distinct, a selection action
    (selecting by identifier, or deselecting with [null]) leaves at most
    one record selected: in the one update of the registry a record's flag
    becomes [true] exactly when its identifier is the selected one, so
    selecting B while A is selected sets B's flag and clears every other;
    a click on the ground clears them all. *)
Theorem selection_leaves_at_most_one st (i : option string) :
  NoDup (map id (models st)) ->
  let st' := handleSelectModel i st in
  (selected_count (models st') <= 1)%nat /\
  (forall k m, models st !! k = Some m ->
     exists m', models st' !! k = Some m' /\ id m' = id m /\
                (selected m' = true <-> Some (id m) = i)) /\
  length (models st') = length (models st) /\
  selectedId st' = i /\
  selected_count (models (Scene.Ground_onDeselect st)) = 0%nat.
Proof.
  intros Hnd st'. subst st'. cbn [handleSelectModel models selectedId].
  split; [apply selected_count_select, Hnd|].
  split; [|split; [apply length_map | split; [reflexivity|]]].
  - intros k m Hk. exists (select i m). split.
    + rewrite list_lookup_fmap, Hk. reflexivity.
    + split; [reflexivity | apply selected_select].
  - unfold Scene.Ground_onDeselect. cbn. apply selected_count_deselect.
Qed.

Lemma update_other i updates m : id m <> i -> update i updates m = m.
Proof.
  intros Hne. unfold update.
  destruct (String.eqb_spec (id m) i); [contradiction | reflexivity].
Qed.

Lemma update_same i updates m : id m = i -> update i updates m = spread m updates.
Proof.
  intros Heq. unfold update.
  destruct (String.eqb_spec (id m) i); [reflexivity | contradiction].
Qed.

Lemma map_update_absent i updates ms :
  (forall m, m ∈ ms -> id m <> i) -> map (update i updates) ms = ms.
Proof.
  induction ms as [|m ms IH]; intros Hne; [reflexivity|].
  cbn. rewrite update_other by (apply Hne; left).
  f_equal. apply IH. intros m' Hm'. apply Hne. right. exact Hm'.
Qed.

(** C10.  An update through [handleUpdateModel] with identifier [i] and a
    patch keeps the number of records and their order: the record at each
    index is the old record at that index, unchanged when its identifier
    differs from [i] and patched when it is [i]; the selected identifier
    is untouched; and when no record has identifier [i] the whole registry
    is unchanged. *)
Theorem update_touches_only_the_named_record st (i : string)
    (updates : Partial_ModelData num) :
  let st' := handleUpdateModel i updates st in
  length (models st') = length (models st) /\
  (forall k m, models st !! k = Some m -> id m <> i ->
     models st' !! k = Some m) /\
  (forall k m, models st !! k = Some m -> id m = i ->
     models st' !! k = Some (spread m updates)) /\
  (forall k, models st !! k = None -> models st' !! k = None) /\
  selectedId st' = selectedId st /\
  ((forall m, m ∈ models st -> id m <> i) -> st' = st).
Proof.
  cbn [handleUpdateModel models selectedId].
  split; [apply length_map|].
  split; [|split; [|split; [|split; [reflexivity|]]]].
  - intros k m Hk Hne. rewrite list_lookup_fmap, Hk. cbn.
    rewrite update_other by exact Hne. reflexivity.
  - intros k m Hk Heq. rewrite list_lookup_fmap, Hk. cbn.
    rewrite update_same by exact Heq. reflexivity.
  - intros k Hk. rewrite list_lookup_fmap, Hk. reflexivity.
  - intros Hne. unfold handleUpdateModel.
    rewrite map_update_absent by exact Hne.
    destruct st; reflexivity.
Qed.
End Registry.

(** In the initial registry, selecting ["model-2"] selects one record. *)
Lemma selection_leaves_at_most_one_witness :
  (selected_count (App.models (App.handleSelectModel (Some "model-2") registry0)) <= 1)%nat.
Proof.
  assert (Hnd : NoDup (map id (App.models registry0))).
  { cbn. apply NoDup_cons. split; [|apply NoDup_singleton].
    intros Hin. apply list_elem_of_singleton in Hin. discriminate Hin. }
  exact (proj1 (selection_leaves_at_most_one registry0 (Some "model-2") Hnd)).
Defined.

(** An update of ["model-2"] leaves ["model-1"], at index 0, as it was. *)
Lemma update_touches_only_the_named_record_witness :
  App.models (App.handleUpdateModel "model-2" no_updates registry0) !! 0%nat
  = App.models registry0 !! 0%nat.
Proof.
  refine (proj1 (proj2 (update_touches_only_the_named_record
                          registry0 "model-2" no_updates)) 0%nat _ _ _).
  - reflexivity.
  - cbn. discriminate.
Defined.

(** ** The selection invariant of the running page *)

Section Invariant.
Import App Page.
Context {num : Type} `{JsNumber num}.
Implicit Types (m : ModelData num) (ms : list (ModelData num)) (st : App.State num).

Lemma select_fixpoint i m : selected m = id_is m i -> select i m = m.
Proof.
  intros Hsel. destruct m. unfold select. cbn [id name url position rotation
    scale visible selected opacity] in *. f_equal. symmetry. exact Hsel.
Qed.

Lemma flags_follow_count st :
  NoDup (map id (models st)) -> flags_follow st ->
  (selected_count (models st) <= 1)%nat.
Proof.
  intros Hnd Hflags.
  replace (models st) with (map (select (selectedId st)) (models st)).
  - apply selected_count_select, Hnd.
  - rewrite <- (map_id (models st)) at 2. apply map_ext_in.
    intros m Hm. apply select_fixpoint, Hflags, list_elem_of_In, Hm.
Qed.

Lemma handle_keeps_invariant (a : Action num) st :
  ui_action a -> flags_follow st ->
  map id (models (handle a st)) = map id (models st) /\
  flags_follow (handle a st).
Proof.
  intros Hui Hflags. destruct a as [i | i updates]; cbn [handle].
  - split.
    + cbn. rewrite map_map. reflexivity.
    + intros m' Hm'. cbn in Hm'.
      apply list_elem_of_fmap in Hm' as (m & -> & _). reflexivity.
  - destruct Hui as [Hid Hsel]. split.
    + cbn. rewrite map_map. apply map_ext. intros m. unfold update.
      destruct (String.eqb (id m) i); [|reflexivity]. cbn. rewrite Hid. reflexivity.
    + intros m' Hm'. cbn in Hm'.
      apply list_elem_of_fmap in Hm' as (m & -> & Hm). cbn [selectedId].
      unfold update. destruct (String.eqb (id m) i); [|apply Hflags, Hm].
      unfold id_is. cbn [id selected spread]. rewrite Hid, Hsel. cbn.
      apply Hflags, Hm.
Qed.

(** At any time.  From the initial registry, after any sequence of
    selections and interface updates, the registry still holds the two
    records "model-1" and "model-2" in that order, at most one of them is
    selected, and a record is selected exactly when its identifier is the
    selected one. *)
Theorem at_most_one_selected_at_any_time (DEFAULT_MODEL_1_URL DEFAULT_MODEL_2_URL : string)
    (actions : list (Action num)) :
  Forall ui_action actions ->
  let st := app (run actions (initial DEFAULT_MODEL_1_URL DEFAULT_MODEL_2_URL)) in
  map id (models st) = ["model-1"; "model-2"] /\
  (selected_count (models st) <= 1)%nat /\
  (forall m, m ∈ models st -> (selected m = true <-> Some (id m) = selectedId st)).
Proof.
  intros Hall st.
  assert (Hinv : map id (models st) = ["model-1"; "model-2"] /\ flags_follow st).
  { subst st. unfold run.
    assert (Hgen : forall pg : Page.State num,
      map id (models (app pg)) = ["model-1"; "model-2"] -> flags_follow (app pg) ->
      let pg' := fold_left (fun pg a => step a pg) actions pg in
      map id (models (app pg')) = ["model-1"; "model-2"] /\ flags_follow (app pg')).
    { induction Hall as [|a actions Ha _ IH]; intros pg Hids Hflags.
      - split; assumption.
      - cbn [fold_left]. destruct (handle_keeps_invariant a (app pg) Ha Hflags)
          as [Hids' Hflags'].
        apply IH; cbn [step app]; [congruence | exact Hflags']. }
    apply Hgen; cbn [mounted app].
    - reflexivity.
    - intros m Hm. cbn in Hm.
      apply elem_of_cons in Hm as [-> | Hm]; [reflexivity|].
      apply list_elem_of_singleton in Hm as ->. reflexivity. }
  destruct Hinv as [Hids Hflags]. split; [exact Hids|]. split.
  - apply flags_follow_count; [|exact Hflags]. rewrite Hids.
    apply NoDup_cons. split; [|apply NoDup_singleton].
    intros Hin. apply list_elem_of_singleton in Hin. discriminate Hin.
  - intros m Hm. rewrite (Hflags m Hm). unfold id_is.
    destruct (selectedId st) as [s|]; [|split; discriminate].
    rewrite String.eqb_eq. split; congruence.
Qed.
End Invariant.

(** Select, drag, select the other model, hide it. *)
Lemma at_most_one_selected_at_any_time_witness :
  (selected_count
     (App.models
        (Page.app
           (Page.run
              [Page.Select (Some "model-1");
               Page.Update "model-1" (BuildingModel.position_patch (1%Q, 1%Q, 0%Q));
               Page.Select (Some "model-2");
               Page.Update "model-2" (snd (Controls.toggleVisibility initial_model_1))]
              registry0))) <= 1)%nat.
Proof.
  refine (proj1 (proj2 (at_most_one_selected_at_any_time "one.glb" "two.glb" _ _))).
  repeat constructor.
Defined.
(** ** Visibility *)

Section Visibility.
Import App Controls BuildingModel.
Context {num : Type} `{JsNumber num}.
Implicit Types (m : ModelData num) (ms : list (ModelData num)) (st : App.State num).


Lemma unique_id_index ms j k m m' :
  NoDup (map id ms) -> ms !! k = Some m -> ms !! j = Some m' ->
  id m' = id m -> j = k.
Proof.
  intros Hnd Hk Hj Hid.
  apply (NoDup_lookup (map id ms) j k (id m)); [exact Hnd | |].
  - rewrite list_lookup_fmap, Hj. cbn. congruence.
  - rewrite list_lookup_fmap, Hk. reflexivity.
Qed.


End Visibility.
(** ** Dragging *)

Section Drag.
Import App BuildingModel.

(** What one [onUpdate] call with a position does to the records that
    carry the identifier, and to the others. *)
Lemma run_position_update {num} (i : string) (p : Triple num)
    (st : App.State num) (k : nat) (m : ModelData num) :
  models st !! k = Some m ->
  models (run_calls {| stopPropagation := true;
                       calls := [OnUpdate i (position_patch p)] |} st) !! k
  = Some (if String.eqb (id m) i then with_position p m else m).
Proof.
  intros Hk. unfold run_calls. cbn [calls fold_left run_call].
  cbn [handleUpdateModel models]. rewrite list_lookup_fmap, Hk. reflexivity.
Qed.

Lemma boundaries : @BOUNDARY_MIN Q _ == -3 /\ @BOUNDARY_MAX Q _ == 3.
Proof. split; reflexivity. Qed.

Lemma clamp_clamped (v : Q) : clamped_to_ground v (clamp v).
Proof.
  destruct boundaries as [Hmin Hmax].
  unfold clamped_to_ground, clamp. Q_ops.
  destruct (Qle_bool BOUNDARY_MAX v) eqn:Hhi.
  - apply Qle_bool_iff in Hhi.
    destruct (Qle_bool BOUNDARY_MIN BOUNDARY_MAX) eqn:Hlo.
    + repeat (split; [lra || (intros; lra)|]). intros; lra.
    + apply Q_leb_gt in Hlo. lra.
  - apply Q_leb_gt in Hhi.
    destruct (Qle_bool BOUNDARY_MIN v) eqn:Hlo.
    + apply Qle_bool_iff in Hlo.
      repeat (split; [lra || (intros; lra)|]). intros; lra.
    + apply Q_leb_gt in Hlo.
      repeat (split; [lra || (intros; lra)|]). intros; lra.
Qed.

(** C2 (as amended).  The anchor of a drag is what the handler was
    handed as [memo]: on the first call of a drag, which has no memo, the
    position (and rotation) the model has then; on every later call the
    memo, which is what the handler returned on the call before, so that
    the anchor of the first call is the anchor of the whole drag.  A
    single-contact drag of a selected model, with accumulated movement
    [(dx, dy)] and anchor position [(x0, y0, z0)], returns the anchor as
    memo and issues one position update, in any arithmetic.  In variant 2
    the stored position is
    [(clamp (x0 + dx*0.05), y0, clamp (z0 + dy*0.05))]; in variant 1 it is
    [(x0 + dx*0.05, y0, z0 + dy*0.05)], with no bounds.  In both the Y
    coordinate is the anchor's, and the update replaces the position of
    the records with the model's identifier and nothing else.  In exact
    arithmetic [clamp v] is [v] brought into [[-3, 3]]. *)
Theorem single_contact_drag :
  (forall (num : Type) (H : JsNumber num) (data : ModelData num)
          (memo : option (Memo num)) (dx dy x0 y0 z0 : num),
      selected data = true ->
      let anchor :=
        match memo with
        | Some started => started
        | None => {| initialPos := position data; initialRot := rotation data |}
        end in
      initialPos anchor = (x0, y0, z0) ->
      let p2 := (clamp (x0 + dx * num_lit 0.05), y0,
                 clamp (z0 + dy * num_lit 0.05))%js in
      let p1 := (x0 + dx * num_lit 0.05, y0, z0 + dy * num_lit 0.05)%js in
      let h2 := {| stopPropagation := true;
                   calls := [OnUpdate (id data) (position_patch p2)] |} in
      let h1 := {| stopPropagation := true;
                   calls := [OnUpdate (id data) (position_patch p1)] |} in
      onDrag_v2 data (dx, dy) 1 memo = (anchor, h2) /\
      onDrag_v1 data (dx, dy) 1 memo = (anchor, h1) /\
      (forall st k m, models st !! k = Some m -> id m = id data ->
         models (run_calls h2 st) !! k = Some (with_position p2 m) /\
         models (run_calls h1 st) !! k = Some (with_position p1 m)) /\
      (forall st k m, models st !! k = Some m -> id m <> id data ->
         models (run_calls h2 st) !! k = Some m /\
         models (run_calls h1 st) !! k = Some m)) /\
  (forall v : Q, clamped_to_ground v (clamp v)).
Proof.
  split; [|apply clamp_clamped].
  intros num H data memo dx dy x0 y0 z0 Hsel anchor Hanchor p2 p1 h2 h1.
  assert (Hmemo : memo_or_initial data memo = anchor)
    by (subst anchor; destruct memo; reflexivity).
  split; [|split; [|split]].
  - unfold onDrag_v2. rewrite Hmemo, Hanchor, Hsel. reflexivity.
  - unfold onDrag_v1. rewrite Hmemo, Hanchor, Hsel. reflexivity.
  - intros st k m Hk Hid. subst h1 h2.
    rewrite !(run_position_update _ _ _ _ _ Hk), Hid, String.eqb_refl.
    split; reflexivity.
  - intros st k m Hk Hid. subst h1 h2.
    rewrite !(run_position_update _ _ _ _ _ Hk).
    apply String.eqb_neq in Hid. rewrite Hid. split; reflexivity.
Qed.

(** Two events of one drag of [dragged], which starts at X = 0.  The
    first, 20 pixels to the right, returns the anchor; by the second,
    40 pixels to the right, the component has rendered again and sees the
    model at X = 1.  The second event stores X = 0 + 40 * 0.05 = 2,
    measured from the anchor, and not 1 + 40 * 0.05. *)
Lemma single_contact_drag_witness :
  onDrag_v2 (with_position (1, 1, 0) (@dragged Q _)) (40, 0) 1
    (Some (fst (onDrag_v2 dragged (20, 0) 1 None)))
  = ({| initialPos := (0, 1, 0); initialRot := (0, 0, 0) |},
     {| stopPropagation := true;
        calls := [OnUpdate "dragged"
                    (position_patch (clamp (0 + 40 * 0.05), 1, clamp (0 + 0 * 0.05)))] |})
  /\ clamp (0 + 40 * 0.05) == 2.
Proof.
  split.
  - exact (proj1 (proj1 single_contact_drag Q _
                    (with_position (1, 1, 0) dragged)
                    (Some (fst (onDrag_v2 dragged (20, 0) 1 None)))
                    40 0 0 1 0 eq_refl eq_refl)).
  - destruct (proj2 single_contact_drag (0 + 40 * 0.05)) as (_ & _ & Hinside & _).
    eapply Qeq_trans; [apply Hinside; split; discriminate | reflexivity].
Defined.

(** C2 as stated fails in variant 1, which has no ground bounds: dragging
    [dragged] by 100 pixels stores X = 5, beyond the bound 3, in exact and
    in binary64 arithmetic. *)
Lemma single_contact_drag_v1_leaves_the_ground :
  (exists cx : Q, updated_x (snd (onDrag_v1 dragged (100, 0) 1 None)) = Some cx /\
                  cx == 5 /\ ~ cx <= 3) /\
  updated_x (snd (onDrag_v1 (@dragged float _) (100, 0)%float 1 None)) = Some 5%float.
Proof.
  split; [|vm_compute; reflexivity].
  eexists. split; [reflexivity|]. Q_ops. split; [reflexivity|]. lra.
Qed.

(** C9.  In variant 1, a two-contact drag of a selected model with
    accumulated movement [(dx, dy)] is measured from the anchor of the
    drag: the position the model has on the first call of the drag, which
    has no memo, and on every later call the memo, which the handler
    returns unchanged.  With anchor position [(x0, y0, z0)] the handler
    issues one update, of the position
    [(x0 + dx*0.05, y0 + dy*0.05, z0)]: the sums as they are, with no
    bound on any axis, and Z the anchor's.  The update replaces the
    position of the records with the model's identifier and nothing else.
    This holds in any arithmetic. *)
Theorem two_contact_drag {num} `{JsNumber num} (data : ModelData num)
    (memo : option (Memo num)) (dx dy x0 y0 z0 : num) :
  selected data = true ->
  let anchor :=
    match memo with
    | Some started => started
    | None => {| initialPos := position data; initialRot := rotation data |}
    end in
  initialPos anchor = (x0, y0, z0) ->
  let p := (x0 + dx * num_lit 0.05, y0 + dy * num_lit 0.05, z0)%js in
  let h := {| stopPropagation := true;
              calls := [OnUpdate (id data) (position_patch p)] |} in
  onDrag_v1 data (dx, dy) 2 memo = (anchor, h) /\
  (forall st k m, models st !! k = Some m -> id m = id data ->
     models (run_calls h st) !! k = Some (with_position p m)) /\
  (forall st k m, models st !! k = Some m -> id m <> id data ->
     models (run_calls h st) !! k = Some m).
Proof.
  intros Hsel anchor Hanchor p h.
  assert (Hmemo : memo_or_initial data memo = anchor)
    by (subst anchor; destruct memo; reflexivity).
  split; [|split].
  - unfold onDrag_v1. rewrite Hmemo, Hanchor, Hsel. reflexivity.
  - intros st k m Hk Hid. subst h.
    rewrite (run_position_update _ _ _ _ _ Hk), Hid, String.eqb_refl. reflexivity.
  - intros st k m Hk Hid. subst h.
    rewrite (run_position_update _ _ _ _ _ Hk).
    apply String.eqb_neq in Hid. rewrite Hid. reflexivity.
Qed.

(** Two events of one two-contact drag of [dragged], which starts at
    (0, 1, 0).  The first, by (100, -200) pixels, returns the anchor; by
    the second, by (10, 20) pixels, the component sees the model at
    (5, -9, 0).  The second event stores X = 0 + 10*0.05 and
    Y = 1 + 20*0.05, measured from the anchor. *)
Lemma two_contact_drag_witness :
  onDrag_v1 (with_position (5, -9, 0) (@dragged Q _)) (10, 20) 2
    (Some (fst (onDrag_v1 dragged (100, -200) 2 None)))
  = ({| initialPos := (0, 1, 0); initialRot := (0, 0, 0) |},
     {| stopPropagation := true;
        calls := [OnUpdate "dragged"
                    (position_patch (0 + 10 * 0.05, 1 + 20 * 0.05, 0))] |}).
Proof.
  exact (proj1 (two_contact_drag (with_position (5, -9, 0) dragged)
                  (Some (fst (onDrag_v1 dragged (100, -200) 2 None)))
                  10 20 0 1 0 eq_refl eq_refl)).
Defined.
End Drag.

(** ** Rotation: the commands and the easing *)

Section Easing.
Import App Controls BuildingModel.

Lemma useFrame_target {num} `{JsNumber num} (d : num) (ls : LocalState num) :
  targetRotation (useFrame d ls) = targetRotation ls.
Proof.
  unfold useFrame. destruct (currentRotation ls) as [[c0 c1] c2].
  destruct (targetRotation ls) as [[t0 t1] t2] eqn:Ht.
  destruct (_ || _ || _); [reflexivity | exact Ht].
Qed.

Lemma frames_target {num} `{JsNumber num} (deltas : list num) (ls : LocalState num) :
  targetRotation (frames deltas ls) = targetRotation ls.
Proof.
  revert ls. induction deltas as [|d ds IH]; intros ls; [reflexivity|].
  cbn. fold (frames ds (useFrame d ls)). rewrite IH. apply useFrame_target.
Qed.

(** One frame multiplies what remains of every angle by [1 - 5 * delta];
    when the live rotation already equals the target, nothing remains
    and nothing changes. *)
Lemma useFrame_residual (pick : Triple Q -> Q) (d : Q) (ls : LocalState Q) :
  pick = x_of \/ pick = y_of \/ pick = z_of ->
  residual pick (useFrame d ls) == (1 - 5 * d) * residual pick ls.
Proof.
  intros Hpick. unfold residual. rewrite useFrame_target. unfold useFrame.
  destruct (currentRotation ls) as [[c0 c1] c2] eqn:Hc.
  destruct (targetRotation ls) as [[t0 t1] t2] eqn:Ht.
  destruct (_ || _ || _) eqn:Hguard.
  - cbn [currentRotation]. Q_ops.
    destruct Hpick as [-> | [-> | ->]]; cbn; ring.
  - rewrite Hc.
    apply orb_false_elim in Hguard as [Hguard H2].
    apply orb_false_elim in Hguard as [H0 H1].
    apply negb_false_iff, Q_eqb_eq in H0, H1, H2.
    destruct Hpick as [-> | [-> | ->]]; cbn.
    + rewrite H0. ring.
    + rewrite H1. ring.
    + rewrite H2. ring.
Qed.

(** The count of frames as a rational. *)
Lemma frame_count_succ (n : nat) :
  inject_Z (Z.of_nat (S n)) == inject_Z (Z.of_nat n) + 1.
Proof. rewrite Nat2Z.inj_succ. unfold Z.succ. rewrite inject_Z_plus. reflexivity. Qed.

Lemma frame_count_nonneg (n : nat) : 0 <= inject_Z (Z.of_nat n).
Proof. change 0 with (inject_Z 0). rewrite <- Zle_Qle. lia. Qed.

(** While every frame shrinks what remains by a factor of at most
    [1 - h] in absolute value, what remains after [n] frames, times
    [1 + n * h], is at most what remained at the start. *)
Lemma frames_residual_bound (pick : Triple Q -> Q) (h : Q) (deltas : list Q)
    (ls : LocalState Q) :
  pick = x_of \/ pick = y_of \/ pick = z_of ->
  0 <= h -> h <= 1 ->
  Forall (fun d => Qabs (1 - 5 * d) <= 1 - h) deltas ->
  Qabs (residual pick (frames deltas ls))
    * (1 + inject_Z (Z.of_nat (length deltas)) * h)
  <= Qabs (residual pick ls).
Proof.
  intros Hpick Hh0 Hh1 Hall. revert ls.
  induction Hall as [|d ds Hd Hds IH]; intros ls.
  - cbn [frames fold_left length]. change (inject_Z (Z.of_nat 0)) with 0.
    generalize (Qabs (residual pick ls)). intros a. lra.
  - cbn [frames fold_left length]. fold (frames ds (useFrame d ls)).
    specialize (IH (useFrame d ls)).
    rewrite frame_count_succ.
    pose proof (frame_count_nonneg (length ds)) as Hn.
    assert (Hstep : Qabs (residual pick (useFrame d ls))
                    <= (1 - h) * Qabs (residual pick ls)).
    { rewrite (useFrame_residual pick d ls Hpick), Qabs_Qmult.
      apply Qmult_le_compat_r; [exact Hd | apply Qabs_nonneg]. }
    pose proof (Qabs_nonneg (residual pick (frames ds (useFrame d ls)))) as Ha.
    pose proof (Qabs_nonneg (residual pick ls)) as Hb.
    set (a := Qabs (residual pick (frames ds (useFrame d ls)))) in *.
    set (b := Qabs (residual pick ls)) in *.
    set (c := Qabs (residual pick (useFrame d ls))) in *.
    set (n := inject_Z (Z.of_nat (length ds))) in *.
    clearbody a b c n.
    assert (H1 : 0 <= a * (n * h)) by (apply Qmult_le_0_compat; nra).
    assert (H2 : a <= (1 - h) * b) by nra.
    assert (H3 : a * h <= (1 - h) * b * h) by (apply Qmult_le_compat_r; assumption).
    assert (H4 : 0 <= h * h * b) by (apply Qmult_le_0_compat; nra).
    nra.
Qed.

(** A quantity [a] with [a * (1 + n * h) <= D] is below any [eps] once
    [n] is large enough. *)
Lemma eventually_small (D h eps : Q) :
  0 <= D -> 0 < h -> 0 < eps ->
  exists N : nat, forall (n : nat) (a : Q),
    (N <= n)%nat -> a * (1 + inject_Z (Z.of_nat n) * h) <= D -> a < eps.
Proof.
  intros HD Hh Heps.
  exists (Z.to_nat (Qceiling (D / (eps * h)))). intros n a Hn Ha.
  assert (Hq : D / (eps * h) <= inject_Z (Z.of_nat n)).
  { eapply Qle_trans; [apply Qle_ceiling|]. rewrite <- Zle_Qle. lia. }
  assert (Hpos : 0 < eps * h) by nra.
  assert (HDn : D <= inject_Z (Z.of_nat n) * (eps * h)).
  { apply (Qmult_le_compat_r _ _ (eps * h)) in Hq; [|lra].
    rewrite Qmult_comm, Qmult_div_r in Hq by lra. exact Hq. }
  set (k := inject_Z (Z.of_nat n)) in *.
  destruct (Qlt_le_dec a eps) as [Hlt | Hge]; [exact Hlt | exfalso].
  nra.
Qed.

Lemma after_rotate_x_rotation {num} `{JsNumber num} (m : ModelData num)
    (r0 r1 r2 : num) :
  rotation m = (r0, r1, r2) ->
  after_rotate_x m = with_rotation (r0 + Math_PI / num_lit 2, r1, r2)%js m.
Proof. intros Hr. destruct m. cbn in Hr. subst. reflexivity. Qed.

Lemma rotate_x_in_registry {num} `{JsNumber num} (st : App.State num) (k : nat)
    (m : ModelData num) :
  models st !! k = Some m ->
  models (onUpdate (rotateModel m AxisX) st) !! k = Some (after_rotate_x m).
Proof.
  intros Hk. unfold onUpdate, after_rotate_x. cbn [handleUpdateModel models].
  rewrite list_lookup_fmap, Hk. cbn [fmap option_fmap option_map].
  unfold update.
  replace (fst (rotateModel m AxisX)) with (id m).
  - rewrite String.eqb_refl. reflexivity.
  - unfold rotateModel. destruct (rotation m) as [[r0 r1] r2]. reflexivity.
Qed.

(** C4 (as amended).  Two rotate-90-degrees-on-X commands, the second
    issued by the re-rendered panel, leave the record with the X angle
    [r0 + PI/2 + PI/2] and with Y and Z as they were, in any arithmetic.
    In exact arithmetic that angle is [r0 + PI], a half turn beyond the
    original value, and the easing converges to that target: when every
    frame time [d] satisfies [|1 - 5d| <= 1 - h] for a fixed [h > 0], the
    live angles are within any [eps > 0] of [(r0 + PI, r1, r2)] after
    enough frames. *)
Theorem rotate_x_twice_is_a_half_turn :
  (forall (num : Type) (H : JsNumber num) (st : App.State num) (k : nat)
          (m : ModelData num) (r0 r1 r2 : num),
      models st !! k = Some m ->
      rotation m = (r0, r1, r2) ->
      let m1 := after_rotate_x m in
      let m2 := after_rotate_x m1 in
      let st1 := onUpdate (rotateModel m AxisX) st in
      let st2 := onUpdate (rotateModel m1 AxisX) st1 in
      models st1 !! k = Some m1 /\
      models st2 !! k = Some m2 /\
      m2 = with_rotation
             (r0 + Math_PI / num_lit 2 + Math_PI / num_lit 2, r1, r2)%js m) /\
  (forall (m : ModelData Q) (r0 r1 r2 : Q) (ls : LocalState Q) (h eps : Q),
      rotation m = (r0, r1, r2) ->
      0 < h -> h <= 1 -> 0 < eps ->
      let m2 := after_rotate_x (after_rotate_x m) in
      r0 + Math_PI / 2 + Math_PI / 2 == r0 + Math_PI /\
      exists N : nat, forall deltas : list Q,
        (N <= length deltas)%nat ->
        Forall (fun d => Qabs (1 - 5 * d) <= 1 - h) deltas ->
        let ls' := frames deltas (syncTargetRotation m2 ls) in
        targetRotation ls' = rotation m2 /\
        Qabs (x_of (currentRotation ls') - (r0 + Math_PI)) < eps /\
        Qabs (y_of (currentRotation ls') - r1) < eps /\
        Qabs (z_of (currentRotation ls') - r2) < eps).
Proof.
  assert (Htwice : forall (num : Type) (H : JsNumber num) (m : ModelData num)
                          (r0 r1 r2 : num),
            rotation m = (r0, r1, r2) ->
            after_rotate_x (after_rotate_x m)
            = with_rotation
                (r0 + Math_PI / num_lit 2 + Math_PI / num_lit 2, r1, r2)%js m).
  { intros num H m r0 r1 r2 Hr.
    rewrite (after_rotate_x_rotation m r0 r1 r2 Hr).
    rewrite (after_rotate_x_rotation _ (r0 + Math_PI / num_lit 2)%js r1 r2);
      reflexivity. }
  split.
  - intros num H st k m r0 r1 r2 Hk Hr m1 m2 st1 st2.
    assert (Hk1 : models st1 !! k = Some m1) by (apply rotate_x_in_registry, Hk).
    split; [exact Hk1|]. split; [apply rotate_x_in_registry, Hk1|].
    apply Htwice, Hr.
  - intros m r0 r1 r2 ls h eps Hr Hh0 Hh1 Heps m2.
    assert (Hm2 : m2 = with_rotation (r0 + Math_PI / 2 + Math_PI / 2, r1, r2) m)
      by (subst m2; rewrite (Htwice Q _ m r0 r1 r2 Hr); reflexivity).
    split; [Q_div; ring|].
    set (ls0 := syncTargetRotation m2 ls).
    destruct (eventually_small (Qabs (residual x_of ls0)) h eps
                (Qabs_nonneg _) Hh0 Heps) as [Nx HNx].
    destruct (eventually_small (Qabs (residual y_of ls0)) h eps
                (Qabs_nonneg _) Hh0 Heps) as [Ny HNy].
    destruct (eventually_small (Qabs (residual z_of ls0)) h eps
                (Qabs_nonneg _) Hh0 Heps) as [Nz HNz].
    exists (Nx `max` (Ny `max` Nz))%nat. intros deltas Hlen Hall ls'.
    assert (Htarget : targetRotation ls' = rotation m2)
      by (subst ls'; rewrite frames_target; reflexivity).
    split; [exact Htarget|].
    assert (Hbound : forall pick, pick = x_of \/ pick = y_of \/ pick = z_of ->
              Qabs (residual pick ls')
                * (1 + inject_Z (Z.of_nat (length deltas)) * h)
              <= Qabs (residual pick ls0)).
    { intros pick Hpick.
      apply frames_residual_bound; [exact Hpick | lra | exact Hh1 | exact Hall]. }
    assert (Hx : Qabs (residual x_of ls') < eps)
      by (apply (HNx (length deltas)); [lia | apply Hbound; tauto]).
    assert (Hy : Qabs (residual y_of ls') < eps)
      by (apply (HNy (length deltas)); [lia | apply Hbound; tauto]).
    assert (Hz : Qabs (residual z_of ls') < eps)
      by (apply (HNz (length deltas)); [lia | apply Hbound; tauto]).
    unfold residual in Hx, Hy, Hz. rewrite Htarget, Hm2 in Hx, Hy, Hz.
    cbn [rotation with_rotation x_of y_of z_of fst snd] in Hx, Hy, Hz.
    split; [|split; assumption].
    eapply Qle_lt_trans; [|exact Hx].
    apply Qle_lteq. right. apply Qabs_wd. Q_div. ring.
Qed.

(** The first of two commands on ["model-1"] of the initial registry,
    and the half turn of its record. *)
Lemma rotate_x_twice_is_a_half_turn_witness :
  models (onUpdate (rotateModel initial_model_1 AxisX) registry0) !! 0%nat
  = Some (after_rotate_x initial_model_1) /\
  0 + Math_PI / 2 + Math_PI / 2 == 0 + Math_PI.
Proof.
  split.
  - exact (proj1 (proj1 rotate_x_twice_is_a_half_turn Q _ registry0 0%nat
                    initial_model_1 0 0 0 eq_refl eq_refl)).
  - refine (proj1 (proj2 rotate_x_twice_is_a_half_turn initial_model_1 0 0 0
                     (mount initial_model_1) (1 # 12) (1 # 100) eq_refl _ _ _)).
    + reflexivity.
    + discriminate.
    + reflexivity.
Defined.

(** C4 as stated fails: after two commands on a model at rest the X angle
    of the record is [PI/2 + PI/2], more than 3 and less than 4 radians
    away from the original 0 (neither back at it nor a full turn from
    it), and the component whose live rotation equals that target has
    converged: a frame leaves it as it is.  In binary64 arithmetic the
    angle is 3.141592653589793. *)
Lemma rotate_x_twice_does_not_return :
  (let m2 := after_rotate_x (after_rotate_x (@at_rest Q _)) in
   3 < x_of (rotation m2) - x_of (rotation (@at_rest Q _)) /\
   x_of (rotation m2) - x_of (rotation (@at_rest Q _)) < 4 /\
   forall d : Q, useFrame d (mount m2) = mount m2) /\
  x_of (rotation (after_rotate_x (after_rotate_x (@at_rest float _))))
  = 3.141592653589793%float.
Proof.
  split; [|vm_compute; reflexivity].
  cbn zeta. split; [reflexivity|]. split; [reflexivity|].
  intros d. unfold useFrame. cbn [mount currentRotation targetRotation].
  destruct (rotation _) as [[a b] c].
  assert (Hrefl : forall q : Q, (q !== q)%js = false).
  { intros q. apply negb_false_iff, Q_eqb_eq. reflexivity. }
  rewrite !Hrefl. reflexivity.
Qed.

Lemma useFrame_differs {num} `{JsNumber num} (d : num) (ls : LocalState num)
    (c0 c1 c2 t0 t1 t2 : num) :
  currentRotation ls = (c0, c1, c2) ->
  targetRotation ls = (t0, t1, t2) ->
  ((c0 !== t0) || (c1 !== t1) || (c2 !== t2))%js = true ->
  currentRotation (useFrame d ls)
  = (c0 + (t0 - c0) * (num_lit 5 * d),
     c1 + (t1 - c1) * (num_lit 5 * d),
     c2 + (t2 - c2) * (num_lit 5 * d))%js.
Proof.
  intros Hc Ht Hguard. unfold useFrame. rewrite Hc, Ht, Hguard. reflexivity.
Qed.

Lemma useFrame_equal {num} `{JsNumber num} (d : num) (ls : LocalState num)
    (c0 c1 c2 t0 t1 t2 : num) :
  currentRotation ls = (c0, c1, c2) ->
  targetRotation ls = (t0, t1, t2) ->
  ((c0 !== t0) || (c1 !== t1) || (c2 !== t2))%js = false ->
  useFrame d ls = ls.
Proof.
  intros Hc Ht Hguard. unfold useFrame. rewrite Hc, Ht, Hguard. reflexivity.
Qed.

(** What remains of an angle after a run of frames is what remained at
    the start times a product of factors [1 - 5 * d]: it is zero only if
    it was zero or one of the factors is. *)
Lemma frames_residual_nonzero (pick : Triple Q -> Q) (deltas : list Q)
    (ls : LocalState Q) :
  pick = x_of \/ pick = y_of \/ pick = z_of ->
  Forall (fun d => ~ 5 * d == 1) deltas ->
  ~ residual pick ls == 0 ->
  ~ residual pick (frames deltas ls) == 0.
Proof.
  intros Hpick Hall. revert ls.
  induction Hall as [|d ds Hd Hds IH]; intros ls Hres; [exact Hres|].
  cbn [frames fold_left]. fold (frames ds (useFrame d ls)). apply IH.
  rewrite (useFrame_residual pick d ls Hpick). intros Hzero.
  apply Qmult_integral in Hzero as [Hzero | Hzero]; [apply Hd; lra | exact (Hres Hzero)].
Qed.

(** C5 (as amended).  In any arithmetic: on a frame where the live
    rotation differs from the target in some angle, each of the three
    angles becomes [current + (target - current) * (5 * delta)]; on a
    frame where all three are equal the state is left alone; the target
    never changes; there is no other write, so no snap to the target.  In
    exact arithmetic what remains of an angle is multiplied by
    [1 - 5 * delta]: a non-zero remainder becomes zero in a frame exactly
    when [5 * delta = 1], and stays non-zero through any run of frames
    none of which lasts 0.2 seconds. *)
Theorem easing_step_and_no_snap :
  (forall (num : Type) (H : JsNumber num) (d : num) (ls : LocalState num)
          (c0 c1 c2 t0 t1 t2 : num),
      currentRotation ls = (c0, c1, c2) ->
      targetRotation ls = (t0, t1, t2) ->
      let differs := ((c0 !== t0) || (c1 !== t1) || (c2 !== t2))%js in
      (differs = true ->
       currentRotation (useFrame d ls)
       = (c0 + (t0 - c0) * (num_lit 5 * d),
          c1 + (t1 - c1) * (num_lit 5 * d),
          c2 + (t2 - c2) * (num_lit 5 * d))%js) /\
      (differs = false -> useFrame d ls = ls) /\
      targetRotation (useFrame d ls) = (t0, t1, t2)) /\
  (forall (ls : LocalState Q) (pick : Triple Q -> Q),
      pick = x_of \/ pick = y_of \/ pick = z_of ->
      ~ residual pick ls == 0 ->
      (forall d : Q, residual pick (useFrame d ls) == 0 <-> 5 * d == 1) /\
      (forall deltas : list Q,
         Forall (fun d => ~ 5 * d == 1) deltas ->
         ~ residual pick (frames deltas ls) == 0)).
Proof.
  split.
  - intros num H d ls c0 c1 c2 t0 t1 t2 Hc Ht differs. split; [|split].
    + apply useFrame_differs; assumption.
    + apply useFrame_equal; assumption.
    + rewrite useFrame_target. exact Ht.
  - intros ls pick Hpick Hres. split.
    + intros d. rewrite (useFrame_residual pick d ls Hpick). split.
      * intros Hzero.
        apply Qmult_integral in Hzero as [Hzero | Hzero]; [lra | contradiction].
      * intros Hd. assert (Hfactor : 1 - 5 * d == 0) by lra.
        rewrite Hfactor. ring.
    + intros deltas Hall. apply frames_residual_nonzero; assumption.
Qed.

(** One frame of 1/60 s after a rotate command on a model at rest, and
    what remains of the X angle after it. *)
Lemma easing_step_and_no_snap_witness :
  currentRotation (useFrame (1 # 60) (@easing_start Q _))
  = (0 + (0 + Math_PI / 2 - 0) * (5 * (1 # 60)),
     0 + (0 - 0) * (5 * (1 # 60)),
     0 + (0 - 0) * (5 * (1 # 60))) /\
  ~ residual x_of (frames [1 # 60; 1 # 60] (@easing_start Q _)) == 0.
Proof.
  split.
  - exact (proj1 (proj1 easing_step_and_no_snap Q _ (1 # 60) easing_start
                    0 0 0 (0 + Math_PI / 2) 0 0 eq_refl eq_refl) eq_refl).
  - refine (proj2 (proj2 easing_step_and_no_snap easing_start x_of
                     (or_introl eq_refl) _) [1 # 60; 1 # 60] _).
    + discriminate.
    + repeat constructor; discriminate.
Defined.

(** C5 as stated fails.  For a frame of 0.2 seconds the ease factor
    [5 * 0.2] is 1, and the live rotation, which differed from the
    target, equals it after that one frame, in exact and in binary64
    arithmetic.  In binary64 arithmetic rounding ends the animation at
    other frame times too: with frames of 0.1 seconds the live X angle,
    still different after 53 frames, equals the target after 54. *)
Lemma easing_reaches_target_in_one_frame :
  ((x_of (currentRotation (@easing_start Q _))
    !== x_of (targetRotation (@easing_start Q _)))%js = true /\
   currentRotation (useFrame (num_lit 0.2) (@easing_start Q _))
   = (0 + (0 + Math_PI / 2 - 0) * (5 * 0.2), 0 + (0 - 0) * (5 * 0.2),
      0 + (0 - 0) * (5 * 0.2)) /\
   0 + (0 + Math_PI / 2 - 0) * (5 * 0.2)
   == x_of (targetRotation (useFrame (num_lit 0.2) (@easing_start Q _)))) /\
  ((x_of (currentRotation (@easing_start float _))
    !== x_of (targetRotation (@easing_start float _)))%js = true /\
   currentRotation (useFrame (num_lit 0.2) (@easing_start float _))
   = targetRotation (useFrame (num_lit 0.2) (@easing_start float _))) /\
  ((x_of (currentRotation (frames (repeat (num_lit 0.1) 53) (@easing_start float _)))
    !== x_of (targetRotation (@easing_start float _)))%js = true /\
   currentRotation (frames (repeat (num_lit 0.1) 54) (@easing_start float _))
   = targetRotation (@easing_start float _)).
Proof.
  split; [|split; [split; vm_compute; reflexivity|]].
  - split; [vm_compute; reflexivity|]. split; [reflexivity|].
    vm_compute. reflexivity.
  - split; vm_compute; reflexivity.
Qed.
End Easing.

(** ** The overlap map of a small registry *)

Section SmallRegistry.
Import App Scene Page.
Context {num : Type} `{JsNumber num}.

Lemma handle_length (a : Action num) (st : App.State num) :
  length (models (handle a st)) = length (models st).
Proof. destruct a; cbn; apply length_map. Qed.

(** With fewer than two models the effect returns before it builds a new
    map: the state keeps the value it had. *)
Lemma detectOverlaps_early_return (ms : list (ModelData num))
    (info : gmap string OverlapInfo) :
  (length ms < 2)%nat -> detectOverlaps ms info = info.
Proof.
  intros Hlen. unfold detectOverlaps.
  destruct (Nat.ltb_spec (length ms) 2); [reflexivity | lia].
Qed.

Lemma run_small (actions : list (Action num)) (pg : Page.State num) :
  (length (models (app pg)) < 2)%nat ->
  overlapInfo pg = ∅ ->
  let pg' := fold_left (fun pg a => step a pg) actions pg in
  (length (models (app pg')) < 2)%nat /\ overlapInfo pg' = ∅.
Proof.
  revert pg. induction actions as [|a actions IH]; intros pg Hlen Hempty.
  - cbn. split; assumption.
  - cbn [fold_left]. apply IH.
    + cbn [step app]. rewrite handle_length. exact Hlen.
    + cbn [step overlapInfo app]. rewrite detectOverlaps_early_return.
      * exact Hempty.
      * rewrite handle_length. exact Hlen.
Qed.

(** C6.  When the registry starts with fewer than two records, then after
    any sequence of selections and updates it still has fewer than two,
    the overlap map of the scene is empty, the effect returns it without
    comparing any pair, and every model is handed the report "not
    overlapping, with nobody". *)
Theorem fewer_than_two_models_no_overlap (init : App.State num)
    (actions : list (Action num)) :
  (length (models init) < 2)%nat ->
  let pg := run actions init in
  (length (models (app pg)) < 2)%nat /\
  overlapInfo pg = ∅ /\
  (forall info, detectOverlaps (models (app pg)) info = info) /\
  (forall model : ModelData num, overlapInfo_for (overlapInfo pg) model = no_overlap).
Proof.
  intros Hlen pg.
  destruct (run_small actions (mounted init)) as [Hlen' Hempty].
  - exact Hlen.
  - cbn [mounted overlapInfo]. apply detectOverlaps_early_return, Hlen.
  - fold (run actions init) in Hlen', Hempty. fold pg in Hlen', Hempty.
    split; [exact Hlen'|]. split; [exact Hempty|]. split.
    + intros info. apply detectOverlaps_early_return, Hlen'.
    + intros model. unfold overlapInfo_for. rewrite Hempty, lookup_empty. reflexivity.
Qed.
End SmallRegistry.

(** A registry of one model, selected and then raised. *)
Lemma fewer_than_two_models_no_overlap_witness :
  Page.overlapInfo
    (Page.run [Page.Select (Some "model-1");
               Page.Update "model-1"
                 (snd (Controls.adjustHeight initial_model_1 Controls.Up))]
              single_registry)
  = ∅.
Proof.
  refine (proj1 (proj2 (fewer_than_two_models_no_overlap single_registry _ _))).
  cbn. lia.
Defined.

(** ** The render of one model *)

Section Rendering.
Import Three BuildingModel.
Context {num : Type} `{JsNumber num}.

(** Induction on an object with the property assumed of its children. *)
Lemma Object3D_nested_ind (P : Object3D num -> Prop) :
  (forall cs rs mat children, Forall P children -> P (Mesh cs rs mat children)) ->
  (forall children, Forall P children -> P (Node children)) ->
  forall o, P o.
Proof.
  intros HMesh HNode. fix IH 1. intros [cs rs mat children | children].
  - apply HMesh. revert children.
    fix IHc 1. intros [|c children]; constructor; [apply IH | apply IHc].
  - apply HNode. revert children.
    fix IHc 1. intros [|c children]; constructor; [apply IH | apply IHc].
Qed.

Lemma ghost_Mesh v data cs rs mat children :
  ghost v data (Mesh cs rs mat children) =
  match first_material mat with
  | None => None
  | Some original =>
      match mapM (ghost v data) children with
      | None => None
      | Some children' =>
          Some (Mesh false false
                  match original with
                  | None => mat
                  | Some m => OneMaterial (ghost_material v data m)
                  end children')
      end
  end.
Proof. reflexivity. Qed.

Lemma ghost_Node v data children :
  ghost v data (Node children) =
  match mapM (ghost v data) children with
  | None => None
  | Some children' => Some (Node children')
  end.
Proof. reflexivity. Qed.

Lemma ghost_material_like v data (m : Material num) :
  ghost_like (ghost_material v data m).
Proof. unfold ghost_like. cbn. tauto. Qed.

(** The overlap clone has the geometry of the scene, and every material
    in it is the transparent one. *)
Lemma ghost_spec v data (o : Object3D num) :
  forall g, ghost v data o = Some g ->
            shape g = shape o /\ Forall ghost_like (materials g).
Proof.
  induction o as [cs rs mat children IH | children IH] using Object3D_nested_ind;
    intros g Hg.
  - rewrite ghost_Mesh in Hg.
    destruct (first_material mat) as [original|] eqn:Hfirst; [|discriminate].
    destruct (mapM (ghost v data) children) as [children'|] eqn:Hch; [|discriminate].
    injection Hg as <-.
    apply mapM_Some_1 in Hch.
    assert (Hchildren : map shape children' = map shape children /\
                        Forall ghost_like (flat_map materials children')).
    { induction Hch as [|c c' cs' cs'' Hc Hcs IHcs]; [split; constructor|].
      apply Forall_cons in IH as [IHc IH].
      destruct (IHc c' Hc) as [Hshape Hmats].
      destruct (IHcs IH) as [Hshapes Hmatss].
      cbn. split; [congruence | apply Forall_app; split; assumption]. }
    destruct Hchildren as [Hshapes Hmats].
    cbn [shape materials]. rewrite Hshapes. split.
    + f_equal. destruct mat as [|m|[|m ms]]; cbn in Hfirst; try discriminate;
        injection Hfirst as <-; reflexivity.
    + apply Forall_app. split; [|exact Hmats].
      destruct original as [m|].
      * cbn. apply Forall_cons. split; [apply ghost_material_like | constructor].
      * destruct mat as [|m|[|m ms]]; cbn in Hfirst; try discriminate. constructor.
  - rewrite ghost_Node in Hg.
    destruct (mapM (ghost v data) children) as [children'|] eqn:Hch; [|discriminate].
    injection Hg as <-.
    apply mapM_Some_1 in Hch.
    assert (Hchildren : map shape children' = map shape children /\
                        Forall ghost_like (flat_map materials children')).
    { induction Hch as [|c c' cs' cs'' Hc Hcs IHcs]; [split; constructor|].
      apply Forall_cons in IH as [IHc IH].
      destruct (IHc c' Hc) as [Hshape Hmats].
      destruct (IHcs IH) as [Hshapes Hmatss].
      cbn. split; [congruence | apply Forall_app; split; assumption]. }
    destruct Hchildren as [Hshapes Hmats].
    cbn [shape materials]. rewrite Hshapes. split; [reflexivity | exact Hmats].
Qed.

(** The traversal throws only at a mesh with an empty material array. *)
Lemma ghost_total v data (o : Object3D num) :
  well_formed o = true -> is_Some (ghost v data o).
Proof.
  induction o as [cs rs mat children IH | children IH] using Object3D_nested_ind;
    intros Hwf; cbn [well_formed] in Hwf.
  - apply andb_true_iff in Hwf as [Hmat Hch].
    rewrite ghost_Mesh.
    assert (Hchildren : is_Some (mapM (ghost v data) children)).
    { apply mapM_is_Some_2. rewrite forallb_forall in Hch.
      rewrite Forall_forall in IH |- *. intros c Hc.
      apply IH; [exact Hc|]. apply Hch, list_elem_of_In, Hc. }
    destruct Hchildren as [children' ->].
    destruct mat as [|m|[|m ms]]; cbn in Hmat |- *; try discriminate; eexists; reflexivity.
  - rewrite ghost_Node.
    assert (Hchildren : is_Some (mapM (ghost v data) children)).
    { apply mapM_is_Some_2. rewrite forallb_forall in Hwf.
      rewrite Forall_forall in IH |- *. intros c Hc.
      apply IH; [exact Hc|]. apply Hwf, list_elem_of_In, Hc. }
    destruct Hchildren as [children' ->]. eexists; reflexivity.
Qed.

(** The traversal of the overlap clone throws exactly when some mesh of
    the scene has an empty material array. *)
Lemma ghost_well_formed v data (o : Object3D num) :
  is_Some (ghost v data o) -> well_formed o = true.
Proof.
  induction o as [cs rs mat children IH | children IH] using Object3D_nested_ind;
    intros Hsome; cbn [well_formed].
  - rewrite ghost_Mesh in Hsome.
    destruct (first_material mat) as [original|] eqn:Hfirst;
      [|destruct Hsome as [g Hg]; discriminate Hg].
    destruct (mapM (ghost v data) children) as [children'|] eqn:Hch;
      [|destruct Hsome as [g Hg]; discriminate Hg].
    apply andb_true_iff. split.
    + destruct mat as [|m|[|m ms]]; cbn in Hfirst; try discriminate; reflexivity.
    + apply forallb_forall. intros c Hc.
      assert (Hall : Forall (fun c => is_Some (ghost v data c)) children).
      { apply mapM_is_Some_1. rewrite Hch. eexists; reflexivity. }
      rewrite Forall_forall in IH, Hall. apply list_elem_of_In in Hc.
      apply IH; [exact Hc | apply Hall, Hc].
  - rewrite ghost_Node in Hsome.
    destruct (mapM (ghost v data) children) as [children'|] eqn:Hch;
      [|destruct Hsome as [g Hg]; discriminate Hg].
    apply forallb_forall. intros c Hc.
    assert (Hall : Forall (fun c => is_Some (ghost v data c)) children).
    { apply mapM_is_Some_1. rewrite Hch. eexists; reflexivity. }
    rewrite Forall_forall in IH, Hall. apply list_elem_of_In in Hc.
    apply IH; [exact Hc | apply Hall, Hc].
Qed.

Lemma content_throws (COLORS_selection : string) v data
    (overlapInfo : Scene.OverlapInfo) (scene : Object3D num) (ls : LocalState num) :
  BuildingModelContent COLORS_selection v data overlapInfo scene ls = Thrown <->
  Scene.isOverlapping overlapInfo = true /\ well_formed scene = false.
Proof.
  unfold BuildingModelContent, overlapClone.
  destruct (Scene.isOverlapping overlapInfo); cbn [negb].
  - destruct (ghost v data scene) as [g|] eqn:Hg.
    + assert (Hwf : well_formed scene = true)
        by (apply (ghost_well_formed v data); rewrite Hg; eexists; reflexivity).
      rewrite Hwf. destruct (visible data); cbn [negb];
        split; [discriminate | intros [_ ?]; discriminate
               | discriminate | intros [_ ?]; discriminate].
    + split; [|reflexivity]. intros _. split; [reflexivity|].
      destruct (well_formed scene) eqn:Hwf; [|reflexivity].
      destruct (ghost_total v data scene Hwf) as [g Hg']. congruence.
  - destruct (visible data); cbn [negb];
      split; [discriminate | intros [? _]; discriminate
             | discriminate | intros [? _]; discriminate].
Qed.

(** The component returns null exactly for a hidden model whose overlap
    clone can be built. *)
Lemma content_null (COLORS_selection : string) v data
    (overlapInfo : Scene.OverlapInfo) (scene : Object3D num) (ls : LocalState num) :
  BuildingModelContent COLORS_selection v data overlapInfo scene ls = Null <->
  visible data = false /\
  (Scene.isOverlapping overlapInfo = false \/ well_formed scene = true).
Proof.
  pose proof (content_throws COLORS_selection v data overlapInfo scene ls) as Hthrows.
  unfold BuildingModelContent in *.
  destruct (overlapClone v data overlapInfo scene) as [clone|].
  - assert (Hok : Scene.isOverlapping overlapInfo = false \/ well_formed scene = true).
    { destruct (Scene.isOverlapping overlapInfo); [|left; reflexivity].
      destruct (well_formed scene); [right; reflexivity|].
      destruct Hthrows as [_ Hthrows].
      destruct (visible data); cbn [negb] in Hthrows;
        discriminate (Hthrows (conj eq_refl eq_refl)). }
    destruct (visible data); cbn [negb].
    + split; [discriminate | intros [? _]; discriminate].
    + split; [intros _; split; [reflexivity | exact Hok] | reflexivity].
  - destruct Hthrows as [Hthrows _]. destruct (Hthrows eq_refl) as [Hover Hbad].
    split; [discriminate|]. intros [_ [Hno | Hwf]]; congruence.
Qed.

(** The primary clone keeps the geometry of the scene, and its materials
    are those of the scene, each made solid. *)
Lemma primary_spec v data (o : Object3D num) :
  shape (primary v data o) = shape o /\
  materials (primary v data o) = map (solid v data) (materials o).
Proof.
  unfold primary.
  induction o as [cs rs mat children IH | children IH] using Object3D_nested_ind.
  - cbn [traverse solid_mesh shape materials].
    assert (Hchildren :
      map shape (map (traverse (solid_mesh v data)) children) = map shape children /\
      flat_map materials (map (traverse (solid_mesh v data)) children)
      = map (solid v data) (flat_map materials children)).
    { induction IH as [|c cs' [Hc1 Hc2] _ IHcs]; [split; reflexivity|].
      destruct IHcs as [H1 H2]. cbn. rewrite map_app. split; congruence. }
    destruct Hchildren as [-> ->]. rewrite map_app. split.
    + destruct mat; reflexivity.
    + destruct mat; reflexivity.
  - cbn [traverse shape materials].
    assert (Hchildren :
      map shape (map (traverse (solid_mesh v data)) children) = map shape children /\
      flat_map materials (map (traverse (solid_mesh v data)) children)
      = map (solid v data) (flat_map materials children)).
    { induction IH as [|c cs' [Hc1 Hc2] _ IHcs]; [split; reflexivity|].
      destruct IHcs as [H1 H2]. cbn. rewrite map_app. split; congruence. }
    destruct Hchildren as [-> ->]. split; reflexivity.
Qed.

Lemma solid_spec v (data : ModelData num) (m : Material num) :
  if drawn_translucent v data
  then translucent_depth_writing (solid v data m)
  else opaque_depth_writing (solid v data m).
Proof.
  destruct v; cbn [drawn_translucent solid].
  - unfold opaque_depth_writing. cbn. tauto.
  - unfold solid_v2.
    destruct (String.eqb_spec (name data) "锚定") as [-> | _].
    + cbn. unfold opaque_depth_writing. cbn. tauto.
    + destruct (String.eqb (name data) "现实").
      * unfold translucent_depth_writing. cbn. tauto.
      * unfold opaque_depth_writing. cbn. tauto.
Qed.

(** C8 (as amended).  One render of the component, on a scene in which
    no mesh has an empty material array.  For a visible model the render is
    a group whose first primitive is the primary instance: the geometry of
    the scene with depth-writing materials, opaque (opacity 1.0, not
    transparent) except for a model named for the translucent role in
    variant 2, whose primary has opacity 0.6 and is transparent.  When the
    overlap report says overlapping, exactly one more primitive follows,
    the ghost: the same geometry with every material at opacity 0.4,
    transparent, not depth-writing, back side only, additive blending.
    When the report says not overlapping, no ghost follows.  For a hidden
    model the render is null: neither primary nor ghost. *)
Theorem overlap_ghost (COLORS_selection : string) (v : Variant)
    (data : ModelData num) (overlapInfo : Scene.OverlapInfo)
    (scene : Object3D num) (ls : LocalState num) :
  well_formed scene = true ->
  (visible data = true ->
   exists (r : Rendered num) (ghosts : list (Object3D num)),
     BuildingModelContent COLORS_selection v data overlapInfo scene ls = Group r /\
     primitives r = primary v data scene :: ghosts /\
     shape (primary v data scene) = shape scene /\
     Forall (fun m => if drawn_translucent v data
                      then translucent_depth_writing m
                      else opaque_depth_writing m)
            (materials (primary v data scene)) /\
     (Scene.isOverlapping overlapInfo = true ->
        exists g, ghosts = [g] /\ shape g = shape scene /\
                  Forall ghost_like (materials g)) /\
     (Scene.isOverlapping overlapInfo = false -> ghosts = [])) /\
  (visible data = false ->
   BuildingModelContent COLORS_selection v data overlapInfo scene ls = Null).
Proof.
  intros Hwf. split.
  - intros Hvis.
    destruct (primary_spec v data scene) as [Hshape Hmats].
    assert (Hprimary : Forall (fun m => if drawn_translucent v data
                                        then translucent_depth_writing m
                                        else opaque_depth_writing m)
                              (materials (primary v data scene))).
    { rewrite Hmats. apply Forall_fmap, Forall_forall. intros m _. apply solid_spec. }
    destruct (ghost_total v data scene Hwf) as [g Hg].
    destruct (ghost_spec v data scene g Hg) as [Hgshape Hgmats].
    unfold BuildingModelContent, overlapClone. rewrite Hvis, Hg. cbn [negb].
    destruct (Scene.isOverlapping overlapInfo); cbn [negb].
    + eexists. exists [g]. split; [reflexivity|]. cbn [primitives].
      split; [reflexivity|]. split; [exact Hshape|]. split; [exact Hprimary|].
      split; [|discriminate]. intros _. exists g. auto.
    + eexists. exists []. split; [reflexivity|]. cbn [primitives].
      split; [reflexivity|]. split; [exact Hshape|]. split; [exact Hprimary|].
      split; [discriminate | reflexivity].
  - intros Hvis. apply content_null. split; [exact Hvis | right; exact Hwf].
Qed.
End Rendering.

(** A visible, overlapping model with a scene of one mesh: a primary and
    one ghost. *)
Lemma overlap_ghost_witness :
  exists (r : BuildingModel.Rendered Q) (g : Three.Object3D Q),
    BuildingModel.BuildingModelContent "#3b82f6" BuildingModel.V1 at_rest
      overlapping one_mesh (BuildingModel.mount at_rest)
    = BuildingModel.Group r /\
    BuildingModel.primitives r
    = [BuildingModel.primary BuildingModel.V1 at_rest one_mesh; g] /\
    Forall ghost_like (materials g).
Proof.
  destruct (proj1 (overlap_ghost "#3b82f6" BuildingModel.V1 (@at_rest Q _)
                     overlapping one_mesh (BuildingModel.mount at_rest) eq_refl)
              eq_refl)
    as (r & ghosts & Hr & Hprims & _ & _ & Hover & _).
  destruct (Hover eq_refl) as (g & -> & _ & Hmats).
  exists r, g. split; [exact Hr|]. split; [exact Hprims | exact Hmats].
Defined.

(** C8 as stated fails in three ways.  An overlapping model that is
    hidden renders nothing, neither primary nor ghost.  In variant 2 the
    primary of an overlapping model named for the translucent role is not
    opaque: its material has opacity 0.6 and is transparent.  And for an
    overlapping model whose scene has a mesh with an empty material array
    the overlap clone cannot be built: the render throws, and produces
    neither primary nor ghost. *)
Lemma overlapping_without_ghost_or_opaque_primary :
  BuildingModel.BuildingModelContent "#3b82f6" BuildingModel.V1
    (with_visible false (@at_rest Q _)) overlapping one_mesh
    (BuildingModel.mount at_rest)
  = BuildingModel.Null /\
  (exists (r : BuildingModel.Rendered Q) (primary_ ghost_ : Three.Object3D Q)
          (m : Three.Material Q),
     BuildingModel.BuildingModelContent "#3b82f6" BuildingModel.V2 reality
       overlapping one_mesh (BuildingModel.mount reality)
     = BuildingModel.Group r /\
     BuildingModel.primitives r = [primary_; ghost_] /\
     materials primary_ = [m] /\
     Three.opacity m = 0.6 /\ Three.transparent m = true /\
     ~ opaque_depth_writing m) /\
  BuildingModel.BuildingModelContent "#3b82f6" BuildingModel.V1
    (@at_rest Q _) overlapping empty_material_scene (BuildingModel.mount at_rest)
  = BuildingModel.Thrown.
Proof.
  split; [reflexivity|]. split; [|reflexivity].
  do 4 eexists. split; [reflexivity|]. split; [reflexivity|].
  split; [reflexivity|]. split; [reflexivity|]. split; [reflexivity|].
  intros (Hopacity & _). discriminate Hopacity.
Qed.
(** ** The overlap report and the memoised components *)

Section Screen.
Import App Page Screen.
Context {num : Type} `{JsNumber num}.
Variable JSON_stringify : ModelData num -> string.

(** New props with the data already shown are not rendered. *)
Lemma memo_same_data (shown_ next : Props num) :
  data next = data shown_ -> memo JSON_stringify shown_ next = shown_.
Proof.
  intros Hdata. unfold memo, arePropsEqual.
  rewrite Hdata, String.eqb_refl. reflexivity.
Qed.

(** A second offer with the same data changes nothing. *)
Lemma memo_again (shown_ next1 next2 : Props num) :
  data next2 = data next1 ->
  memo JSON_stringify (memo JSON_stringify shown_ next1) next2
  = memo JSON_stringify shown_ next1.
Proof.
  intros Hdata. unfold memo at 2 3. unfold arePropsEqual.
  destruct (String.eqb_spec (JSON_stringify (data shown_))
                            (JSON_stringify (data next1))) as [Heq | Hne]; cbn [andb].
  - unfold memo, arePropsEqual. rewrite Hdata, Heq, String.eqb_refl.
    reflexivity.
  - apply memo_same_data. exact Hdata.
Qed.

Lemma zip_memo_same_data (ms : list (ModelData num))
    (info : gmap string Scene.OverlapInfo) :
  forall info',
    zip_with (memo JSON_stringify) (scene_props ms info') (scene_props ms info)
    = scene_props ms info'.
Proof.
  intros info'. unfold scene_props.
  induction ms as [|m ms IH]; [reflexivity|].
  cbn [map zip_with]. rewrite IH, memo_same_data; reflexivity.
Qed.

Lemma zip_memo_again (ms : list (ModelData num))
    (info info' : gmap string Scene.OverlapInfo) (showns : list (Props num)) :
  zip_with (memo JSON_stringify)
    (zip_with (memo JSON_stringify) showns (scene_props ms info))
    (scene_props ms info')
  = zip_with (memo JSON_stringify) showns (scene_props ms info).
Proof.
  unfold scene_props. revert showns.
  induction ms as [|m ms IH]; intros [|p showns]; try reflexivity.
  cbn [map zip_with]. rewrite IH, memo_again; reflexivity.
Qed.

Lemma mounted_shown (init : App.State num) :
  shown (Screen.mounted JSON_stringify init) = scene_props (models init) ∅.
Proof. cbn [Screen.mounted shown]. apply zip_memo_same_data. Qed.

(** The overlap report reaches the screen one data change late.  After
    the page has mounted, every component is shown with the props of the
    first render, whose report is "not overlapping", whatever map the
    effect has computed since; and after an action every component is
    shown as the render before the effect left it: the render that follows
    the effect offers the same data and is skipped by the comparison. *)
Theorem report_waits_for_a_data_change :
  (forall init : App.State num,
      shown (Screen.mounted JSON_stringify init) = scene_props (models init) ∅ /\
      Forall (fun p => overlapInfo p = Scene.no_overlap)
             (shown (Screen.mounted JSON_stringify init))) /\
  (forall (a : Action num) (st : Screen.State num),
      shown (Screen.step JSON_stringify a st)
      = zip_with (memo JSON_stringify) (shown st)
          (scene_props (models (handle a (app (page st))))
                       (Page.overlapInfo (page st)))).
Proof.
  split.
  - intros init. rewrite mounted_shown. split; [reflexivity|].
    unfold scene_props. apply Forall_fmap, Forall_forall. intros m _.
    cbn. unfold Scene.overlapInfo_for. rewrite lookup_empty. reflexivity.
  - intros a st. cbn [Screen.step shown]. apply zip_memo_again.
Qed.
End Screen.

(** After the initial registry has mounted, the overlap map reports both
    models as overlapping, each with the other, in exact and in binary64
    arithmetic; the render of either component with the props it is shown
    with has the primary alone, and no ghost. *)
Lemma initial_overlap_is_not_shown (JSON_stringify : ModelData Q -> string) :
  let st := Screen.mounted JSON_stringify registry0 in
  Page.overlapInfo (Screen.page st) !! "model-1" = Some (report_of ["model-2"]) /\
  Page.overlapInfo (Screen.page st) !! "model-2" = Some (report_of ["model-1"]) /\
  Scene.detectOverlaps (App.models (@App.initial float _ "one.glb" "two.glb")) ∅
    !! "model-1" = Some (report_of ["model-2"]) /\
  forall p, p ∈ Screen.shown st ->
    exists r,
      BuildingModel.BuildingModelContent "#3b82f6" BuildingModel.V2
        (Screen.data p) (Screen.overlapInfo p) one_mesh
        (BuildingModel.mount (Screen.data p))
      = BuildingModel.Group r /\
      BuildingModel.primitives r
      = [BuildingModel.primary BuildingModel.V2 (Screen.data p) one_mesh].
Proof.
  intros st.
  split; [vm_compute; reflexivity|]. split; [vm_compute; reflexivity|].
  split; [vm_compute; reflexivity|].
  intros p Hp. subst st.
  rewrite mounted_shown in Hp.
  cbn in Hp. apply elem_of_cons in Hp as [-> | Hp].
  - eexists. split; reflexivity.
  - apply list_elem_of_singleton in Hp as ->. eexists. split; reflexivity.
Qed.
(** ** Drag gestures *)

Section GestureFacts.
Import App BuildingModel Gesture.
Context {num : Type} `{JsNumber num}.
Implicit Types (m data : ModelData num) (st : App.State num)
  (e : DragEvent num) (events : list (DragEvent num)).

(** What [onDrag] does for a selected and for an unselected model. *)
Lemma onDrag_selected v data (movement_ : num * num) (touches_ : nat)
    (memo : option (Memo num)) :
  selected data = true ->
  fst (onDrag v data movement_ touches_ memo) = memo_or_initial data memo /\
  calls (snd (onDrag v data movement_ touches_ memo))
  = match drag_position v touches_ (initialPos (memo_or_initial data memo)) movement_ with
    | Some p => [OnUpdate (id data) (position_patch p)]
    | None => []
    end.
Proof.
  intros Hsel. destruct movement_ as [dx dy].
  destruct v; cbn [onDrag]; unfold onDrag_v1, onDrag_v2, drag_position;
    destruct (initialPos (memo_or_initial data memo)) as [[x0 y0] z0];
    rewrite ?Hsel; cbn [negb].
  - destruct touches_ as [|[|[|t]]]; split; reflexivity.
  - destruct touches_ as [|[|t]]; split; reflexivity.
Qed.

Lemma onDrag_unselected v data (movement_ : num * num) (touches_ : nat)
    (memo : option (Memo num)) :
  selected data = false ->
  fst (onDrag v data movement_ touches_ memo) = memo_or_initial data memo /\
  calls (snd (onDrag v data movement_ touches_ memo)) = [].
Proof.
  intros Hsel. destruct movement_ as [dx dy].
  destruct v; cbn [onDrag]; unfold onDrag_v1, onDrag_v2;
    destruct (initialPos (memo_or_initial data memo)) as [[x0 y0] z0];
    rewrite ?Hsel; cbn [negb].
  - split; reflexivity.
  - destruct (touches_ =? 1)%nat; split; reflexivity.
Qed.

Lemma onDragStart_calls v data (touches_ : nat) :
  calls (onDragStart v data touches_)
  = if selects v touches_ && negb (selected data) then [OnSelect (id data)] else [].
Proof.
  destruct v; cbn [onDragStart selects]; unfold onDragStart_v1, onDragStart_v2.
  - reflexivity.
  - destruct (touches_ =? 1)%nat; reflexivity.
Qed.

(** A later position update for the same identifier replaces an earlier one. *)
Lemma moved_to_again (i : string) (p : Triple num) (q : option (Triple num)) st :
  handleUpdateModel i (position_patch p) (moved_to i q st)
  = handleUpdateModel i (position_patch p) st.
Proof.
  destruct q as [q|]; [|reflexivity].
  unfold moved_to, handleUpdateModel. cbn [models selectedId]. f_equal.
  rewrite map_map. apply map_ext. intros m. unfold update.
  destruct (String.eqb (id m) i) eqn:Hi; [|rewrite Hi; reflexivity].
  cbn [spread id position_patch id_opt default]. rewrite Hi. reflexivity.
Qed.

Lemma moved_to_lookup (i : string) (q : option (Triple num)) st (k : nat) data :
  models st !! k = Some data -> id data = i ->
  models (moved_to i q st) !! k
  = Some (match q with Some p => with_position p data | None => data end).
Proof.
  intros Hk Hid. destruct q as [q|]; [|exact Hk].
  cbn [moved_to handleUpdateModel models]. rewrite list_lookup_fmap, Hk.
  cbn. unfold update. rewrite Hid, String.eqb_refl. reflexivity.
Qed.

(** The later events of a gesture on a selected model whose memo is the
    anchor of the gesture. *)
Lemma drag_events_selected v (k : nat) events st data (anchor : Memo num)
    (q : option (Triple num)) :
  models st !! k = Some data -> selected data = true ->
  drag_events v k events (moved_to (id data) q st, Some anchor)
  = (moved_to (id data)
       (fold_left
          (fun acc e =>
             match drag_position v (touches e) (initialPos anchor) (movement e) with
             | Some p => Some p
             | None => acc
             end) events q) st,
     Some anchor).
Proof.
  intros Hk Hsel. revert q. induction events as [|e events IH]; intros q.
  - reflexivity.
  - unfold drag_events in *. cbn [fold_left]. unfold drag_event at 2.
    rewrite (moved_to_lookup _ q _ _ _ Hk eq_refl).
    set (data' := match q with Some p => with_position p data | None => data end).
    assert (Hsel' : selected data' = true) by (subst data'; destruct q; exact Hsel).
    assert (Hid' : id data' = id data) by (subst data'; destruct q; reflexivity).
    destruct (onDrag_selected v data' (movement e) (touches e) (Some anchor) Hsel')
      as [Hmemo Hcalls].
    destruct (onDrag v data' (movement e) (touches e) (Some anchor))
      as [memo' handled] eqn:Hdrag.
    cbn [fst snd] in Hmemo, Hcalls.
    change (memo_or_initial data' (Some anchor)) with anchor in Hmemo, Hcalls.
    subst memo'. unfold run_calls. rewrite Hcalls, Hid'.
    destruct (drag_position v (touches e) (initialPos anchor) (movement e)) as [p|].
    + cbn [fold_left run_call]. rewrite moved_to_again.
      apply (IH (Some p)).
    + cbn [fold_left]. apply IH.
Qed.

(** The first event of a gesture on a selected model. *)
Lemma drag_event_first_selected v (k : nat) e st data :
  models st !! k = Some data -> selected data = true ->
  drag_event v k true e st None
  = (moved_to (id data)
       (drag_position v (touches e) (position data) (movement e)) st,
     Some {| initialPos := position data; initialRot := rotation data |}).
Proof.
  intros Hk Hsel. unfold drag_event. rewrite Hk.
  destruct (onDrag_selected v data (movement e) (touches e) None Hsel)
    as [Hmemo Hcalls].
  destruct (onDrag v data (movement e) (touches e) None) as [memo' handled].
  cbn [fst snd] in Hmemo, Hcalls.
  change (memo_or_initial data None)
    with {| initialPos := position data; initialRot := rotation data |}
    in Hmemo, Hcalls.
  cbn [initialPos] in Hcalls. subst memo'. unfold run_calls. rewrite Hcalls, onDragStart_calls, Hsel.
  rewrite andb_false_r. cbn [fold_left].
  destruct (drag_position v (touches e) (position data) (movement e));
    reflexivity.
Qed.

Lemma drag_selected v (k : nat) events st data :
  models st !! k = Some data -> selected data = true ->
  drag v k events st
  = moved_to (id data) (last_position v (position data) events) st.
Proof.
  intros Hk Hsel. destruct events as [|e events]; [reflexivity|].
  cbn [drag]. rewrite (drag_event_first_selected v k e st data Hk Hsel).
  rewrite (drag_events_selected v k events st data _ _ Hk Hsel).
  cbn [fst initialPos]. unfold last_position. cbn [fold_left].
  destruct (drag_position v (touches e) (position data) (movement e));
    reflexivity.
Qed.

(** The first event of a gesture on an unselected model. *)
Lemma drag_event_first_unselected v (k : nat) e st data :
  models st !! k = Some data -> selected data = false ->
  drag_event v k true e st None
  = (if selects v (touches e) then handleSelectModel (Some (id data)) st else st,
     Some {| initialPos := position data; initialRot := rotation data |}).
Proof.
  intros Hk Hsel. unfold drag_event. rewrite Hk.
  destruct (onDrag_unselected v data (movement e) (touches e) None Hsel)
    as [Hmemo Hcalls].
  destruct (onDrag v data (movement e) (touches e) None) as [memo' handled].
  cbn [fst snd] in Hmemo, Hcalls.
  change (memo_or_initial data None)
    with {| initialPos := position data; initialRot := rotation data |} in Hmemo.
  subst memo'. unfold run_calls. rewrite Hcalls, onDragStart_calls, Hsel.
  rewrite andb_true_r. cbn [fold_left].
  destruct (selects v (touches e)); reflexivity.
Qed.

(** The later events of a gesture on a model that stays unselected. *)
Lemma drag_events_unselected v (k : nat) events st data (memo : Memo num) :
  models st !! k = Some data -> selected data = false ->
  drag_events v k events (st, Some memo) = (st, Some memo).
Proof.
  intros Hk Hsel. induction events as [|e events IH]; [reflexivity|].
  unfold drag_events in *. cbn [fold_left]. unfold drag_event at 2. rewrite Hk.
  destruct (onDrag_unselected v data (movement e) (touches e) (Some memo) Hsel)
    as [Hmemo Hcalls].
  destruct (onDrag v data (movement e) (touches e) (Some memo)) as [memo' handled].
  cbn [fst snd] in Hmemo, Hcalls.
  change (memo_or_initial data (Some memo)) with memo in Hmemo.
  subst memo'. unfold run_calls. rewrite Hcalls. cbn [fold_left]. exact IH.
Qed.

Lemma select_lookup (i : option string) st (k : nat) data :
  models st !! k = Some data ->
  models (handleSelectModel i st) !! k = Some (select i data).
Proof.
  intros Hk. cbn [handleSelectModel models]. rewrite list_lookup_fmap, Hk.
  reflexivity.
Qed.

Lemma drag_unselected v (k : nat) e events st data :
  models st !! k = Some data -> selected data = false ->
  drag v k (e :: events) st
  = if selects v (touches e)
    then drag v k events (handleSelectModel (Some (id data)) st)
    else st.
Proof.
  intros Hk Hsel. cbn [drag].
  rewrite (drag_event_first_unselected v k e st data Hk Hsel).
  destruct (selects v (touches e)).
  - set (st' := handleSelectModel (Some (id data)) st).
    assert (Hk' : models st' !! k = Some (select (Some (id data)) data))
      by apply select_lookup, Hk.
    assert (Hsel' : selected (select (Some (id data)) data) = true)
      by (cbn; apply String.eqb_refl).
    destruct events as [|e2 events]; [reflexivity|].
    cbn [drag]. rewrite (drag_event_first_selected v k e2 st' _ Hk' Hsel').
    cbn [select id position rotation].
    pose proof (drag_events_selected v k (e2 :: events) st' _
                  {| initialPos := position data; initialRot := rotation data |}
                  None Hk' Hsel') as Hall.
    cbn [moved_to select id] in Hall. rewrite Hall.
    rewrite (drag_events_selected v k events st' _ _ _ Hk' Hsel').
    cbn [fst select id initialPos fold_left].
    destruct (drag_position v (touches e2) (position data) (movement e2));
      reflexivity.
  - rewrite (drag_events_unselected v k events st data _ Hk Hsel). reflexivity.
Qed.
End GestureFacts.
(** ** The interface: what its events can do to the registry *)

Section InterfaceFacts.
Import App BuildingModel Controls.
Context {num : Type} `{JsNumber num}.
Implicit Types (m data model : ModelData num) (st : App.State num)
  (ev : Interface.Event num) (u : Partial_ModelData num).

Lemma last_position_source v (anchor : Triple num)
    (events : list (Gesture.DragEvent num)) (p : Triple num) :
  last_position v anchor events = Some p ->
  exists e, e ∈ events /\
    drag_position v (Gesture.touches e) anchor (Gesture.movement e) = Some p.
Proof.
  unfold last_position.
  assert (Hgen : forall acc,
    fold_left
      (fun acc e =>
         match drag_position v (Gesture.touches e) anchor (Gesture.movement e) with
         | Some p => Some p
         | None => acc
         end) events acc = Some p ->
    acc = Some p \/
    exists e, e ∈ events /\
      drag_position v (Gesture.touches e) anchor (Gesture.movement e) = Some p).
  { induction events as [|e events IH]; intros acc Hfold; [left; exact Hfold|].
    cbn [fold_left] in Hfold. destruct (IH _ Hfold) as [Hacc | (e' & He' & Hp)].
    - destruct (drag_position v (Gesture.touches e) anchor (Gesture.movement e))
        as [p'|] eqn:He.
      + right. exists e. split; [left | congruence].
      + left. exact Hacc.
    - right. exists e'. split; [right; exact He' | exact Hp]. }
  intros Hlast. destruct (Hgen None Hlast) as [Hnone | Hsome];
    [discriminate Hnone | exact Hsome].
Qed.

Lemma fst_rotateModel model axis : fst (rotateModel model axis) = id model.
Proof.
  unfold rotateModel. destruct (rotation model) as [[r0 r1] r2], axis; reflexivity.
Qed.

Lemma fst_rotateClockwise model : fst (rotateClockwise model) = id model.
Proof. unfold rotateClockwise. destruct (rotation model) as [[r0 r1] r2]. reflexivity. Qed.

Lemma fst_adjustHeight model direction : fst (adjustHeight model direction) = id model.
Proof.
  unfold adjustHeight. destruct (position model) as [[p0 p1] p2], direction; reflexivity.
Qed.

(** An event is a sequence of selections, of nothing or of a model of
    the registry, and of the updates it issues: what every such selection
    keeps, and every issued update establishes from it, holds after the
    event. *)
Lemma handle_invariant v ev (P P' : App.State num -> Prop) :
  (forall st, P st -> P' st) ->
  (forall i st, P st ->
     i = None \/ (exists m, m ∈ models st /\ i = Some (id m)) ->
     P (handleSelectModel i st)) ->
  (forall st model u, P st -> model ∈ models st -> issued v ev model u ->
     P' (handleUpdateModel (id model) u st)) ->
  forall st, P st -> P' (Interface.handle v ev st).
Proof.
  intros Hweak Hselect Hupdate st HP.
  destruct ev as [k | | type | k events | k axis | k | k | k direction];
    cbn [Interface.handle]; unfold Interface.with_model.
  - destruct (models st !! k) as [data|] eqn:Hk; [|apply Hweak, HP].
    destruct (visible data); [|apply Hweak, HP].
    apply Hweak, (Hselect (Some (id data))); [exact HP|].
    right. exists data. split; [|reflexivity].
    apply list_elem_of_lookup. exists k. exact Hk.
  - apply Hweak, (Hselect None); [exact HP | left; reflexivity].
  - destruct (String.eqb type "click"); apply Hweak; [|exact HP].
    apply (Hselect None); [exact HP | left; reflexivity].
  - destruct (models st !! k) as [data|] eqn:Hk; [|apply Hweak, HP].
    destruct (visible data); [|apply Hweak, HP].
    assert (Hmoved : forall st' data', P st' -> models st' !! k = Some data' ->
              selected data' = true ->
              P' (Gesture.drag v k events st')).
    { intros st' data' HP' Hk' Hsel'. rewrite (drag_selected v k _ st' data' Hk' Hsel').
      destruct (last_position v (position data') events) as [p|] eqn:Hlast;
        [|apply Hweak, HP'].
      cbn [moved_to]. apply Hupdate; [exact HP' | |].
      - apply list_elem_of_lookup. exists k. exact Hk'.
      - destruct (last_position_source v _ _ _ Hlast) as (e & _ & He).
        exists (Gesture.touches e), (Gesture.movement e), p.
        split; [exact He | reflexivity]. }
    destruct (selected data) eqn:Hsel; [apply (Hmoved st data HP Hk Hsel)|].
    destruct events as [|e events]; [apply Hweak, HP|].
    rewrite (drag_unselected v k e events st data Hk Hsel).
    destruct (selects v (Gesture.touches e)); [|apply Hweak, HP].
    set (st' := handleSelectModel (Some (id data)) st).
    assert (HP' : P st').
    { apply Hselect; [exact HP|]. right. exists data. split; [|reflexivity].
      apply list_elem_of_lookup. exists k. exact Hk. }
    assert (Hk' : models st' !! k = Some (select (Some (id data)) data))
      by apply select_lookup, Hk.
    assert (Hsel' : selected (select (Some (id data)) data) = true)
      by (cbn; apply String.eqb_refl).
    rewrite (drag_selected v k _ st' _ Hk' Hsel').
    destruct (last_position v (position (select (Some (id data)) data)) events)
      as [p|] eqn:Hlast; [|apply Hweak, HP'].
    cbn [moved_to].
    apply (Hupdate st' (select (Some (id data)) data)); [exact HP' | |].
    + apply list_elem_of_lookup. exists k. exact Hk'.
    + destruct (last_position_source v _ _ _ Hlast) as (e' & _ & He').
      exists (Gesture.touches e'), (Gesture.movement e'), p.
      split; [exact He' | reflexivity].
  - destruct (models st !! k) as [model|] eqn:Hk; [|apply Hweak, HP].
    unfold onUpdate. rewrite fst_rotateModel.
    apply Hupdate; [exact HP | | reflexivity].
    apply list_elem_of_lookup. exists k. exact Hk.
  - destruct (models st !! k) as [model|] eqn:Hk; [|apply Hweak, HP].
    unfold onUpdate. rewrite fst_rotateClockwise.
    apply Hupdate; [exact HP | | reflexivity].
    apply list_elem_of_lookup. exists k. exact Hk.
  - destruct (models st !! k) as [model|] eqn:Hk; [|apply Hweak, HP].
    unfold onUpdate. cbn [fst toggleVisibility].
    apply Hupdate; [exact HP | | reflexivity].
    apply list_elem_of_lookup. exists k. exact Hk.
  - destruct (models st !! k) as [model|] eqn:Hk; [|apply Hweak, HP].
    unfold onUpdate. rewrite fst_adjustHeight.
    apply Hupdate; [exact HP | | reflexivity].
    apply list_elem_of_lookup. exists k. exact Hk.
Qed.

(** No issued update carries an identifier, a name, an asset reference,
    a scale, an opacity or a selection flag. *)
Lemma issued_fields v ev model u :
  issued v ev model u ->
  id_opt u = None /\ name_opt u = None /\ url_opt u = None /\
  scale_opt u = None /\ opacity_opt u = None /\ selected_opt u = None.
Proof.
  destruct ev as [k | | type | k events | k axis | k | k | k direction];
    cbn [issued]; try contradiction.
  - intros (t & mv & p & _ & ->). repeat split.
  - intros ->. unfold rotateModel.
    destruct (rotation model) as [[r0 r1] r2], axis; repeat split.
  - intros ->. unfold rotateClockwise.
    destruct (rotation model) as [[r0 r1] r2]; repeat split.
  - intros ->. repeat split.
  - intros ->. unfold adjustHeight.
    destruct (position model) as [[p0 p1] p2], direction; repeat split.
Qed.

Lemma frame_select (i : option string) st :
  map frame (models (handleSelectModel i st)) = map frame (models st).
Proof. cbn. rewrite map_map. reflexivity. Qed.

Lemma frame_update (i : string) u st :
  id_opt u = None -> name_opt u = None -> url_opt u = None ->
  scale_opt u = None -> opacity_opt u = None ->
  map frame (models (handleUpdateModel i u st)) = map frame (models st).
Proof.
  intros Hid Hname Hurl Hscale Hopacity. cbn. rewrite map_map.
  apply map_ext. intros m. unfold update.
  destruct (String.eqb (id m) i); [|reflexivity].
  unfold frame, spread. cbn [id name url scale opacity].
  rewrite Hid, Hname, Hurl, Hscale, Hopacity. reflexivity.
Qed.

Lemma handle_frame v ev st :
  map frame (models (Interface.handle v ev st)) = map frame (models st).
Proof.
  apply (handle_invariant v ev
           (fun st' => map frame (models st') = map frame (models st))
           (fun st' => map frame (models st') = map frame (models st))).
  - intros st' Hst'. exact Hst'.
  - intros i st' Hst' _. rewrite frame_select. exact Hst'.
  - intros st' model u Hst' _ Hissued.
    destruct (issued_fields v ev model u Hissued)
      as (Hid & Hname & Hurl & Hscale & Hopacity & _).
    rewrite frame_update by assumption. exact Hst'.
  - reflexivity.
Qed.

Lemma run_frame v (events : list (Interface.Event num)) st :
  map frame (models (Interface.run v events st)) = map frame (models st).
Proof.
  revert st. induction events as [|ev events IH]; intros st; [reflexivity|].
  unfold Interface.run in *. cbn [fold_left]. rewrite IH. apply handle_frame.
Qed.
End InterfaceFacts.
(** ** What the events leave alone *)

Section EventFacts.
Import App Scene.
Context {num : Type} `{JsNumber num}.
Implicit Types (m : ModelData num) (ms : list (ModelData num))
  (st : App.State num) (info : gmap string OverlapInfo).

(** The overlap map reads the identifier, the position and the scale of
    the records, and nothing else. *)
Lemma overlaps_geometry m1 m1' m2 m2' :
  geometry m1 = geometry m1' -> geometry m2 = geometry m2' ->
  overlaps m1 m2 = overlaps m1' m2'.
Proof.
  unfold geometry. intros [= _ Hp1 Hs1] [= _ Hp2 Hs2].
  unfold overlaps, box_of. rewrite Hp1, Hs1, Hp2, Hs2. reflexivity.
Qed.

Lemma check_against_geometry m1 m1' ms ms' info :
  geometry m1 = geometry m1' -> map geometry ms = map geometry ms' ->
  check_against m1 ms info = check_against m1' ms' info.
Proof.
  intros H1. revert ms' info.
  induction ms as [|m2 ms IH]; intros [|m2' ms'] info Hms;
    try discriminate Hms; [reflexivity|].
  cbn [map] in Hms. injection Hms as Hid2 Hp2 Hs2 Hms.
  assert (H2 : geometry m2 = geometry m2') by (unfold geometry; congruence).
  cbn [check_against]. rewrite (overlaps_geometry m1 m1' m2 m2' H1 H2).
  unfold geometry in H1. injection H1 as Hid1 Hp1 Hs1.
  rewrite Hid1, Hid2. apply IH, Hms.
Qed.

Lemma check_pairs_geometry ms ms' info :
  map geometry ms = map geometry ms' ->
  check_pairs ms info = check_pairs ms' info.
Proof.
  revert ms' info.
  induction ms as [|m1 ms IH]; intros [|m1' ms'] info Hms;
    try discriminate Hms; [reflexivity|].
  cbn [map] in Hms. injection Hms as Hid1 Hp1 Hs1 Hms.
  assert (H1 : geometry m1 = geometry m1') by (unfold geometry; congruence).
  cbn [check_pairs]. rewrite (check_against_geometry m1 m1' ms ms' info H1 Hms).
  apply IH, Hms.
Qed.

Lemma init_info_geometry ms ms' :
  map geometry ms = map geometry ms' -> init_info ms = init_info ms'.
Proof.
  unfold init_info. generalize (∅ : gmap string OverlapInfo). revert ms'.
  induction ms as [|m ms IH]; intros [|m' ms'] acc Hms;
    try discriminate Hms; [reflexivity|].
  cbn [map] in Hms. injection Hms as Hid _ _ Hms.
  cbn [fold_left]. rewrite Hid. apply IH, Hms.
Qed.

Lemma detectOverlaps_geometry ms ms' info :
  map geometry ms = map geometry ms' ->
  detectOverlaps ms info = detectOverlaps ms' info.
Proof.
  intros Hms. unfold detectOverlaps.
  assert (Hlen : length ms = length ms').
  { rewrite <- (length_map geometry ms), Hms. apply length_map. }
  rewrite Hlen, (init_info_geometry ms ms' Hms).
  rewrite (check_pairs_geometry ms ms' _ Hms). reflexivity.
Qed.

Lemma geometry_select (i : option string) st :
  map geometry (models (handleSelectModel i st)) = map geometry (models st).
Proof. cbn. rewrite map_map. reflexivity. Qed.

Lemma geometry_update (i : string) (u : Partial_ModelData num) st :
  id_opt u = None -> position_opt u = None -> scale_opt u = None ->
  map geometry (models (handleUpdateModel i u st)) = map geometry (models st).
Proof.
  intros Hid Hposition Hscale. cbn. rewrite map_map.
  apply map_ext. intros m. unfold update.
  destruct (String.eqb (id m) i); [|reflexivity].
  unfold geometry, spread. cbn [id position scale].
  rewrite Hid, Hposition, Hscale. reflexivity.
Qed.

Lemma issued_in_place v (ev : Interface.Event num) m (u : Partial_ModelData num) :
  stays_in_place ev = true -> issued v ev m u -> position_opt u = None.
Proof.
  destruct ev as [k | | type | k events | k axis | k | k | k direction];
    cbn [issued stays_in_place]; try contradiction; try discriminate.
  - intros _ ->. unfold Controls.rotateModel.
    destruct (rotation m) as [[r0 r1] r2], axis; reflexivity.
  - intros _ ->. unfold Controls.rotateClockwise.
    destruct (rotation m) as [[r0 r1] r2]; reflexivity.
  - intros _ ->. reflexivity.
Qed.

Lemma handle_geometry v (ev : Interface.Event num) st :
  stays_in_place ev = true ->
  map geometry (models (Interface.handle v ev st)) = map geometry (models st).
Proof.
  intros Hev.
  apply (handle_invariant v ev
           (fun st' => map geometry (models st') = map geometry (models st))
           (fun st' => map geometry (models st') = map geometry (models st))).
  - intros st' Hst'. exact Hst'.
  - intros i st' Hst' _. rewrite geometry_select. exact Hst'.
  - intros st' model u Hst' _ Hissued.
    destruct (issued_fields v ev model u Hissued) as (Hid & _ & _ & Hscale & _).
    rewrite geometry_update; [exact Hst' | exact Hid | | exact Hscale].
    apply (issued_in_place v ev model u Hev Hissued).
  - reflexivity.
Qed.

(** Identity and scale.  Whatever the user does (clicks, drag gestures,
    the buttons of the panels), in either variant, the registry keeps its
    records in number and order, and every record keeps its identifier,
    name, asset reference, scale and opacity. *)
Theorem events_keep_identity_and_scale v (events : list (Interface.Event num)) st :
  map frame (models (Interface.run v events st)) = map frame (models st).
Proof. apply run_frame. Qed.

(** Overlap and the events that do not move a model.  A click on a model
    or on the ground, a missed pointer event, a rotation command or a
    visibility toggle leaves the overlap map the effect computes as it
    was: the map is a function of the identifiers, positions and scales
    alone, so a hidden model still counts as overlapping, and turning a
    model does not turn its box. *)
Theorem overlap_ignores_selection_rotation_and_visibility v
    (ev : Interface.Event num) st info :
  stays_in_place ev = true ->
  detectOverlaps (models (Interface.handle v ev st)) info
  = detectOverlaps (models st) info.
Proof.
  intros Hev. apply detectOverlaps_geometry, handle_geometry, Hev.
Qed.
End EventFacts.

(** Hiding the first of the two initial models: it is still reported as
    overlapping the second. *)
Lemma overlap_ignores_selection_rotation_and_visibility_witness :
  Scene.detectOverlaps
    (App.models (Interface.handle BuildingModel.V1 (Interface.ToggleVisibility 0)
                   registry0)) ∅ !! "model-1"
  = Some (report_of ["model-2"]).
Proof.
  rewrite (overlap_ignores_selection_rotation_and_visibility BuildingModel.V1
             (Interface.ToggleVisibility 0) registry0 ∅ eq_refl).
  reflexivity.
Defined.
(** ** Whole gestures *)

Section GestureProperties.
Import App BuildingModel Gesture.
Context {num : Type} `{JsNumber num}.
Implicit Types (m data : ModelData num) (st : App.State num)
  (e : DragEvent num) (events : list (DragEvent num)).

(** With distinct identifiers an update rewrites one record. *)
Lemma update_insert (ms : list (ModelData num)) (k : nat) m
    (u : Partial_ModelData num) :
  NoDup (map id ms) -> ms !! k = Some m ->
  map (update (id m) u) ms = <[k := spread m u]> ms.
Proof.
  intros Hnd Hk. apply list_eq. intros j. rewrite list_lookup_fmap.
  destruct (decide (j = k)) as [-> | Hne].
  - rewrite list_lookup_insert_eq by (apply lookup_lt_is_Some; eauto).
    rewrite Hk. cbn. unfold update. rewrite String.eqb_refl. reflexivity.
  - rewrite list_lookup_insert_ne by congruence.
    destruct (ms !! j) as [m'|] eqn:Hj; [|reflexivity]. cbn. f_equal.
    unfold update. destruct (String.eqb_spec (id m') (id m)) as [Hid | _];
      [|reflexivity].
    contradiction Hne. apply (unique_id_index ms j k m m' Hnd Hk Hj Hid).
Qed.

Lemma last_position_snoc v (anchor : Triple num) events e (p : Triple num) :
  drag_position v (touches e) anchor (movement e) = Some p ->
  last_position v anchor (events ++ [e]) = Some p.
Proof.
  intros He. unfold last_position. rewrite fold_left_app. cbn [fold_left].
  rewrite He. reflexivity.
Qed.

(** A gesture on a selected model.  The registry after the whole gesture
    is the registry before it with one position stored for the model:
    the one the last storing event gives, computed from the position the
    model had when the gesture began.  What earlier events of the gesture
    stored leaves no trace.  In particular, when the ids are distinct and
    the gesture ends with a one-contact event of movement [(dx, dy)], the
    record becomes the record it was with position
    [(x0 + dx*0.05, y0, z0 + dy*0.05)], clamped on X and Z in variant 2,
    and nothing else in the registry changes. *)
Theorem drag_gesture_measures_from_its_start v (k : nat) events st data :
  models st !! k = Some data -> selected data = true ->
  drag v k events st
  = moved_to (id data) (last_position v (position data) events) st /\
  (forall e, touches e = 1%nat -> NoDup (map id (models st)) ->
     exists p,
       drag_position v 1 (position data) (movement e) = Some p /\
       models (drag v k (events ++ [e]) st) = <[k := with_position p data]> (models st) /\
       selectedId (drag v k (events ++ [e]) st) = selectedId st).
Proof.
  intros Hk Hsel. split; [apply (drag_selected v k events st data Hk Hsel)|].
  intros e He Hnd.
  assert (Hp : exists p, drag_position v 1 (position data) (movement e) = Some p).
  { unfold drag_position. destruct (position data) as [[x0 y0] z0].
    destruct (movement e) as [dx dy]. destruct v; eexists; reflexivity. }
  destruct Hp as [p Hp]. exists p. split; [exact Hp|].
  rewrite (drag_selected v k _ st data Hk Hsel).
  rewrite (last_position_snoc v _ events e p) by (rewrite He; exact Hp).
  cbn [moved_to handleUpdateModel models selectedId]. split; [|reflexivity].
  rewrite (update_insert _ k data _ Hnd Hk). reflexivity.
Qed.

(** A gesture that begins on an unselected model.  When the drag start
    selects (always in variant 1, with one contact in variant 2), the
    first event selects the model and stores no position, and the rest of
    the gesture acts as a gesture of its own on the selected model;
    otherwise the whole gesture leaves the registry alone.  So a gesture
    of a single event never moves an unselected model. *)
Theorem drag_start_selects_before_it_moves v (k : nat) e events st data :
  models st !! k = Some data -> selected data = false ->
  drag v k (e :: events) st
  = (if selects v (touches e)
     then drag v k events (handleSelectModel (Some (id data)) st)
     else st) /\
  map position (models (drag v k [e] st)) = map position (models st).
Proof.
  intros Hk Hsel. split; [apply (drag_unselected v k e events st data Hk Hsel)|].
  rewrite (drag_unselected v k e [] st data Hk Hsel).
  destruct (selects v (touches e)); [|reflexivity].
  cbn [drag handleSelectModel models]. rewrite map_map. reflexivity.
Qed.
End GestureProperties.

(** Dragging [dragged] 20 pixels, then 200, then back to 40: the model
    ends at X = 0 + 40 * 0.05, and not at the sum of the three moves. *)
Lemma drag_gesture_measures_from_its_start_witness :
  Gesture.drag BuildingModel.V2 0
    [one_contact 20 0; one_contact 200 0; one_contact 40 0] dragging
  = App.handleUpdateModel "dragged"
      (BuildingModel.position_patch
         (BuildingModel.clamp (0 + 40 * 0.05), 1, BuildingModel.clamp (0 + 0 * 0.05)))
      (@dragging Q _).
Proof.
  exact (proj1 (drag_gesture_measures_from_its_start BuildingModel.V2 0
                  [one_contact 20 0; one_contact 200 0; one_contact 40 0]
                  dragging dragged eq_refl eq_refl)).
Defined.

(** A one-event drag on the unselected first model of the initial
    registry selects it and moves nothing. *)
Lemma drag_start_selects_before_it_moves_witness :
  Gesture.drag BuildingModel.V1 0 [one_contact 100 0] registry0
  = App.handleSelectModel (Some "model-1") registry0.
Proof.
  exact (proj1 (drag_start_selects_before_it_moves BuildingModel.V1 0
                  (one_contact 100 0) [] registry0 initial_model_1
                  eq_refl eq_refl)).
Defined.
(** ** Variant 2: the ground bounds over a whole session *)

Section Ground.
Import App BuildingModel Controls.
Local Open Scope Q_scope.
Implicit Types (m model : ModelData Q) (st : App.State Q)
  (ev : Interface.Event Q) (u : Partial_ModelData Q).

(** The position of a record after an update is the one it had or the
    one of the patch. *)
Lemma update_position {num} (i : string) (u : Partial_ModelData num)
    (st : App.State num) (m' : ModelData num) :
  m' ∈ models (handleUpdateModel i u st) ->
  exists m : ModelData num, m ∈ models st /\
    (position m' = position m \/ position_opt u = Some (position m')).
Proof.
  cbn [handleUpdateModel models]. intros Hm'.
  apply list_elem_of_fmap in Hm' as (m & -> & Hm). exists m. split; [exact Hm|].
  unfold update. destruct (String.eqb (id m) i); [|left; reflexivity].
  cbn [spread position]. destruct (position_opt u); [right | left]; reflexivity.
Qed.

Lemma select_position {num} (i : option string) (st : App.State num)
    (m' : ModelData num) :
  m' ∈ models (handleSelectModel i st) ->
  exists m : ModelData num, m ∈ models st /\ position m' = position m.
Proof.
  cbn [handleSelectModel models]. intros Hm'.
  apply list_elem_of_fmap in Hm' as (m & -> & Hm). exists m. split; [exact Hm|].
  reflexivity.
Qed.

(** The positions the events of variant 2 store for a record: on X and Z
    the record's own or values inside the ground bounds; on Y the
    record's own, or 0.05 above or below it for a height command. *)
Lemma issued_position_v2 ev model u (p : Triple Q) :
  issued V2 ev model u -> position_opt u = Some p ->
  ((x_of p = x_of (position model) /\ z_of p = z_of (position model)) \/
   ((-3 <= x_of p /\ x_of p <= 3) /\ (-3 <= z_of p /\ z_of p <= 3))) /\
  (is_height_command ev = false -> y_of p = y_of (position model)) /\
  (y_of (position model) - 0.05 <= y_of p /\ y_of p <= y_of (position model) + 0.05).
Proof.
  destruct ev as [k | | type | k events | k axis | k | k | k direction];
    cbn [issued is_height_command]; try contradiction.
  - intros (t & [dx dy] & p' & Hp' & ->) [= ->]. unfold drag_position in Hp'.
    destruct (position model) as [[x0 y0] z0].
    destruct t as [|[|t]]; try discriminate Hp'. injection Hp' as <-.
    unfold x_of, y_of, z_of. cbn [fst snd]. split; [right|split; [reflexivity|lra]].
    split; [apply (clamp_clamped (x0 + dx * 0.05)) | apply (clamp_clamped (z0 + dy * 0.05))].
  - intros ->. unfold rotateModel.
    destruct (rotation model) as [[r0 r1] r2], axis; discriminate.
  - intros ->. unfold rotateClockwise.
    destruct (rotation model) as [[r0 r1] r2]; discriminate.
  - intros ->. discriminate.
  - intros ->. unfold adjustHeight.
    destruct (position model) as [[p0 p1] p2].
    unfold x_of, y_of, z_of. cbn [fst snd].
    destruct direction; intros [= <-]; cbn [fst snd]; Q_ops;
      (split; [left; split; reflexivity | split; [discriminate | lra]]).
Qed.

Lemma handle_within (b : Q) ev st :
  3 <= b -> within b st -> within b (Interface.handle V2 ev st).
Proof.
  intros Hb. apply (handle_invariant V2 ev (within b) (within b)).
  - intros st' Hst'. exact Hst'.
  - intros i st' Hst' _ m' Hm'.
    destruct (select_position i st' m' Hm') as (m & Hm & ->). apply Hst', Hm.
  - intros st' model u Hst' Hmodel Hissued m' Hm'.
    destruct (update_position _ u st' m' Hm') as (m & Hm & [-> | Hu]);
      [apply Hst', Hm|].
    destruct (issued_position_v2 ev model u _ Hissued Hu) as [[[-> ->] | Hin] _].
    + apply Hst', Hmodel.
    + destruct Hin as [[? ?] [? ?]]. split; split; lra.
Qed.

Lemma run_within (b : Q) (events : list (Interface.Event Q)) st :
  3 <= b -> within b st -> within b (Interface.run V2 events st).
Proof.
  intros Hb. revert st. induction events as [|ev events IH]; intros st Hst;
    [exact Hst|].
  unfold Interface.run in *. cbn [fold_left]. apply IH, handle_within; assumption.
Qed.

Lemma handle_height (h : Q) ev st :
  height_within h st ->
  height_within (if is_height_command ev then h + 0.05 else h)
    (Interface.handle V2 ev st).
Proof.
  apply (handle_invariant V2 ev (height_within h)
           (height_within (if is_height_command ev then h + 0.05 else h))).
  - intros st' Hst' m Hm. specialize (Hst' m Hm).
    destruct (is_height_command ev); lra.
  - intros i st' Hst' _ m' Hm'.
    destruct (select_position i st' m' Hm') as (m & Hm & ->). apply Hst', Hm.
  - intros st' model u Hst' Hmodel Hissued m' Hm'.
    destruct (update_position _ u st' m' Hm') as (m & Hm & [-> | Hu]).
    + specialize (Hst' m Hm). destruct (is_height_command ev); lra.
    + destruct (issued_position_v2 ev model u _ Hissued Hu) as (_ & Hsame & Hnear).
      specialize (Hst' model Hmodel).
      destruct (is_height_command ev); [lra|]. rewrite (Hsame eq_refl). exact Hst'.
Qed.

Lemma run_height (h : Q) (events : list (Interface.Event Q)) st :
  height_within h st ->
  height_within
    (h + 0.05 * inject_Z (Z.of_nat (length (List.filter is_height_command events))))
    (Interface.run V2 events st).
Proof.
  revert h st. induction events as [|ev events IH]; intros h st Hst.
  - unfold Interface.run. cbn [fold_left List.filter length].
    change (inject_Z (Z.of_nat 0)) with 0.
    intros m Hm. specialize (Hst m Hm). lra.
  - unfold Interface.run in *. cbn [fold_left List.filter].
    pose proof (handle_height h ev st Hst) as Hstep.
    apply IH in Hstep. intros m Hm. specialize (Hstep m Hm).
    destruct (is_height_command ev).
    + cbn [length]. rewrite Nat2Z.inj_succ, <- Z.add_1_r, inject_Z_plus.
      change (inject_Z 1) with 1. lra.
    + exact Hstep.
Qed.

(** Within reach.  In variant 2, with exact arithmetic: when every model
    starts within [b] of the centre along X and Z, for a bound [b] of at
    least 3 (half the ground), every model is within [b] along X and Z
    after any sequence of events.  The initial placement, at X = -3.333
    and 3.333, is outside the ground bounds of the drag, so the bound that
    holds from the start is 3.333 and not 3. *)
Theorem variant_2_keeps_models_within_reach (b : Q)
    (events : list (Interface.Event Q)) st :
  3 <= b -> within b st -> within b (Interface.run V2 events st).
Proof. apply run_within. Qed.

(** Permanent overlap.  In variant 2, with exact arithmetic, from the
    initial registry: after any sequence of events of which at most 100
    are height commands, the overlap effect reports each of the two models
    as overlapping the other.  Their boxes are 10 wide and the drag keeps
    the centres within the ground, so no drag separates them. *)
Theorem variant_2_initial_models_keep_overlapping
    (DEFAULT_MODEL_1_URL DEFAULT_MODEL_2_URL : string)
    (events : list (Interface.Event Q)) (info : gmap string Scene.OverlapInfo) :
  (length (List.filter is_height_command events) <= 100)%nat ->
  let st := Interface.run V2 events (initial DEFAULT_MODEL_1_URL DEFAULT_MODEL_2_URL) in
  Scene.detectOverlaps (models st) info !! "model-1" = Some (report_of ["model-2"]) /\
  Scene.detectOverlaps (models st) info !! "model-2" = Some (report_of ["model-1"]).
Proof.
  intros Hcount st.
  set (st0 := initial DEFAULT_MODEL_1_URL DEFAULT_MODEL_2_URL) in *.
  assert (Hframe : map frame (models st) = map frame (models st0))
    by apply run_frame.
  assert (Hwithin : within 3.333 st).
  { apply run_within; [lra|]. intros m Hm. cbn in Hm.
    apply elem_of_cons in Hm as [-> | Hm];
      [|apply list_elem_of_singleton in Hm as ->];
      unfold x_of, z_of; cbn; split; split; lra. }
  assert (Hheight : height_within 5 st).
  { assert (H0 : height_within 0 st0).
    { intros m Hm. cbn in Hm.
      apply elem_of_cons in Hm as [-> | Hm];
        [|apply list_elem_of_singleton in Hm as ->];
        unfold y_of; cbn; lra. }
    pose proof (run_height 0 events st0 H0) as Hrun. fold st in Hrun.
    intros m Hm. specialize (Hrun m Hm).
    assert (Hn : inject_Z (Z.of_nat (length (List.filter is_height_command events)))
                 <= 100).
    { change 100 with (inject_Z 100). rewrite <- Zle_Qle. lia. }
    lra. }
  destruct (models st) as [|m1 [|m2 [|m3 ms]]] eqn:Hms; try discriminate Hframe.
  cbn in Hframe. unfold frame in Hframe.
  injection Hframe as Hid1 _ _ Hs1 _ Hid2 _ _ Hs2 _.
  assert (Hov : Scene.overlaps m1 m2 = true).
  { apply overlaps_Q_unfold.
    pose proof (Hwithin m1) as Hw1. pose proof (Hwithin m2) as Hw2.
    pose proof (Hheight m1) as Hh1. pose proof (Hheight m2) as Hh2.
    rewrite Hms in Hw1, Hw2, Hh1, Hh2.
    specialize (Hw1 ltac:(left)). specialize (Hw2 ltac:(right; left)).
    specialize (Hh1 ltac:(left)). specialize (Hh2 ltac:(right; left)).
    rewrite Hs1, Hs2. unfold x_of, y_of, z_of in *. Q_ops.
    destruct (position m1) as [[x1 y1] z1], (position m2) as [[x2 y2] z2].
    cbn [fst snd] in *. repeat split; lra. }
  unfold Scene.detectOverlaps. cbn [length Nat.ltb Nat.leb].
  cbn [Scene.check_pairs Scene.check_against]. rewrite Hov.
  unfold Scene.init_info. cbn [fold_left]. rewrite Hid1, Hid2.
  split; vm_compute; reflexivity.
Qed.
End Ground.

(** From the initial registry, selecting the first model and dragging it
    far to the left and back leaves both models within 3.333. *)
Lemma variant_2_keeps_models_within_reach_witness :
  within 3.333
    (Interface.run BuildingModel.V2
       [Interface.ClickModel 0;
        Interface.Drag 0 [one_contact (-1000) 0; one_contact 30 0]]
       registry0).
Proof.
  apply (variant_2_keeps_models_within_reach 3.333).
  - lra.
  - intros m Hm. cbn in Hm.
    apply elem_of_cons in Hm as [-> | Hm];
      [|apply list_elem_of_singleton in Hm as ->];
      unfold x_of, z_of; cbn; split; split; lra.
Defined.

(** Two height commands and a drag. *)
Lemma variant_2_initial_models_keep_overlapping_witness :
  Scene.detectOverlaps
    (App.models
       (Interface.run BuildingModel.V2
          [Interface.AdjustHeight 0 Controls.Up; Interface.ClickModel 1;
           Interface.Drag 1 [one_contact 0 0; one_contact 500 500];
           Interface.AdjustHeight 1 Controls.Down]
          registry0)) ∅ !! "model-1"
  = Some (report_of ["model-2"]).
Proof.
  refine (proj1 (variant_2_initial_models_keep_overlapping "one.glb" "two.glb"
                   [Interface.AdjustHeight 0 Controls.Up; Interface.ClickModel 1;
                    Interface.Drag 1 [one_contact 0 0; one_contact 500 500];
                    Interface.AdjustHeight 1 Controls.Down] ∅ _)).
  cbn. lia.
Defined.
(** ** The control panel: how its commands compose *)

Section PanelFacts.
Import App Controls.
Context {num : Type} `{JsNumber num}.
Implicit Types (m : ModelData num) (st : App.State num).

(** A press of a rotation button, and a height command, on the panel of
    the record [m]: the records with the identifier of [m] get the
    rotation, or the position, computed from the one of [m]. *)
Lemma handle_press v (k : nat) (b : Button) st m :
  models st !! k = Some m ->
  Interface.handle v (press k b) st
  = rewritten (id m) (with_rotation (turn b (rotation m))) st.
Proof.
  intros Hk. unfold rewritten.
  destruct b; cbn [press Interface.handle]; unfold Interface.with_model;
    rewrite Hk; unfold onUpdate, handleUpdateModel;
    rewrite ?fst_rotateModel, ?fst_rotateClockwise;
    unfold rotateModel, rotateClockwise, turn;
    destruct (rotation m) as [[r0 r1] r2]; reflexivity.
Qed.

Lemma handle_adjustHeight v (k : nat) (d : Direction) st m :
  models st !! k = Some m ->
  Interface.handle v (Interface.AdjustHeight k d) st
  = rewritten (id m) (with_position (lift d (position m))) st.
Proof.
  intros Hk. unfold rewritten.
  cbn [Interface.handle]; unfold Interface.with_model;
    rewrite Hk; unfold onUpdate, handleUpdateModel;
    rewrite fst_adjustHeight; unfold adjustHeight, lift;
    destruct (position m) as [[p0 p1] p2], d; reflexivity.
Qed.

Lemma rewritten_lookup (i : string) (f : ModelData num -> ModelData num) st
    (k : nat) m :
  models st !! k = Some m -> id m = i ->
  models (rewritten i f st) !! k = Some (f m).
Proof.
  intros Hk Hid. cbn [rewritten models]. rewrite list_lookup_fmap, Hk. cbn.
  rewrite Hid, String.eqb_refl. reflexivity.
Qed.

Lemma rewritten_twice (i : string) (f g : ModelData num -> ModelData num) st :
  (forall m, id (f m) = id m) ->
  rewritten i g (rewritten i f st) = rewritten i (fun m => g (f m)) st.
Proof.
  intros Hf. unfold rewritten. cbn [models selectedId]. f_equal.
  rewrite map_map. apply map_ext. intros m.
  destruct (String.eqb (id m) i) eqn:Hi; [rewrite Hf|]; rewrite Hi; reflexivity.
Qed.

Lemma turn_turn (b1 b2 : Button) (r : Triple num) :
  turn b2 (turn b1 r) = turn b1 (turn b2 r).
Proof. destruct r as [[r0 r1] r2], b1, b2; reflexivity. Qed.

(** Two presses in a row on the same panel. *)
Lemma handle_press_twice v (k : nat) (b1 b2 : Button) st m :
  models st !! k = Some m ->
  Interface.handle v (press k b2) (Interface.handle v (press k b1) st)
  = rewritten (id m) (with_rotation (turn b2 (turn b1 (rotation m)))) st.
Proof.
  intros Hk. rewrite (handle_press v k b1 st m Hk).
  rewrite (handle_press v k b2 _ (with_rotation (turn b1 (rotation m)) m))
    by (apply rewritten_lookup; [exact Hk | reflexivity]).
  cbn [with_rotation id rotation].
  rewrite (rewritten_twice (id m) (with_rotation (turn b1 (rotation m)))
             (with_rotation (turn b2 (turn b1 (rotation m)))) st)
    by reflexivity.
  reflexivity.
Qed.

(** Order of the rotation buttons.  Two presses of rotation buttons of
    one panel give the same registry in either order, in any arithmetic:
    each button adds to its own angle of the triple, so turning on X and
    then on Z stores the same three angles as turning on Z and then on
    X. *)
Theorem rotation_buttons_commute v (k : nat) (b1 b2 : Button) st :
  Interface.handle v (press k b2) (Interface.handle v (press k b1) st)
  = Interface.handle v (press k b1) (Interface.handle v (press k b2) st).
Proof.
  destruct (models st !! k) as [m|] eqn:Hk.
  - rewrite (handle_press_twice v k b1 b2 st m Hk).
    rewrite (handle_press_twice v k b2 b1 st m Hk).
    rewrite turn_turn. reflexivity.
  - assert (Hout : forall b, Interface.handle v (press k b) st = st).
    { intros b. destruct b; cbn [press Interface.handle];
        unfold Interface.with_model; rewrite Hk; reflexivity. }
    rewrite !Hout. reflexivity.
Qed.
End PanelFacts.


Section PanelArithmetic.
Import App Controls.
Local Open Scope Q_scope.
Implicit Types (m : ModelData Q) (st : App.State Q).

Lemma count_cons {A} (f : A -> bool) (a : A) (l : list A) :
  inject_Z (Z.of_nat (length (List.filter f (a :: l))))
  == (if f a then 1 else 0) + inject_Z (Z.of_nat (length (List.filter f l))).
Proof.
  cbn [List.filter]. destruct (f a).
  - cbn [length]. rewrite Nat2Z.inj_succ, <- Z.add_1_r, inject_Z_plus.
    change (inject_Z 1) with 1. lra.
  - lra.
Qed.

Lemma run_presses v (k : nat) (l : list Button) st m :
  models st !! k = Some m ->
  exists r : Triple Q,
    models (Interface.run v (map (press k) l) st) !! k = Some (with_rotation r m) /\
    x_of r == x_of (rotation m) + presses ButtonX l * (Math_PI / 2) /\
    y_of r == y_of (rotation m) + presses ButtonClockwise l * (Math_PI / 4) /\
    z_of r == z_of (rotation m) + presses ButtonZ l * (Math_PI / 2).
Proof.
  revert st m. induction l as [|b l IH]; intros st m Hk.
  - exists (rotation m). split.
    + cbn. rewrite Hk. destruct m; reflexivity.
    + unfold presses. cbn [List.filter length].
      change (inject_Z (Z.of_nat 0)) with 0. repeat split; lra.
  - unfold Interface.run in *. cbn [map fold_left].
    rewrite (handle_press v k b st m Hk).
    destruct (IH (rewritten (id m) (with_rotation (turn b (rotation m))) st)
                 (with_rotation (turn b (rotation m)) m))
      as (r & Hr & Hx & Hy & Hz).
    { apply rewritten_lookup; [exact Hk | reflexivity]. }
    exists r. split; [exact Hr|].
    cbn [with_rotation rotation] in Hx, Hy, Hz.
    unfold presses in *.
    rewrite (count_cons (same_button ButtonX) b l),
            (count_cons (same_button ButtonClockwise) b l),
            (count_cons (same_button ButtonZ) b l).
    unfold turn, x_of, y_of, z_of in *.
    destruct (rotation m) as [[r0 r1] r2]. Q_ops.
    revert Hx Hy Hz. generalize (@Math_PI Q _). intros pi Hx Hy Hz.
    destruct b; cbn [fst snd same_button] in *; Q_div; repeat split; lra.
Qed.

Lemma run_heights v (k : nat) (l : list Direction) st m :
  models st !! k = Some m ->
  exists p : Triple Q,
    models (Interface.run v (map (Interface.AdjustHeight k) l) st) !! k
    = Some (with_position p m) /\
    x_of p = x_of (position m) /\
    y_of p == y_of (position m) + 0.05 * ups l - 0.05 * downs l /\
    z_of p = z_of (position m).
Proof.
  revert st m. induction l as [|d l IH]; intros st m Hk.
  - exists (position m). split.
    + cbn. rewrite Hk. destruct m; reflexivity.
    + unfold ups, downs. cbn [List.filter length].
      change (inject_Z (Z.of_nat 0)) with 0. repeat split; lra.
  - unfold Interface.run in *. cbn [map fold_left].
    rewrite (handle_adjustHeight v k d st m Hk).
    destruct (IH (rewritten (id m) (with_position (lift d (position m))) st)
                 (with_position (lift d (position m)) m))
      as (p & Hp & Hx & Hy & Hz).
    { apply rewritten_lookup; [exact Hk | reflexivity]. }
    exists p. split; [exact Hp|].
    cbn [with_position position] in Hx, Hy, Hz.
    unfold ups, downs in *.
    rewrite (count_cons is_up d l), (count_cons (fun d => negb (is_up d)) d l).
    unfold lift, x_of, y_of, z_of in *.
    destruct (position m) as [[p0 p1] p2]. Q_ops.
    destruct d; cbn [fst snd is_up negb] in *;
      (split; [exact Hx | split; [lra | exact Hz]]).
Qed.

(** Angles add up.  In exact arithmetic, after any sequence of presses of
    the rotation buttons of the panel of the record [m], the registry
    holds [m] with a rotation whose three angles are those of [m] plus a
    quarter turn per press of X, an eighth of a turn per press of the
    clockwise button, and a quarter turn per press of Z, in whatever
    order the presses came.  No angle is ever reduced modulo a full turn:
    four presses of X store the angle plus [2 * Math.PI], not the angle
    itself. *)
Theorem rotation_presses_add_up v (k : nat) (l : list Button) st m :
  models st !! k = Some m ->
  exists r : Triple Q,
    models (Interface.run v (map (press k) l) st) !! k = Some (with_rotation r m) /\
    x_of r == x_of (rotation m) + presses ButtonX l * (Math_PI / 2) /\
    y_of r == y_of (rotation m) + presses ButtonClockwise l * (Math_PI / 4) /\
    z_of r == z_of (rotation m) + presses ButtonZ l * (Math_PI / 2).
Proof. apply run_presses. Qed.

(** Heights add up, and have no floor.  In exact arithmetic, after any
    sequence of height commands of the panel of the record [m], the
    registry holds [m] with its X and Z as they were and its height
    raised by 0.05 per up and lowered by 0.05 per down, in whatever order:
    as many ups as downs give the height back, and nothing stops the
    height at the ground.  In binary64 arithmetic the steps are rounded:
    twenty downs from the initial height 1 end below 0 and not at 0. *)
Theorem height_commands_add_up :
  (forall v (k : nat) (l : list Direction) st m,
     models st !! k = Some m ->
     exists p : Triple Q,
       models (Interface.run v (map (Interface.AdjustHeight k) l) st) !! k
       = Some (with_position p m) /\
       x_of p = x_of (position m) /\
       y_of p == y_of (position m) + 0.05 * ups l - 0.05 * downs l /\
       z_of p = z_of (position m)) /\
  (forall v,
     let st : App.State float :=
       Interface.run v (map (Interface.AdjustHeight 0) (repeat Down 20))
         (initial "one.glb" "two.glb") in
     (fun m0 : ModelData float => PrimFloat.ltb (y_of (position m0)) 0%float)
       <$> models st !! 0%nat
     = Some true).
Proof.
  split; [apply run_heights|].
  intros v. destruct v; vm_compute; reflexivity.
Qed.
End PanelArithmetic.

(** Four presses of X on the first initial model: the angle is
    [0 + 4 * (Math.PI / 2)]. *)
Lemma rotation_presses_add_up_witness :
  exists r : Triple Q,
    App.models (Interface.run BuildingModel.V1
                  (map (press 0) [ButtonX; ButtonX; ButtonX; ButtonX]) registry0) !! 0%nat
    = Some (with_rotation r initial_model_1) /\
    (x_of r == 0 + 4 * (Math_PI / 2))%Q.
Proof.
  destruct (rotation_presses_add_up BuildingModel.V1 0
              [ButtonX; ButtonX; ButtonX; ButtonX] registry0 initial_model_1 eq_refl)
    as (r & Hr & Hx & _).
  exists r. split; [exact Hr | exact Hx].
Defined.

(** Twenty downs from the initial height 1: height 0 in exact arithmetic. *)
Lemma height_commands_add_up_witness :
  exists p : Triple Q,
    App.models (Interface.run BuildingModel.V1
                  (map (Interface.AdjustHeight 0) (repeat Controls.Down 20))
                  registry0) !! 0%nat
    = Some (with_position p initial_model_1) /\
    (y_of p == 0)%Q.
Proof.
  destruct (proj1 height_commands_add_up BuildingModel.V1 0%nat
              (repeat Controls.Down 20) registry0 initial_model_1 eq_refl)
    as (p & Hp & _ & Hy & _).
  exists p. split; [exact Hp|].
  rewrite Hy. reflexivity.
Defined.
(** ** The camera effect and the error boundary *)

Section CameraFacts.
Import Camera.
Context {num : Type} `{JsNumber num}.

Lemma effects_false (runs : list (list (ModelData num) * bool)) (i : nat)
    (r : list (ModelData num) * bool) :
  runs !! i = Some r -> effects runs false !! i = Some [].
Proof.
  revert i. induction runs as [|[models controls] runs IH]; intros i Hi;
    [discriminate Hi|].
  cbn [effects AutoFitCamera andb]. destruct i as [|i]; [reflexivity|].
  cbn in Hi |- *. apply IH, Hi.
Qed.

(** The camera is fitted once.  Over the successive runs of the effect of
    [AutoFitCamera], the run that makes calls on the camera is the first
    one that sees a non-empty list of models: it sets the camera position
    to (0, 8, 10), looks at (0, 0.5, 0) and, when the orbit controls are
    there at that run, sets their target to (0, 0, 0) and updates them.
    Every other run makes no call.  So when the controls are not there yet
    at that run, their target is never set by the effect. *)
Theorem camera_is_fitted_once (runs : list (list (ModelData num) * bool))
    (i : nat) (models : list (ModelData num)) (controls : bool) :
  runs !! i = Some (models, controls) ->
  effects runs true !! i
  = Some (if (0 <? length models)%nat && no_models_before i runs
          then [CameraPositionSet (num_lit 0, num_lit 8, num_lit 10);
                CameraLookAt (num_lit 0, num_lit 0.5, num_lit 0)]
               ++ (if controls
                   then [ControlsTargetSet (num_lit 0, num_lit 0, num_lit 0);
                         ControlsUpdate]
                   else [])
          else []).
Proof.
  unfold no_models_before. revert i.
  induction runs as [|[models0 controls0] runs IH]; intros i Hi;
    [discriminate Hi|].
  destruct i as [|i].
  - cbn in Hi. injection Hi as -> ->. cbn [take forallb]. rewrite andb_true_r.
    cbn [effects]. unfold AutoFitCamera. cbn [andb].
    destruct (0 <? length models)%nat; reflexivity.
  - cbn in Hi. cbn [effects take forallb fst]. unfold AutoFitCamera at 1.
    cbn [andb]. destruct (length models0) as [|n] eqn:Hlen.
    + cbn [Nat.ltb Nat.leb Nat.eqb andb]. cbn [effects]. apply IH, Hi.
    + cbn [Nat.ltb Nat.leb Nat.eqb andb]. rewrite andb_false_r.
      cbn. apply (effects_false runs i _ Hi).
Qed.
End CameraFacts.

Section BoundaryFacts.
Import Three BuildingModel Boundary.
Context {num : Type} `{JsNumber num}.
Variable COLORS_selection : string.

Lemma render_failed (boundary : Boundary.State) data
    (v : Variant) (overlapInfo : Scene.OverlapInfo) (asset : Asset num)
    (ls : LocalState num) :
  hasError boundary = true ->
  Boundary.BuildingModel COLORS_selection v boundary data overlapInfo asset ls
  = (boundary, ErrorPlaceholder (position data)).
Proof. intros Herr. unfold Boundary.BuildingModel, render. rewrite Herr. reflexivity. Qed.

Lemma renders_app v
    (inputs1 inputs2 : list (ModelData num * Scene.OverlapInfo * Asset num
                             * LocalState num))
    (boundary : Boundary.State) :
  renders COLORS_selection v (inputs1 ++ inputs2) boundary
  = let '(boundary1, shown1) := renders COLORS_selection v inputs1 boundary in
    let '(boundary2, shown2) := renders COLORS_selection v inputs2 boundary1 in
    (boundary2, shown1 ++ shown2).
Proof.
  unfold renders. rewrite fold_left_app.
  destruct (fold_left _ inputs1 (boundary, [])) as [boundary1 shown1].
  generalize shown1 boundary1. clear.
  induction inputs2 as [|[[[data overlapInfo] asset] ls] inputs2 IH];
    intros shown1 boundary1.
  - cbn. rewrite app_nil_r. reflexivity.
  - cbn [fold_left].
    destruct (Boundary.BuildingModel COLORS_selection v boundary1 data overlapInfo
                asset ls) as [boundary' display].
    rewrite IH. rewrite (IH [display]).
    destruct (fold_left _ inputs2 (boundary', [])) as [boundary2 shown2].
    cbn. rewrite <- app_assoc. reflexivity.
Qed.

Lemma renders_failed v
    (inputs : list (ModelData num * Scene.OverlapInfo * Asset num * LocalState num))
    (boundary : Boundary.State) :
  hasError boundary = true ->
  renders COLORS_selection v inputs boundary
  = (boundary, map (fun input => ErrorPlaceholder (input_position input)) inputs).
Proof.
  intros Herr. induction inputs as [|[[[data overlapInfo] asset] ls] inputs IH]
    using rev_ind; [reflexivity|].
  rewrite renders_app, IH. unfold renders at 1. cbn [fold_left].
  rewrite (render_failed boundary data v overlapInfo asset ls Herr).
  rewrite map_app. reflexivity.
Qed.

(** When a model fails.  A render of the component with a boundary that
    has caught nothing leaves the boundary in the error state exactly when
    the asset failed to load, or the asset is loaded, the model is
    reported as overlapping and a mesh of its scene has an empty material
    array (the overlap clone cannot be built).  The error placeholder is
    then displayed at the model's position, also for a hidden model; and
    while the asset is pending the loading placeholder is displayed there. *)
Theorem model_fails_exactly_when v data (overlapInfo : Scene.OverlapInfo)
    (asset : Asset num) (ls : LocalState num) :
  let out := Boundary.BuildingModel COLORS_selection v Boundary.initial data
               overlapInfo asset ls in
  (hasError (fst out) = true <->
   asset = Failed \/
   exists scene, asset = Loaded scene /\
     Scene.isOverlapping overlapInfo = true /\ well_formed scene = false) /\
  (hasError (fst out) = true -> snd out = ErrorPlaceholder (position data)) /\
  (asset = Pending -> snd out = LoadingPlaceholder (position data)).
Proof.
  unfold Boundary.BuildingModel, render. cbn [hasError Boundary.initial].
  destruct asset as [| |scene]; cbn [fst snd hasError getDerivedStateFromError].
  - split; [|split; [discriminate | reflexivity]].
    split; [discriminate|]. intros [? | (scene & ? & _)]; discriminate.
  - split; [|split; [reflexivity | discriminate]].
    split; [left; reflexivity | reflexivity].
  - pose proof (content_throws COLORS_selection v data overlapInfo scene ls) as Hthrows.
    destruct (BuildingModelContent COLORS_selection v data overlapInfo scene ls)
      as [| |r]; cbn [fst snd hasError getDerivedStateFromError Boundary.initial].
    + split; [|split; [reflexivity | discriminate]].
      split; [|reflexivity]. intros _. right. exists scene.
      split; [reflexivity | apply Hthrows; reflexivity].
    + split; [|split; discriminate].
      split; [discriminate|]. intros [? | (scene' & [= <-] & Hbad)];
        [discriminate|]. apply Hthrows in Hbad. discriminate Hbad.
    + split; [|split; discriminate].
      split; [discriminate|]. intros [? | (scene' & [= <-] & Hbad)];
        [discriminate|]. apply Hthrows in Hbad. discriminate Hbad.
Qed.

(** The error placeholder stays.  Once a render has left the boundary of
    a model in the error state, every later render of the component
    displays the error placeholder at the position of its [data],
    whatever the data, the overlap report and the asset are by then: a
    model that failed while overlapping does not come back when the
    overlap ends, and the placeholder is displayed for a hidden model
    too. *)
Theorem error_placeholder_stays v
    (inputs1 inputs2 : list (ModelData num * Scene.OverlapInfo * Asset num
                             * LocalState num))
    (boundary : Boundary.State) :
  hasError (fst (renders COLORS_selection v inputs1 boundary)) = true ->
  renders COLORS_selection v (inputs1 ++ inputs2) boundary
  = (fst (renders COLORS_selection v inputs1 boundary),
     snd (renders COLORS_selection v inputs1 boundary)
     ++ map (fun input => ErrorPlaceholder (input_position input)) inputs2).
Proof.
  intros Herr. rewrite renders_app.
  destruct (renders COLORS_selection v inputs1 boundary) as [boundary1 shown1].
  cbn [fst snd] in *. rewrite (renders_failed v inputs2 boundary1 Herr).
  reflexivity.
Qed.
End BoundaryFacts.

(** The second effect run of three is the first to see models; the
    controls are there: it makes the four calls, the others none. *)
Lemma camera_is_fitted_once_witness :
  Camera.effects [([], false); (App.models registry0, true);
                  (App.models registry0, true)] true !! 1%nat
  = Some [Camera.CameraPositionSet (0, 8, 10)%Q;
          Camera.CameraLookAt (0, 0.5, 0)%Q;
          Camera.ControlsTargetSet (0, 0, 0)%Q;
          Camera.ControlsUpdate].
Proof.
  exact (camera_is_fitted_once
           [([], false); (App.models registry0, true); (App.models registry0, true)]
           1 (App.models registry0) true eq_refl).
Defined.

(** An overlapping model whose scene has a mesh with an empty material
    array fails, and the error placeholder is displayed. *)
Lemma model_fails_exactly_when_witness :
  snd (Boundary.BuildingModel "#3b82f6" BuildingModel.V1 Boundary.initial
         (@reality Q _) overlapping (Boundary.Loaded empty_material_scene)
         (BuildingModel.mount reality))
  = Boundary.ErrorPlaceholder (position (@reality Q _)).
Proof.
  apply (proj1 (proj2 (model_fails_exactly_when "#3b82f6" BuildingModel.V1
                         (@reality Q _) overlapping
                         (Boundary.Loaded empty_material_scene)
                         (BuildingModel.mount reality)))).
  reflexivity.
Defined.

(** The model fails while overlapping; the overlap ends and the model is
    hidden: the placeholder is displayed all the same. *)
Lemma error_placeholder_stays_witness :
  snd (renders "#3b82f6" BuildingModel.V1
         ([(@reality Q _, overlapping, Boundary.Loaded empty_material_scene,
            BuildingModel.mount reality)]
          ++ [(with_visible false reality, Scene.no_overlap,
               Boundary.Loaded empty_material_scene, BuildingModel.mount reality)])
         Boundary.initial)
  = [Boundary.ErrorPlaceholder (0, 0, 0)%Q; Boundary.ErrorPlaceholder (0, 0, 0)%Q].
Proof.
  rewrite (error_placeholder_stays "#3b82f6" BuildingModel.V1
             [(@reality Q _, overlapping, Boundary.Loaded empty_material_scene,
               BuildingModel.mount reality)]
             [(with_visible false reality, Scene.no_overlap,
               Boundary.Loaded empty_material_scene, BuildingModel.mount reality)]
             Boundary.initial eq_refl).
  reflexivity.
Defined.
(** ** Selection over a session, and the file upload *)

Section SelectionFacts.
Import App.
Context {num : Type} `{JsNumber num}.
Implicit Types (m data : ModelData num) (st : App.State num).

Lemma handle_flags v (ev : Interface.Event num) st :
  flags_follow st -> flags_follow (Interface.handle v ev st).
Proof.
  apply (handle_invariant v ev flags_follow flags_follow).
  - intros st' Hst'. exact Hst'.
  - intros i st' _ _.
    intros m' Hm'. cbn in Hm'.
    apply list_elem_of_fmap in Hm' as (m & -> & _). reflexivity.
  - intros st' model u Hst' _ Hissued.
    destruct (issued_fields v ev model u Hissued) as (Hid & _ & _ & _ & _ & Hsel).
    apply (handle_keeps_invariant (Page.Update (id model) u) st'
             (conj Hid Hsel) Hst').
Qed.

Lemma run_flags v (events : list (Interface.Event num)) st :
  flags_follow st -> flags_follow (Interface.run v events st).
Proof.
  revert st. induction events as [|ev events IH]; intros st Hst; [exact Hst|].
  unfold Interface.run in *. cbn [fold_left]. apply IH, handle_flags, Hst.
Qed.

Lemma frame_ids (ms ms' : list (ModelData num)) :
  map frame ms = map frame ms' -> map id ms = map id ms'.
Proof.
  intros Hframe.
  assert (Hids : forall l : list (ModelData num),
            map id l = map (fun f => fst (fst (fst (fst f)))) (map frame l)).
  { intros l. rewrite map_map. reflexivity. }
  rewrite !Hids, Hframe. reflexivity.
Qed.

(** One selection at most, over a whole session.  From a registry with
    distinct identifiers whose selection flags agree with the selected
    identifier, after any sequence of events, in either variant and in any
    arithmetic: the identifiers are still distinct, a record is flagged
    selected exactly when its identifier is the selected one, and at most
    one record is flagged. *)
Theorem selection_is_consistent_after_any_events v
    (events : list (Interface.Event num)) st :
  NoDup (map id (models st)) -> flags_follow st ->
  let st' := Interface.run v events st in
  NoDup (map id (models st')) /\
  (forall m, m ∈ models st' -> (selected m = true <-> Some (id m) = selectedId st')) /\
  (selected_count (models st') <= 1)%nat.
Proof.
  intros Hnd Hflags st'.
  assert (Hnd' : NoDup (map id (models st'))).
  { rewrite (frame_ids _ (models st)); [exact Hnd | apply run_frame]. }
  assert (Hflags' : flags_follow st') by apply run_flags, Hflags.
  split; [exact Hnd' | split].
  - intros m Hm. rewrite (Hflags' m Hm). unfold id_is.
    destruct (selectedId st') as [s|]; [|split; discriminate].
    rewrite String.eqb_eq. split; congruence.
  - apply flags_follow_count; assumption.
Qed.

(** Select, then deselect.  In a registry with nothing selected, a click
    on a visible model selects it, and a click on the ground (or a click
    that misses every mesh) after it gives the registry back exactly. *)
Theorem click_on_the_ground_undoes_a_selection v (k : nat) st data
    (ev : Interface.Event num) :
  models st !! k = Some data -> visible data = true ->
  selectedId st = None -> (forall m, m ∈ models st -> selected m = false) ->
  deselects ev ->
  selectedId (Interface.handle v (Interface.ClickModel k) st) = Some (id data) /\
  Interface.handle v ev (Interface.handle v (Interface.ClickModel k) st) = st.
Proof.
  intros Hk Hvisible Hnone Hflags Hev.
  assert (Hclick : Interface.handle v (Interface.ClickModel k) st
                   = handleSelectModel (Some (id data)) st).
  { cbn [Interface.handle]. unfold Interface.with_model.
    rewrite Hk, Hvisible. reflexivity. }
  rewrite Hclick. split; [reflexivity|].
  assert (Hground : Interface.handle v ev (handleSelectModel (Some (id data)) st)
                    = handleSelectModel None (handleSelectModel (Some (id data)) st)).
  { destruct Hev as [-> | ->]; reflexivity. }
  rewrite Hground. destruct st as [ms sel].
  cbn [models selectedId] in Hnone, Hflags. subst sel.
  unfold handleSelectModel. cbn [models selectedId]. f_equal. rewrite map_map.
  rewrite <- (map_id ms) at 2. apply map_ext_in. intros m Hm.
  apply list_elem_of_In in Hm. specialize (Hflags m Hm).
  destruct m. cbn in Hflags |- *. subst. reflexivity.
Qed.
End SelectionFacts.

Section UploadFacts.
Import App Upload.
Context {num : Type}.

(** File upload.  With no file, [handleFileUpload] leaves the array of
    models as it is.  With a file and an index inside the array, the new
    array is again an array of records: the asset reference of the record
    at that index is the file's URL, and nothing else differs, neither
    the other references, nor any other field of any record (selection
    and position included), nor the order.  With a file and an index past
    the end, the array is extended, with holes up to the index, by an
    object that has the file's URL and no other key. *)
Theorem file_upload_replaces_one_url (url_ : string) (modelIndex : nat)
    (models : list (ModelData num)) :
  handleFileUpload None modelIndex models = map Model models /\
  (forall m, models !! modelIndex = Some m ->
     exists models' : list (ModelData num),
       handleFileUpload (Some url_) modelIndex models = map Model models' /\
       map url models' = <[modelIndex := url_]> (map url models) /\
       map but_url models' = map but_url models) /\
  ((length models <= modelIndex)%nat ->
     handleFileUpload (Some url_) modelIndex models
     = map Model models ++ replicate (modelIndex - length models) Hole
       ++ [UrlOnly url_]).
Proof.
  split; [reflexivity|]. split.
  - intros m Hm. exists (<[modelIndex := set_url url_ m]> models).
    assert (Hlt : (modelIndex < length models)%nat)
      by (apply lookup_lt_is_Some; eauto).
    split; [|split].
    + unfold handleFileUpload, assign. rewrite length_map.
      destruct (Nat.ltb_spec modelIndex (length models)) as [_ | Hge]; [|lia].
      change (map Model models) with (Model <$> models).
      rewrite list_lookup_fmap, Hm. cbn [fmap option_fmap option_map spread_url].
      rewrite list_fmap_insert. reflexivity.
    + change (map url) with (fmap (M := list) (@url num)).
      rewrite list_fmap_insert. reflexivity.
    + change (map but_url) with (fmap (M := list) (@but_url num)).
      rewrite list_fmap_insert. apply list_insert_id.
      rewrite list_lookup_fmap, Hm. reflexivity.
  - intros Hge. unfold handleFileUpload, assign. rewrite length_map.
    destruct (Nat.ltb_spec modelIndex (length models)) as [Hlt | _]; [lia|].
    change (map Model models) with (Model <$> models).
    rewrite list_lookup_fmap, (lookup_ge_None_2 models modelIndex Hge).
    reflexivity.
Qed.
End UploadFacts.

(** From the initial registry: select the first model, drag it, hide the
    second, click the ground. *)
Lemma selection_is_consistent_after_any_events_witness :
  (selected_count
     (App.models
        (Interface.run BuildingModel.V1
           [Interface.ClickModel 0;
            Interface.Drag 0 [one_contact 10%Q 0%Q; one_contact 20%Q 5%Q];
            Interface.ToggleVisibility 1; Interface.ClickGround]
           registry0)) <= 1)%nat.
Proof.
  refine (proj2 (proj2 (selection_is_consistent_after_any_events BuildingModel.V1
                          [Interface.ClickModel 0;
                           Interface.Drag 0 [one_contact 10%Q 0%Q; one_contact 20%Q 5%Q];
                           Interface.ToggleVisibility 1; Interface.ClickGround]
                          registry0 _ _))).
  - cbn. apply NoDup_cons. split; [|apply NoDup_singleton].
    intros Hin. apply list_elem_of_singleton in Hin. discriminate Hin.
  - intros m Hm. cbn in Hm.
    apply elem_of_cons in Hm as [-> | Hm]; [reflexivity|].
    apply list_elem_of_singleton in Hm as ->. reflexivity.
Defined.

(** Selecting the second initial model and clicking the ground. *)
Lemma click_on_the_ground_undoes_a_selection_witness :
  Interface.handle BuildingModel.V2 Interface.ClickGround
    (Interface.handle BuildingModel.V2 (Interface.ClickModel 1) registry0)
  = registry0.
Proof.
  refine (proj2 (click_on_the_ground_undoes_a_selection BuildingModel.V2 1
                   registry0 _ Interface.ClickGround eq_refl eq_refl eq_refl _
                   (or_introl eq_refl))).
  intros m Hm. cbn in Hm.
  apply elem_of_cons in Hm as [-> | Hm]; [reflexivity|].
  apply list_elem_of_singleton in Hm as ->. reflexivity.
Defined.

(** A file for the second of two models. *)
Lemma file_upload_replaces_one_url_witness :
  exists models' : list (ModelData Q),
    Upload.handleFileUpload (Some "blob:file") 1
      [model_at "a" 0 1 0 1 1 1; model_at "b" 1 1 0 1 1 1]
    = map Upload.Model models' /\
    map url models' = [""; "blob:file"].
Proof.
  destruct (proj1 (proj2 (file_upload_replaces_one_url "blob:file" 1
                            [@model_at Q _ "a" 0 1 0 1 1 1; model_at "b" 1 1 0 1 1 1]))
              (model_at "b" 1 1 0 1 1 1) eq_refl)
    as (models' & Hnew & Hurl & _).
  exists models'. split; [exact Hnew | exact Hurl].
Defined.
(** ** The status line *)

Section StatusFacts.
Import App Status.
Context {num : Type} `{JsNumber num}.
Implicit Types (m : ModelData num) (st : App.State num).

Lemma find_ext_in {A} (f g : A -> bool) (l : list A) :
  (forall x, x ∈ l -> f x = g x) -> List.find f l = List.find g l.
Proof.
  induction l as [|a l IH]; intros Hfg; [reflexivity|].
  cbn [List.find]. rewrite (Hfg a) by left.
  rewrite IH by (intros x Hx; apply Hfg; right; exact Hx). reflexivity.
Qed.

Lemma find_none_all {A} (f : A -> bool) (l : list A) :
  (forall x, x ∈ l -> f x = false) -> List.find f l = None.
Proof.
  induction l as [|a l IH]; intros Hf; [reflexivity|].
  cbn [List.find]. rewrite (Hf a) by left.
  apply IH. intros x Hx. apply Hf. right. exact Hx.
Qed.

Lemma handle_selection_exists v (ev : Interface.Event num) st :
  selection_exists st -> selection_exists (Interface.handle v ev st).
Proof.
  apply (handle_invariant v ev selection_exists selection_exists).
  - intros st' Hst'. exact Hst'.
  - intros i st' _ [-> | (m & Hm & ->)] s Hs; cbn in Hs; [discriminate Hs|].
    injection Hs as <-. exists (select (Some (id m)) m). split; [|reflexivity].
    cbn. apply list_elem_of_fmap. exists m. split; [reflexivity | exact Hm].
  - intros st' model u Hst' _ Hissued s Hs. cbn [handleUpdateModel selectedId] in Hs.
    destruct (Hst' s Hs) as (m & Hm & Hid).
    destruct (issued_fields v ev model u Hissued) as (Hnoid & _).
    exists (update (id model) u m). split.
    + cbn. apply list_elem_of_fmap. exists m. split; [reflexivity | exact Hm].
    + unfold update. destruct (String.eqb (id m) (id model)); [|exact Hid].
      cbn [spread id]. rewrite Hnoid. exact Hid.
Qed.

Lemma run_selection_exists v (events : list (Interface.Event num)) st :
  selection_exists st -> selection_exists (Interface.run v events st).
Proof.
  revert st. induction events as [|ev events IH]; intros st Hst; [exact Hst|].
  unfold Interface.run in *. cbn [fold_left].
  apply IH, handle_selection_exists, Hst.
Qed.

(** The status line names the selected model.  From a registry whose
    identifiers are not empty strings, whose selection flags agree with
    the selected identifier, and whose selected identifier, if any, is the
    identifier of one of its records: after any sequence of events, the
    status line is the global one when no record is flagged selected, and
    otherwise carries the name of the first record flagged selected.  It
    never carries "undefined". *)
Theorem status_names_the_selected_model v (events : list (Interface.Event num)) st :
  (forall m, m ∈ models st -> id m <> "") ->
  flags_follow st -> selection_exists st ->
  let st' := Interface.run v events st in
  getStatusMessage st'
  = match List.find selected (models st') with
    | Some m => status_of (name m)
    | None => global_status
    end.
Proof.
  intros Hids Hflags Hexists st'.
  assert (Hflags' : flags_follow st') by apply run_flags, Hflags.
  assert (Hexists' : selection_exists st') by apply run_selection_exists, Hexists.
  assert (Hids' : forall m, m ∈ models st' -> id m <> "").
  { intros m Hm.
    assert (Hin : id m ∈ map id (models st)).
    { rewrite <- (frame_ids (models st') (models st)) by apply run_frame.
      apply list_elem_of_fmap. exists m. split; [reflexivity | exact Hm]. }
    apply list_elem_of_fmap in Hin as (m0 & -> & Hm0). apply Hids, Hm0. }
  unfold getStatusMessage.
  destruct (selectedId st') as [s|] eqn:Hsel.
  - destruct (Hexists' s Hsel) as (m & Hm & Hid).
    assert (Hs : String.eqb s "" = false).
    { apply String.eqb_neq. rewrite <- Hid. apply Hids', Hm. }
    cbn [truthy]. rewrite Hs. cbn [negb].
    rewrite (find_ext_in (fun m => id_is m (Some s)) selected (models st')).
    + destruct (List.find selected (models st')) as [m1|] eqn:Hfind; [reflexivity|].
      exfalso.
      assert (Hnot : selected m = false)
        by (apply (List.find_none _ _ Hfind m), list_elem_of_In, Hm).
      rewrite (Hflags' m Hm), Hsel in Hnot. cbn in Hnot.
      rewrite Hid, String.eqb_refl in Hnot. discriminate Hnot.
    + intros m1 Hm1. rewrite (Hflags' m1 Hm1), Hsel. reflexivity.
  - cbn [truthy]. rewrite find_none_all; [reflexivity|].
    intros m Hm. rewrite (Hflags' m Hm), Hsel. reflexivity.
Qed.
End StatusFacts.

(** After a click on the second initial model the status line names it. *)
Lemma status_names_the_selected_model_witness :
  Status.getStatusMessage
    (Interface.run BuildingModel.V1 [Interface.ClickModel 1] registry0)
  = status_of "模型二".
Proof.
  refine (status_names_the_selected_model BuildingModel.V1
            [Interface.ClickModel 1] registry0 _ _ _).
  - intros m Hm. cbn in Hm.
    apply elem_of_cons in Hm as [-> | Hm]; [discriminate|].
    apply list_elem_of_singleton in Hm as ->. discriminate.
  - intros m Hm. cbn in Hm.
    apply elem_of_cons in Hm as [-> | Hm]; [reflexivity|].
    apply list_elem_of_singleton in Hm as ->. reflexivity.
  - intros s Hs. discriminate Hs.
Defined.
(** ** Hiding a model *)

Section Hiding.
Import App Controls BuildingModel.
Context {num : Type} `{JsNumber num}.
Implicit Types (m : ModelData num) (st : App.State num).


End Hiding.


